(** * apex-scanner: the fetch-with-fallback and volume-spike pipeline of app.py

    A shallow embedding of the monitor part of [app.py]: the spike detector
    [detect_volume_spike], the per-symbol pipeline [check_coin], the scan
    [run_monitor_scan] with its cooldown dictionary and Telegram hand-off,
    the universe refresh [fetch_monitor_coins], the four-exchange resolver
    [fetch_one_crypto] and the routes around them.

    Conventions of the embedding.
    - Python values that travel through JSON payloads are [pyval]s.
    - A Python [float] is an IEEE 754 binary64 value, with its signed
      zeros, infinities and NaN, and its arithmetic is the correctly
      rounded one of the Standard Library's [SpecFloat]; [exact] gives the
      rational a finite float stands for.  The times of the monitor are
      rationals: they are values of [time.time()], whose differences the
      machine computes without error.
    - [sum] over floats depends on the interpreter (left to right up to
      CPython 3.11, compensated from 3.12 on) and [list.sort] is only
      specified on keys that [<] orders; both are parameters of the
      development, and the examples run both summations.
    - A Python exception is the [Raises] outcome of the error monad
      [outcome].  Code that talks to the network, prints or touches the
      module's globals runs in the monad [M]: it passes the globals along,
      returns or raises, and writes a log of every request issued, every
      line printed, every write to the cooldown dictionary and every
      hand-off to Telegram, in program order.
    - The network is a function from endpoints to answers, a parameter of
      every computation; the time of a scan is a parameter as well.
    - The thread pools run their tasks one after the other, in the order
      of the list they map over; the tasks of one scan only read the
      globals, so the results do not depend on that order.
    - [float] and [int] applied to a string need Python's numeric grammar;
      the two parsers are parameters of the development.
    - A string is a sequence of 8-bit characters, which is Python's view
      of ASCII text; a dict is the list of its items, with distinct keys. *)

From Stdlib Require Import QArith Qround Qabs Qpower Ascii String Sorted Lqa SpecFloat.
From stdpp Require Import gmap strings list fin_maps.


(** ** IEEE 754 doubles *)

Definition float : Type := spec_float.

Definition fadd : float -> float -> float := SFadd 53 1024.
Definition fsub : float -> float -> float := SFsub 53 1024.
Definition fmul : float -> float -> float := SFmul 53 1024.
Definition fdiv : float -> float -> float := SFdiv 53 1024.
Definition fabs : float -> float := SFabs.

(** [x < y], [x <= y] and [x == y]: all three are false when one side is
    NaN. *)
Definition flt : float -> float -> bool := SFltb.
Definition fle : float -> float -> bool := SFleb.
Definition feq : float -> float -> bool := SFeqb.

Definition is_nan (x : float) : bool :=
  match x with S754_nan => true | _ => false end.

Definition is_finite (x : float) : bool :=
  match x with S754_zero _ | S754_finite _ _ _ => true | _ => false end.

(** A finite float in its one representation: 53 bits at most, and fewer
    only at the least exponent. *)
Definition well_formed (x : float) : bool := valid_binary 53 1024 x.

(** The float nearest to an integer, ties to the even one. *)
Definition float_of_Z (z : Z) : float := binary_normalize 53 1024 z 0 false.

(** The float nearest to a rational, ties to the even one: what a decimal
    literal and [float(str)] denote. *)
Definition nearest (q : Q) : float :=
  match Qnum q with
  | Z0 => S754_zero false
  | Zpos n => fdiv (S754_finite false n 0) (S754_finite false (Qden q) 0)
  | Zneg n => fdiv (S754_finite true n 0) (S754_finite false (Qden q) 0)
  end.

(** The rational a finite float stands for; 0 for the others. *)
Definition exact (x : float) : Q :=
  match x with
  | S754_finite s m e =>
      let v := (inject_Z (Zpos m) * 2 ^ e)%Q in
      if s then (- v)%Q else v
  | _ => 0%Q
  end.

Definition zero : float := S754_zero false.
Definition two : float := float_of_Z 2.


(** ** Python values, exceptions and outcomes *)

#[local] Set Warnings "-register-all".
Inductive pyval : Type :=
| VNone
| VBool (b : bool)
| VInt (z : Z)
| VFloat (x : float)
| VStr (s : string)
| VList (l : list pyval)
| VDict (d : list (string * pyval)).

#[local] Set Warnings "+register-all".

Inductive exn : Type :=
| TypeError
| ValueError
| IndexError
| KeyError
| AttributeError
| ZeroDivisionError
| OverflowError
| RequestException.

Inductive outcome (A : Type) : Type :=
| Returns (a : A)
| Raises (e : exn).
Arguments Returns {A} a.
Arguments Raises {A} e.

Definition obind {A B} (m : outcome A) (f : A -> outcome B) : outcome B :=
  match m with
  | Returns a => f a
  | Raises e => Raises e
  end.

Declare Scope py_scope.
Delimit Scope py_scope with py.
Notation "x <~ m ;; k" := (obind m (fun x => k))
  (at level 100, m at next level, right associativity) : py_scope.

(** [[f(x) for x in xs]]: the first exception aborts the comprehension. *)
Fixpoint comprehension {A B} (f : A -> outcome B) (xs : list A) : outcome (list B) :=
  match xs with
  | [] => Returns []
  | x :: xs' =>
      (y <~ f x ;; ys <~ comprehension f xs' ;; Returns (y :: ys))%py
  end.

(** ** Numbers *)

Definition Qlt_bool (x y : Q) : bool := negb (Qle_bool y x).

(** [sum(xs)] over floats as CPython up to 3.11 computes it: from the
    integer 0, left to right. *)
Definition naive_sum (xs : list float) : float := fold_left fadd xs zero.

(** [sum(xs)] over floats as CPython computes it from 3.12 on: Neumaier's
    compensated summation; the compensation is added at the end when it
    is finite and not zero. *)
Definition neumaier_step (acc : float * float) (x : float) : float * float :=
  let '(f_result, c) := acc in
  let t := fadd f_result x in
  (t, if fle (fabs x) (fabs f_result)
      then fadd c (fadd (fsub f_result t) x)
      else fadd c (fadd (fsub x t) f_result)).

Definition neumaier_sum (xs : list float) : float :=
  let '(f_result, c) := fold_left neumaier_step xs (zero, zero) in
  if negb (feq c zero) && is_finite c then fadd f_result c else f_result.

(** [min(xs)]: an element replaces the one kept when it is [<] it;
    [ValueError] on an empty list. *)
Definition py_min (xs : list float) : outcome float :=
  match xs with
  | [] => Raises ValueError
  | x :: xs' => Returns (fold_left (fun m y => if flt y m then y else m) xs' x)
  end.

(** [x / y] on floats: only a divisor equal to zero raises. *)
Definition py_div (x y : float) : outcome float :=
  if feq y zero then Raises ZeroDivisionError else Returns (fdiv x y).

(** Round to the nearest integer, ties to the even one. *)
Definition round_half_even (x : Q) : Z :=
  let f := Qfloor x in
  match Qcompare (x - inject_Z f) (1 # 2) with
  | Lt => f
  | Gt => (f + 1)%Z
  | Eq => if Z.even f then f else (f + 1)%Z
  end.

(** The float nearest to the decimal [n / 10^ndigits]; a zero keeps the
    sign [s]. *)
Definition decimal (s : bool) (n : Z) (ndigits : nat) : float :=
  match n with
  | Z0 => S754_zero s
  | _ => nearest (n # Z.to_pos (10 ^ Z.of_nat ndigits))
  end.

(** [round(x, ndigits)] for a non-negative [ndigits]: the exact value of
    [x] is rounded to [ndigits] decimals, ties to the even digit, and the
    float nearest to that decimal is returned; infinities and NaN round to
    themselves. *)
Definition py_round (x : float) (ndigits : nat) : float :=
  match x with
  | S754_finite s _ _ =>
      decimal s (round_half_even (exact x * inject_Z (10 ^ Z.of_nat ndigits))) ndigits
  | _ => x
  end.

(** ** Sequences: indexing and slicing with negative positions *)

(** A slice bound: negative bounds count from the end, then clamp to
    [0 .. len]. *)
Definition slice_bound (len : nat) (i : Z) : nat :=
  let n := Z.of_nat len in
  Z.to_nat (if (i <? 0)%Z then Z.max (i + n) 0 else Z.min i n).

(** [l[start:stop]] *)
Definition py_slice {A} (l : list A) (start stop : Z) : list A :=
  let a := slice_bound (length l) start in
  let b := slice_bound (length l) stop in
  take (b - a) (drop a l).

(** [l[start:]] *)
Definition py_slice_from {A} (l : list A) (start : Z) : list A :=
  drop (slice_bound (length l) start) l.

(** [l[:stop]] for a non-negative [stop]. *)
Definition py_slice_to {A} (l : list A) (stop : nat) : list A := take stop l.

(** [l[i]]: [IndexError] outside [-len .. len-1]. *)
Definition py_index {A} (l : list A) (i : Z) : outcome A :=
  let n := Z.of_nat (length l) in
  let j := if (i <? 0)%Z then (i + n)%Z else i in
  if (j <? 0)%Z then Raises IndexError
  else match l !! Z.to_nat j with
       | Some x => Returns x
       | None => Raises IndexError
       end.

Fixpoint chars (s : string) : list pyval :=
  match s with
  | EmptyString => []
  | String c s' => VStr (String c EmptyString) :: chars s'
  end.

(** [v[i]] with an integer subscript.  JSON objects have string keys only,
    so an integer subscript of a dict is a [KeyError]. *)
Definition py_getitem (v : pyval) (i : Z) : outcome pyval :=
  match v with
  | VList l => py_index l i
  | VStr s => py_index (chars s) i
  | VDict _ => Raises KeyError
  | _ => Raises TypeError
  end.

(** Truth value of a list in a condition. *)
Definition truthy_list {A} (l : list A) : bool := negb (Nat.eqb (length l) 0).

(** [len(v)] *)
Definition py_len (v : pyval) : outcome nat :=
  match v with
  | VList l => Returns (length l)
  | VStr s => Returns (String.length s)
  | VDict d => Returns (length d)
  | _ => Raises TypeError
  end.

(** Truth value of [v] in a condition. *)
Definition truthy (v : pyval) : bool :=
  match v with
  | VNone => false
  | VBool b => b
  | VInt z => negb (z =? 0)%Z
  | VFloat x => negb (feq x zero)
  | VStr s => negb (String.eqb s "")
  | VList l => truthy_list l
  | VDict d => negb (Nat.eqb (length d) 0)
  end.

Fixpoint assoc (k : string) (d : list (string * pyval)) : option pyval :=
  match d with
  | [] => None
  | (k', v) :: d' => if String.eqb k k' then Some v else assoc k d'
  end.

(** [v.get(key, default)]: only dicts have [get]. *)
Definition py_get (v : pyval) (key : string) (default : pyval) : outcome pyval :=
  match v with
  | VDict d => Returns (match assoc key d with Some x => x | None => default end)
  | _ => Raises AttributeError
  end.

(** ** The cooldown dictionary *)

Definition ALERT_COOLDOWN_SECONDS : Q := 7200.

(** [now - _last_alert_time.get(sym, 0) < ALERT_COOLDOWN_SECONDS] *)
Definition should_skip (last : gmap string Q) (sym : string) (now : Q) : bool :=
  Qlt_bool (now - default 0%Q (last !! sym)) ALERT_COOLDOWN_SECONDS.

(** [_last_alert_time[sym] = now] on the dictionary alone. *)
Definition record (last : gmap string Q) (sym : string) (now : Q) : gmap string Q :=
  <[sym := now]> last.

(** ** Process state, the network and the effect monad *)

Inductive adapter : Type := KuCoin | OKX | BinanceSpot | BinanceFutures.

Inductive exchange : Type := BinanceList | KuCoinList | OKXList.

(** What a [requests.get] or [requests.post] is addressed to. *)
Inductive endpoint : Type :=
| ScanCandles (a : adapter) (sym : string)   (* the daily candles of check_coin *)
| Candles (a : adapter) (sym : string)       (* the candles of fetch_one_crypto *)
| Listing (x : exchange)                     (* the instrument list of an exchange *)
| TelegramSend.                              (* the bot's sendMessage *)

(** The answer to a request: the call raises (timeout, connection error),
    or a response arrives with its [ok] flag and its body; the body is
    [None] when it is not JSON, so that [r.json()] raises. *)
Inductive http_result : Type :=
| ConnError
| Resp (ok : bool) (body : option pyval).

(** An entry of [alerts]: the dict built by check_coin. *)
Record alert : Type := Alert {
  a_sym : string;
  a_spike : float;
  a_pct_from_low : float;
  a_price : pyval;
  a_source : string
}.

Inductive message : Type :=
| MsgTelegramNotConfigured
| MsgTelegramSentOK
| MsgTelegramError
| MsgTelegramException (e : exn)
| MsgCoinError (sym : string) (e : exn)
| MsgScanStart (n : nat)
| MsgScanSent (syms : list string)
| MsgScanNoSpikes
| MsgLoaded (x : exchange) (n : nat)
| MsgFetchFailed (x : exchange) (e : exn)
| MsgAllExchangesFailed (n : nat)
| MsgCryptoHttp (a : adapter) (sym : string)
| MsgCryptoError (a : adapter) (sym : string) (e : exn)
| MsgCryptoAllFailed (sym : string).

(** What the log records, in program order. [Handed batch] is the call
    [send_telegram(text)], where [text] renders the entries of [batch] in
    order, two lines each, under a three-line header. *)
Inductive event : Type :=
| Requested (e : endpoint)
| Printed (m : message)
| CooldownSet (sym : string) (t : Q)
| Handed (batch : list alert).

(** The module's globals that the monitor reads and writes. *)
Record globals : Type := Globals {
  _last_alert_time : gmap string Q;
  MONITOR_COINS : list string;
  TELEGRAM_BOT_TOKEN : string;
  TELEGRAM_CHAT_ID : string
}.

(** What the process cannot see in advance: the network's answer to each
    request. *)
Record world : Type := World {
  net : endpoint -> http_result
}.

(** A computation reads and writes the globals, appends to the log and
    returns or raises; what it wrote before raising stays written. *)
Definition M (A : Type) : Type := globals -> list event * outcome A * globals.

Definition mret {A} (a : A) : M A := fun g => ([], Returns a, g).

Definition mbind {A B} (m : M A) (f : A -> M B) : M B :=
  fun g =>
    match m g with
    | (l, Returns a, g') =>
        match f a g' with
        | (l', r, g'') => (l ++ l', r, g'')
        end
    | (l, Raises e, g') => (l, Raises e, g')
    end.

Definition mtry {A} (m : M A) (h : exn -> M A) : M A :=
  fun g =>
    match m g with
    | (l, Returns a, g') => (l, Returns a, g')
    | (l, Raises e, g') =>
        match h e g' with
        | (l', r, g'') => (l ++ l', r, g'')
        end
    end.

Definition lift {A} (o : outcome A) : M A := fun g => ([], o, g).

Definition tell (ev : event) : M unit := fun g => ([ev], Returns tt, g).

Definition print (m : message) : M unit := tell (Printed m).

Definition read_globals : M globals := fun g => ([], Returns g, g).

(** [_last_alert_time[sym] = t] *)
Definition set_cooldown (sym : string) (t : Q) : M unit :=
  fun g =>
    ([CooldownSet sym t], Returns tt,
     {| _last_alert_time := record (_last_alert_time g) sym t;
        MONITOR_COINS := MONITOR_COINS g;
        TELEGRAM_BOT_TOKEN := TELEGRAM_BOT_TOKEN g;
        TELEGRAM_CHAT_ID := TELEGRAM_CHAT_ID g |}).

(** [MONITOR_COINS = coins] *)
Definition set_monitor_coins (coins : list string) : M unit :=
  fun g =>
    ([], Returns tt,
     {| _last_alert_time := _last_alert_time g;
        MONITOR_COINS := coins;
        TELEGRAM_BOT_TOKEN := TELEGRAM_BOT_TOKEN g;
        TELEGRAM_CHAT_ID := TELEGRAM_CHAT_ID g |}).

Declare Scope m_scope.
Delimit Scope m_scope with M.
Notation "x <~ m ;; k" := (mbind m (fun x => k))
  (at level 100, m at next level, right associativity) : m_scope.
Notation "m ;;; k" := (mbind m (fun _ => k))
  (at level 100, right associativity) : m_scope.

(** [[f(x) for x in xs]] for an effectful [f], left to right. *)
Fixpoint mmap {A B} (f : A -> M B) (xs : list A) : M (list B) :=
  match xs with
  | [] => mret []
  | x :: xs' => (y <~ f x ;; ys <~ mmap f xs' ;; mret (y :: ys))%M
  end.

(** [requests.get(url, ...)] and [requests.post(url, ...)] *)
Definition requests_get (w : world) (e : endpoint) : M (bool * option pyval) :=
  (tell (Requested e) ;;;
   match net w e with
   | ConnError => lift (Raises RequestException)
   | Resp ok body => mret (ok, body)
   end)%M.

(** [r.json()] *)
Definition json (body : option pyval) : outcome pyval :=
  match body with
  | Some v => Returns v
  | None => Raises ValueError
  end.

(** [reversed(v)] as the list it iterates over; a dict yields its keys. *)
Definition py_reversed (v : pyval) : outcome (list pyval) :=
  match v with
  | VList l => Returns (rev l)
  | VStr s => Returns (rev (chars s))
  | VDict d => Returns (rev (map (fun kv => VStr (fst kv)) d))
  | _ => Raises TypeError
  end.

(** [try: m  except Exception: h] *)
Definition otry {A} (m : outcome A) (h : exn -> outcome A) : outcome A :=
  match m with
  | Returns a => Returns a
  | Raises e => h e
  end.

(** [int(x)] on a float: truncation toward zero; NaN and the infinities
    have no integer. *)
Definition float_trunc (x : float) : outcome Z :=
  match x with
  | S754_nan => Raises ValueError
  | S754_infinity _ => Raises OverflowError
  | S754_zero _ => Returns 0%Z
  | S754_finite _ _ _ => Returns (Z.quot (Qnum (exact x)) (Zpos (Qden (exact x))))
  end.

(** [float(z)] on an integer: the nearest float, and [OverflowError] when
    there is none. *)
Definition float_of_int (z : Z) : outcome float :=
  if is_finite (float_of_Z z) then Returns (float_of_Z z) else Raises OverflowError.

(** ** Plain decimal numerals

    A fragment of Python's numeric grammar, enough to run the model on
    concrete payloads: an optional sign, digits, and for floats an
    optional dot followed by digits, or one of [nan] and [inf].  On such
    strings
    [plain_int] and [plain_float] agree with [int] and [float]; the
    theorems below hold for any pair of parsers and use these two only in
    examples. *)

Definition digit_of (c : ascii) : option Z :=
  let n := Z.of_nat (nat_of_ascii c) in
  if ((48 <=? n) && (n <=? 57))%Z then Some (n - 48)%Z else None.

Fixpoint digits_from (acc : Z) (s : string) : option Z :=
  match s with
  | EmptyString => Some acc
  | String c s' =>
      match digit_of c with
      | Some d => digits_from (10 * acc + d) s'
      | None => None
      end
  end.

Definition unsigned_int (s : string) : option Z :=
  match s with
  | EmptyString => None
  | _ => digits_from 0 s
  end.

Definition plain_int (s : string) : option Z :=
  match s with
  | String "-" s' => Z.opp <$> unsigned_int s'
  | _ => unsigned_int s
  end.

Fixpoint split_dot (s : string) : string * option string :=
  match s with
  | EmptyString => (EmptyString, None)
  | String "." s' => (EmptyString, Some s')
  | String c s' => let '(a, b) := split_dot s' in (String c a, b)
  end.

Definition unsigned_float (s : string) : option float :=
  if String.eqb s "nan" then Some S754_nan
  else if String.eqb s "inf" then Some (S754_infinity false)
  else
    match split_dot s with
    | (a, None) => (fun n => nearest (inject_Z n)) <$> unsigned_int a
    | (a, Some b) =>
        match unsigned_int a, unsigned_int b with
        | Some n, Some f =>
            Some (nearest (inject_Z n
                           + inject_Z f / inject_Z (10 ^ Z.of_nat (String.length b))))
        | _, _ => None
        end
    end.

Definition plain_float (s : string) : option float :=
  match s with
  | String "-" s' => SFopp <$> unsigned_float s'
  | _ => unsigned_float s
  end.

(** ** Vocabulary of the statements *)

(** A candle in the canonical form
    [[timestamp, open, high, low, close, volume]]. *)
Record candle : Type := Candle {
  c_timestamp : Z;
  c_open : float;
  c_high : float;
  c_low : float;
  c_close : float;
  c_volume : float
}.

Definition canonical (c : candle) : pyval :=
  VList [VInt (c_timestamp c); VFloat (c_open c); VFloat (c_high c);
         VFloat (c_low c); VFloat (c_close c); VFloat (c_volume c)].

(** The [n] values that precede the last one: [xs[-(n+1):-1]]. *)
Definition window {A} (n : nat) (xs : list A) : list A :=
  take n (drop (length xs - S n) xs).

(** The value [k] places before the last one: [from_end 0] is the current
    bar, [from_end 1] the previous one. *)
Definition from_end (k : nat) (xs : list float) : float :=
  default zero (xs !! (length xs - S k)%nat).

(** The last [n] values, or all of them when there are fewer. *)
Definition last_n {A} (n : nat) (xs : list A) : list A :=
  drop (length xs - n) xs.



Section Pipeline.

(** Python's [float(str)] and [int(str)]: [None] when the string is not a
    numeral of the respective grammar ([ValueError]). *)
Variable parse_float : string -> option float.
Variable parse_int : string -> option Z.

(** [sum] over a list of floats that is not empty: [naive_sum] or
    [neumaier_sum], by the interpreter. *)
Variable py_sum : list float -> float.

(** [float(v)] *)
Definition py_float (v : pyval) : outcome float :=
  match v with
  | VInt z => float_of_int z
  | VFloat x => Returns x
  | VBool b => Returns (float_of_Z (if b then 1 else 0))
  | VStr s => match parse_float s with
              | Some x => Returns x
              | None => Raises ValueError
              end
  | _ => Raises TypeError
  end.

(** [int(v)] *)
Definition py_int (v : pyval) : outcome Z :=
  match v with
  | VInt z => Returns z
  | VFloat x => float_trunc x
  | VBool b => Returns (if b then 1 else 0)%Z
  | VStr s => match parse_int s with
              | Some z => Returns z
              | None => Raises ValueError
              end
  | _ => Raises TypeError
  end.

(** ** The spike detector (app.py, [detect_volume_spike]) *)

Definition VOLUME_SPIKE_MULTIPLIER : float := nearest (18 # 10).

(** The dict [{'ratio': ..., 'pct_from_low': ...}]. *)
Record signal : Type := Signal { ratio : float; pct_from_low : float }.

(** [float(c[i])] *)
Definition fld (c : pyval) (i : Z) : outcome float :=
  (x <~ py_getitem c i ;; py_float x)%py.

(** [[float(k[i]) for k in klines]] *)
Definition column (i : Z) (klines : list pyval) : outcome (list float) :=
  comprehension (fun k => fld k i) klines.

(** The body of the [try] block.  The integers 20, 10, 0, 100 and 40 meet
    floats and become floats; 1.05 is the float nearest to 105/100. *)
Definition detect_body (klines : list pyval) : outcome (option signal) :=
  (vols <~ column 5 klines ;;
   closes <~ column 4 klines ;;
   lows <~ column 3 klines ;;
   (* 1. volume spike check *)
   avg_vol <~ py_div (py_sum (py_slice vols (-21) (-1))) (float_of_Z 20) ;;
   curr_vol <~ py_index vols (-1) ;;
   if fle avg_vol zero then Returns None else
   ratio <~ py_div curr_vol avg_vol ;;
   if flt ratio VOLUME_SPIKE_MULTIPLIER then Returns None else
   (* 2. volume must be rising *)
   v_last <~ py_index vols (-1) ;;
   v_prev <~ py_index vols (-2) ;;
   if negb (flt v_prev v_last) then Returns None else
   (* 3. price at most 5% over its 10-bar average *)
   avg_price_10 <~ py_div (py_sum (py_slice closes (-11) (-1))) (float_of_Z 10) ;;
   curr_price <~ py_index closes (-1) ;;
   if flt (fmul avg_price_10 (nearest (105 # 100))) curr_price then Returns None else
   (* 4. price within 40% of its 30-bar low *)
   low_30 <~ (if (30 <=? length lows)%nat
              then py_min (py_slice_from lows (-30))
              else py_min lows) ;;
   if fle low_30 zero then Returns None else
   q <~ py_div (fsub curr_price low_30) low_30 ;;
   let pct := fmul q (float_of_Z 100) in
   if flt (float_of_Z 40) pct then Returns None else
   Returns (Some {| ratio := py_round ratio 2;
                    pct_from_low := py_round pct 1 |}))%py.

Definition detect_volume_spike (symbol : string) (klines : list pyval)
  : outcome (option signal) :=
  if negb (truthy_list klines) || (length klines <? 22)%nat then Returns None
  else otry (detect_body klines) (fun _ => Returns None).

(** ** Telegram (app.py, [send_telegram]) *)

(** [message] is the batch the text was rendered from. *)
Definition send_telegram (w : world) (message : list alert) : M bool :=
  (tell (Handed message) ;;;
   g <~ read_globals ;;
   if negb (truthy (VStr (TELEGRAM_BOT_TOKEN g)))
      || negb (truthy (VStr (TELEGRAM_CHAT_ID g)))
   then print MsgTelegramNotConfigured ;;; mret false
   else
     mtry (r <~ requests_get w TelegramSend ;;
           if fst r
           then print MsgTelegramSentOK ;;; mret true
           else print MsgTelegramError ;;; mret false)
          (fun e => print (MsgTelegramException e) ;;; mret false))%M.

(** ** Candle rows of the exchanges *)

(** KuCoin lists [time, open, close, high, low, vol, turnover], time in
    seconds:
    [[int(c[0])*1000, float(c[1]), float(c[3]), float(c[4]), float(c[2]), float(c[5])]] *)
Definition kucoin_row (c : pyval) : outcome pyval :=
  (t <~ (x <~ py_getitem c 0 ;; py_int x) ;;
   o <~ fld c 1 ;;
   h <~ fld c 3 ;;
   l <~ fld c 4 ;;
   cl <~ fld c 2 ;;
   v <~ fld c 5 ;;
   Returns (VList [VInt (t * 1000); VFloat o; VFloat h; VFloat l; VFloat cl; VFloat v]))%py.

(** [[int(c[0]), float(c[1]), float(c[2]), float(c[3]), float(c[4]), float(c[5])]] *)
Definition okx_row (c : pyval) : outcome pyval :=
  (t <~ (x <~ py_getitem c 0 ;; py_int x) ;;
   o <~ fld c 1 ;;
   h <~ fld c 2 ;;
   l <~ fld c 3 ;;
   cl <~ fld c 4 ;;
   v <~ fld c 5 ;;
   Returns (VList [VInt t; VFloat o; VFloat h; VFloat l; VFloat cl; VFloat v]))%py.

(** [[c[0], float(c[1]), float(c[2]), float(c[3]), float(c[4]), float(c[5])]] *)
Definition binance_row (c : pyval) : outcome pyval :=
  (t <~ py_getitem c 0 ;;
   o <~ fld c 1 ;;
   h <~ fld c 2 ;;
   l <~ fld c 3 ;;
   cl <~ fld c 4 ;;
   v <~ fld c 5 ;;
   Returns (VList [t; VFloat o; VFloat h; VFloat l; VFloat cl; VFloat v]))%py.

(** ** One symbol of a scan (app.py, [check_coin] inside [run_monitor_scan]) *)

(** One exchange of check_coin.  The source writes this block twice, for
    KuCoin and for OKX; the two differ in the endpoint, in the row
    conversion and in the source tag.  [None] stands for falling out of
    the block without [return]. *)
Definition scan_leg (w : world) (a : adapter) (row : pyval -> outcome pyval)
    (source : string) (sym : string) : M (option alert) :=
  (r <~ requests_get w (ScanCandles a sym) ;;
   if fst r then
     data <~ lift (j <~ json (snd r) ;; py_get j "data" (VList []))%py ;;
     n <~ lift (py_len data) ;;
     if (22 <=? n)%nat then
       klines <~ lift (rows <~ py_reversed data ;; comprehension row rows)%py ;;
       spike <~ lift (detect_volume_spike sym klines) ;;
       match spike with
       | Some s =>
           price <~ lift (last <~ py_index klines (-1) ;; py_getitem last 4)%py ;;
           mret (Some {| a_sym := sym; a_spike := ratio s;
                         a_pct_from_low := pct_from_low s;
                         a_price := price; a_source := source |})
       | None => mret None
       end
     else mret None
   else mret None)%M.

(** The body of check_coin's one [try] block: KuCoin, then OKX. *)
Definition check_coin_try (w : world) (sym : string) : M (option alert) :=
  (k <~ scan_leg w KuCoin kucoin_row "KuCoin" sym ;;
   match k with
   | Some a => mret (Some a)
   | None => scan_leg w OKX okx_row "OKX" sym
   end)%M.

Definition check_coin (w : world) (now : Q) (sym : string) : M (option alert) :=
  (g <~ read_globals ;;
   if should_skip (_last_alert_time g) sym now then mret None
   else
     mtry (check_coin_try w sym)
          (fun e => print (MsgCoinError sym e) ;;; mret None))%M.

(** ** The scan (app.py, [run_monitor_scan]) *)

(** A descending and stable sort by ['spike']: an entry goes before the
    first one it is not [<] of, so entries with equal keys keep their
    order. *)
Fixpoint insert_desc (x : alert) (l : list alert) : list alert :=
  match l with
  | [] => [x]
  | y :: l' =>
      if flt (a_spike x) (a_spike y) then y :: insert_desc x l'
      else x :: y :: l'
  end.

Definition stable_desc (l : list alert) : list alert :=
  foldr insert_desc [] l.

(** [alerts.sort(key=lambda x: x['spike'], reverse=True)].  The list is
    rearranged, and when [<] orders the keys, which it does unless one of
    them is NaN, the result is the descending stable order.  With a NaN
    among the keys the order that comes out depends on the interpreter's
    algorithm and is left open. *)
Variable sort_desc : list alert -> list alert.
Hypothesis sort_desc_perm : forall l, sort_desc l ≡ₚ l.
Hypothesis sort_desc_stable :
  forall l, Forall (fun a => is_nan (a_spike a) = false) l ->
            sort_desc l = stable_desc l.

(** The loop over [results]: a result that is not [None] joins [alerts]
    and stamps its symbol. *)
Fixpoint collect_alerts (now : Q) (results : list (option alert))
    (alerts : list alert) : M (list alert) :=
  match results with
  | [] => mret alerts
  | None :: rest => collect_alerts now rest alerts
  | Some a :: rest =>
      (set_cooldown (a_sym a) now ;;;
       collect_alerts now rest (alerts ++ [a]))%M
  end.

Definition run_monitor_scan (w : world) (now : Q) : M unit :=
  (g <~ read_globals ;;
   print (MsgScanStart (length (MONITOR_COINS g))) ;;;
   results <~ mmap (check_coin w now) (MONITOR_COINS g) ;;
   alerts <~ collect_alerts now results [] ;;
   if truthy_list alerts then
     let alerts := sort_desc alerts in
     _ <~ send_telegram w (py_slice_to alerts 10) ;;
     print (MsgScanSent (map a_sym alerts))
   else print MsgScanNoSpikes)%M.

(** ** The resolver of the /crypto route (app.py, [fetch_one_crypto]) *)

(** The dict [{'klines': ..., 'type': 'crypto', 'source': ...}]. *)
Record crypto_data : Type := CryptoData {
  klines : list pyval;
  type_ : string;
  source : string
}.

(** [for c in rows: try: klines.append(row(c)) except Exception: continue] *)
Fixpoint salvage (row : pyval -> outcome pyval) (rows : list pyval) : list pyval :=
  match rows with
  | [] => []
  | c :: rows' =>
      match row c with
      | Returns k => k :: salvage row rows'
      | Raises _ => salvage row rows'
      end
  end.

(** The KuCoin and the OKX block: rows that fail to convert are skipped,
    the block succeeds when 20 rows are left.  [None] stands for leaving
    the block without [return]. *)
Definition salvaging_adapter (w : world) (a : adapter)
    (row : pyval -> outcome pyval) (sym : string) : M (option (list pyval)) :=
  mtry
    (r <~ requests_get w (Candles a sym) ;;
     if fst r then
       candles <~ lift (j <~ json (snd r) ;; py_get j "data" (VList []))%py ;;
       enough <~ lift (if truthy candles
                       then (n <~ py_len candles ;; Returns (20 <=? n)%nat)%py
                       else Returns false) ;;
       if enough : bool then
         rows <~ lift (py_reversed candles) ;;
         let klines := salvage row rows in
         if (20 <=? length klines)%nat then mret (Some klines) else mret None
       else mret None
     else print (MsgCryptoHttp a sym) ;;; mret None)%M
    (fun e => print (MsgCryptoError a sym e) ;;; mret None)%M.

(** The two Binance blocks: the payload itself is the list of rows, oldest
    first, and one row that fails to convert fails the block. *)
Definition strict_adapter (w : world) (a : adapter) (sym : string)
  : M (option (list pyval)) :=
  mtry
    (r <~ requests_get w (Candles a sym) ;;
     if fst r then
       data <~ lift (json (snd r)) ;;
       match data with
       | VList l =>
           if (20 <=? length l)%nat
           then klines <~ lift (comprehension binance_row l) ;; mret (Some klines)
           else mret None
       | _ => mret None
       end
     else print (MsgCryptoHttp a sym) ;;; mret None)%M
    (fun e => print (MsgCryptoError a sym e) ;;; mret None)%M.

Definition crypto (ks : list pyval) (src : string) : option crypto_data :=
  Some {| klines := ks; type_ := "crypto"; source := src |}.

Definition fetch_one_crypto (w : world) (sym : string)
  : M (string * option crypto_data) :=
  (k <~ salvaging_adapter w KuCoin kucoin_row sym ;;
   match k with
   | Some ks => mret (sym, crypto ks "kucoin")
   | None =>
   o <~ salvaging_adapter w OKX okx_row sym ;;
   match o with
   | Some ks => mret (sym, crypto ks "okx")
   | None =>
   b <~ strict_adapter w BinanceSpot sym ;;
   match b with
   | Some ks => mret (sym, crypto ks "binance_spot")
   | None =>
   f <~ strict_adapter w BinanceFutures sym ;;
   match f with
   | Some ks => mret (sym, crypto ks "binance_futures")
   | None => print (MsgCryptoAllFailed sym) ;;; mret (sym, None)
   end end end end)%M.

(** ** The universe refresh (app.py, [fetch_monitor_coins]) *)

(** The list the module starts with; [MONITOR_COINS] is a copy of it until
    the first refresh replaces it. *)
Definition MONITOR_COINS_BUILTIN : list string :=
  [
    "BTC"; "ETH"; "BNB"; "XRP"; "SOL"; "ADA"; "DOGE"; "TRX"; "DOT"; "LTC";
    "SHIB"; "AVAX"; "LINK"; "ATOM"; "UNI"; "XLM"; "BCH"; "ALGO"; "ICP";
    "HBAR"; "APT"; "ARB"; "NEAR"; "GRT"; "AAVE"; "INJ"; "OP"; "SUI"; "SEI";
    "TIA"; "RUNE"; "PENDLE"; "JUP"; "WIF"; "BONK"; "FLOKI"; "PEPE"; "TON";
    "KAS"; "TAO"; "IMX"; "RNDR"; "FIL"; "THETA"; "EGLD"; "MINA"; "SAND";
    "MANA"; "AXS"; "CHZ"; "ENJ"; "GALA"; "GMT"; "GMX"; "DYDX"; "LDO"; "CRV";
    "COMP"; "SNX"; "STX"; "BLUR"; "KAVA"; "ROSE"; "ANKR"; "ZIL"; "ETC";
    "VET"; "1INCH"; "CAKE"; "FTM"; "MAGIC"; "PYTH"; "JTO"; "STRK"; "METIS";
    "API3"; "MASK"; "ALICE"; "GLMR"; "KSM"; "ZRX"; "BAT"; "OMG"; "BNT";
    "STORJ"; "KNC"; "WAVES"; "QTUM"; "ICX"; "LSK"; "JASMY"; "HIGH"; "LQTY";
    "RPL"; "SSV"; "RDNT"; "GNS"; "HOOK"; "ACE"; "XAI"; "MANTA"; "ALT";
    "PIXEL"; "PORTAL"; "ZETA"; "DYM"; "TNSR"; "REZ"; "BB"; "NOT"; "IO";
    "ZK"; "WLD"; "ETHFI"; "EIGEN"; "HMSTR"; "CATI"; "NEIRO"; "SCR"; "DOGS";
    "PNUT"; "ACT"; "GOAT"; "MOODENG"; "TURBO"; "BRETT"; "ENA"; "SAGA";
    "BOME"; "MEW"; "NEAR"; "AVAX"; "LINK"; "UNI"; "MKR"; "AAVE"; "SNX";
    "CRV"; "YFI"; "SUSHI"; "BAL"; "UMA"; "GRT"; "LDO"; "CVX"; "DYDX";
    "PERP"; "GNS"; "JOE"; "PENDLE"
  ].

(** The globals when the module is loaded, for the credentials found in
    the environment. *)
Definition startup (token chat_id : string) : globals :=
  {| _last_alert_time := ∅;
     MONITOR_COINS := MONITOR_COINS_BUILTIN;
     TELEGRAM_BOT_TOKEN := token;
     TELEGRAM_CHAT_ID := chat_id |}.

Definition EXCLUDE : gset string :=
  list_to_set
    ["USDT"; "USDC"; "BUSD"; "TUSD"; "USDD"; "USDP"; "FDUSD"; "DAI"; "FRAX";
     "LUSD"; "PYUSD"; "GUSD"; "SUSD"; "USDB"; "USDX"; "EURC"; "WBTC"; "WETH";
     "WBNB"; "STETH"; "WSTETH"; "CBETH"; "RETH"; "BETH"; "BTCB"; "HBTC"].

(** [v == 'text'] *)
Definition str_eq (v : pyval) (text : string) : bool :=
  match v with
  | VStr t => String.eqb t text
  | _ => false
  end.

(** [v['key']] *)
Definition py_getkey (v : pyval) (key : string) : outcome pyval :=
  match v with
  | VDict d => match assoc key d with
               | Some x => Returns x
               | None => Raises KeyError
               end
  | _ => Raises TypeError
  end.

(** [for s in v]: the items the loop visits. *)
Definition py_iter (v : pyval) : outcome (list pyval) :=
  match v with
  | VList l => Returns l
  | VStr s => Returns (chars s)
  | VDict d => Returns (map (fun kv => VStr (fst kv)) d)
  | _ => Raises TypeError
  end.

(** A base asset as a member of [seen] and of the universe.  Exchanges
    list base assets as strings.  A list or a dict is unhashable, so the
    membership test raises [TypeError]; the other scalars Python would
    store as they are, and this model, whose universe holds strings only,
    does not cover them: they raise here as well. *)
Definition as_symbol (v : pyval) : outcome string :=
  match v with
  | VStr b => Returns b
  | _ => Raises TypeError
  end.

Definition listing_key (x : exchange) : string :=
  match x with BinanceList => "symbols" | KuCoinList => "data" | OKXList => "data" end.

Definition base_key (x : exchange) : string :=
  match x with
  | BinanceList => "baseAsset" | KuCoinList => "baseCurrency" | OKXList => "baseCcy"
  end.

(** The condition each exchange puts on an instrument [s]. *)
Definition tradable (x : exchange) (s : pyval) : outcome bool :=
  match x with
  | BinanceList =>
      (q <~ py_get s "quoteAsset" VNone ;;
       if str_eq q "USDT" then
         st <~ py_get s "status" VNone ;;
         if str_eq st "TRADING" then
           a <~ py_get s "isSpotTradingAllowed" (VBool false) ;;
           Returns (truthy a)
         else Returns false
       else Returns false)%py
  | KuCoinList =>
      (q <~ py_get s "quoteCurrency" VNone ;;
       if str_eq q "USDT" then
         e <~ py_get s "enableTrading" (VBool false) ;;
         Returns (truthy e)
       else Returns false)%py
  | OKXList =>
      (q <~ py_get s "quoteCcy" VNone ;;
       if str_eq q "USDT" then
         st <~ py_get s "state" VNone ;;
         Returns (str_eq st "live")
       else Returns false)%py
  end.

(** The loop over the instruments.  [coins] is the function's one list,
    shared by the three exchanges; the pair returned is [coins] when the
    loop ends or raises, and how it ended. *)
Fixpoint collect_bases (x : exchange) (entries : list pyval)
    (seen : gset string) (coins : list string) : list string * outcome unit :=
  match entries with
  | [] => (coins, Returns tt)
  | s :: rest =>
      match (ok <~ tradable x s ;;
             if ok : bool
             then (v <~ py_getkey s (base_key x) ;;
                   b <~ as_symbol v ;; Returns (Some b))
             else Returns None)%py with
      | Raises e => (coins, Raises e)
      | Returns None => collect_bases x rest seen coins
      | Returns (Some base) =>
          if negb (bool_decide (base ∈ seen)) && negb (bool_decide (base ∈ EXCLUDE))
          then collect_bases x rest ({[base]} ∪ seen) (coins ++ [base])
          else collect_bases x rest seen coins
      end
  end.

(** One of the three [try] blocks.  It returns [coins] as the block leaves
    it and whether the function returned from inside the block.  An
    exception of the loop reaches the block's handler like any other; what
    the loop appended to [coins] before stays appended. *)
Definition listing_block (w : world) (x : exchange) (coins : list string)
  : M (list string * bool) :=
  mtry
    (r <~ requests_get w (Listing x) ;;
     if fst r then
       entries <~ lift (data <~ json (snd r) ;;
                        l <~ py_get data (listing_key x) (VList []) ;;
                        py_iter l)%py ;;
       match collect_bases x entries ∅ coins with
       | (coins', Raises e) =>
           print (MsgFetchFailed x e) ;;; mret (coins', false)
       | (coins', Returns _) =>
           if truthy_list coins' then
             set_monitor_coins coins' ;;;
             print (MsgLoaded x (length coins')) ;;;
             mret (coins', true)
           else mret (coins', false)
       end
     else mret (coins, false))%M
    (fun e => print (MsgFetchFailed x e) ;;; mret (coins, false))%M.

Definition fetch_monitor_coins (w : world) : M unit :=
  (b <~ listing_block w BinanceList [] ;;
   if snd b then mret tt else
   k <~ listing_block w KuCoinList (fst b) ;;
   if snd k then mret tt else
   o <~ listing_block w OKXList (fst k) ;;
   if snd o then mret tt else
   g <~ read_globals ;;
   print (MsgAllExchangesFailed (length (MONITOR_COINS g))))%M.

(** * Properties *)

(** ** Comparisons on rationals *)

Lemma Qlt_bool_true (x y : Q) : Qlt_bool x y = true <-> (x < y)%Q.
Proof.
  unfold Qlt_bool. rewrite negb_true_iff.
  split.
  - intros H. apply Qnot_le_lt. intros Hle.
    apply Qle_bool_iff in Hle. congruence.
  - intros H. destruct (Qle_bool y x) eqn:E; [|reflexivity].
    apply Qle_bool_iff in E. exfalso. exact (Qlt_not_le _ _ H E).
Qed.

Lemma Qlt_bool_false (x y : Q) : Qlt_bool x y = false <-> (y <= x)%Q.
Proof.
  unfold Qlt_bool. rewrite negb_false_iff. apply Qle_bool_iff.
Qed.

Lemma Qle_bool_false (x y : Q) : Qle_bool x y = false <-> (y < x)%Q.
Proof.
  split.
  - intros H. apply Qnot_le_lt. intros Hle.
    apply Qle_bool_iff in Hle. congruence.
  - intros H. destruct (Qle_bool x y) eqn:E; [|reflexivity].
    apply Qle_bool_iff in E. exfalso. exact (Qlt_not_le _ _ H E).
Qed.

(** ** Comparisons on floats *)

Lemma feq_fle (x y : float) : feq x y = true -> fle x y = true.
Proof.
  unfold feq, fle, SFeqb, SFleb. now destruct (SFcompare x y) as [[]|].
Qed.

Lemma py_div_returns (x y : float) :
  fle y zero = false -> py_div x y = Returns (fdiv x y).
Proof.
  intros H. unfold py_div.
  destruct (feq y zero) eqn:E; [|reflexivity].
  apply feq_fle in E. congruence.
Qed.

Lemma fdiv_nan (x : float) : fdiv x S754_nan = S754_nan.
Proof. now destruct x. Qed.

Lemma flt_nan (x : float) : flt S754_nan x = false.
Proof. reflexivity. Qed.

Lemma fle_nan (x : float) : fle S754_nan x = false.
Proof. reflexivity. Qed.

(** ** The spike detector *)

(** C2. A series of fewer than 22 candles, the empty one included, yields
    no signal, whatever its rows hold: the length test comes before any
    row is read. *)
Theorem detect_short_series_absent (symbol : string) (klines : list pyval) :
  (length klines < 22)%nat ->
  detect_volume_spike symbol klines = Returns None.
Proof.
  intros Hlen. unfold detect_volume_spike.
  apply Nat.ltb_lt in Hlen. rewrite Hlen.
  now rewrite orb_true_r.
Qed.

(** Slices and subscripts counted from the end. *)

Lemma py_slice_before_last {A} (xs : list A) (n : nat) :
  (S n <= length xs)%nat ->
  py_slice xs (- Z.of_nat (S n)) (-1) = window n xs.
Proof.
  intros Hlen. unfold py_slice, slice_bound, window.
  replace (- Z.of_nat (S n) <? 0)%Z with true by (symmetry; apply Z.ltb_lt; lia).
  replace (-1 <? 0)%Z with true by reflexivity.
  replace (Z.to_nat (Z.max (- Z.of_nat (S n) + Z.of_nat (length xs)) 0))
    with (length xs - S n)%nat by lia.
  replace (Z.to_nat (Z.max (-1 + Z.of_nat (length xs)) 0))
    with (length xs - 1)%nat by lia.
  f_equal. lia.
Qed.

Lemma py_slice_from_last_n {A} (xs : list A) (n : nat) :
  (0 < n)%nat -> (n <= length xs)%nat ->
  py_slice_from xs (- Z.of_nat n) = last_n n xs.
Proof.
  intros Hn Hlen. unfold py_slice_from, slice_bound, last_n.
  replace (- Z.of_nat n <? 0)%Z with true by (symmetry; apply Z.ltb_lt; lia).
  f_equal. lia.
Qed.

Lemma py_index_from_end (xs : list float) (k : nat) :
  (k < length xs)%nat ->
  py_index xs (- Z.of_nat (S k)) = Returns (from_end k xs).
Proof.
  intros Hlen. unfold py_index, from_end.
  replace (- Z.of_nat (S k) <? 0)%Z with true by (symmetry; apply Z.ltb_lt; lia).
  replace (- Z.of_nat (S k) + Z.of_nat (length xs) <? 0)%Z with false
    by (symmetry; apply Z.ltb_ge; lia).
  replace (Z.to_nat (- Z.of_nat (S k) + Z.of_nat (length xs)))
    with (length xs - S k)%nat by lia.
  destruct (xs !! (length xs - S k)%nat) as [x|] eqn:E; [reflexivity|].
  apply lookup_ge_None in E. lia.
Qed.

Lemma py_slice_volumes {A} (xs : list A) :
  (21 <= length xs)%nat -> py_slice xs (-21) (-1) = window 20 xs.
Proof. exact (py_slice_before_last xs 20). Qed.

Lemma py_slice_closes {A} (xs : list A) :
  (11 <= length xs)%nat -> py_slice xs (-11) (-1) = window 10 xs.
Proof. exact (py_slice_before_last xs 10). Qed.

Lemma py_slice_lows {A} (xs : list A) :
  (30 <= length xs)%nat -> py_slice_from xs (-30) = last_n 30 xs.
Proof. intros H. apply (py_slice_from_last_n xs 30); lia. Qed.

Lemma py_index_last (xs : list float) :
  (0 < length xs)%nat -> py_index xs (-1) = Returns (from_end 0 xs).
Proof. exact (py_index_from_end xs 0). Qed.

Lemma py_index_previous (xs : list float) :
  (1 < length xs)%nat -> py_index xs (-2) = Returns (from_end 1 xs).
Proof. exact (py_index_from_end xs 1). Qed.

(** The lows that rule 4 looks at. *)
Lemma recent_lows (lows : list float) :
  (if (30 <=? length lows)%nat
   then py_min (py_slice_from lows (-30))
   else py_min lows) = py_min (last_n 30 lows).
Proof.
  destruct (30 <=? length lows)%nat eqn:E.
  - apply Nat.leb_le in E. now rewrite py_slice_lows.
  - apply Nat.leb_gt in E. unfold last_n.
    replace (length lows - 30)%nat with 0%nat by lia. reflexivity.
Qed.

(** The columns of a canonical series are its fields. *)

Lemma column_canonical (i : Z) (f : candle -> float) (cs : list candle) :
  (forall c, fld (canonical c) i = Returns (f c)) ->
  column i (map canonical cs) = Returns (map f cs).
Proof.
  intros Hf. unfold column. induction cs as [|c cs IH]; [reflexivity|].
  simpl map. simpl comprehension.
  rewrite Hf. simpl. rewrite IH. reflexivity.
Qed.

Lemma column_volume cs : column 5 (map canonical cs) = Returns (map c_volume cs).
Proof. now apply column_canonical. Qed.

Lemma column_close cs : column 4 (map canonical cs) = Returns (map c_close cs).
Proof. now apply column_canonical. Qed.

Lemma column_low cs : column 3 (map canonical cs) = Returns (map c_low cs).
Proof. now apply column_canonical. Qed.

(** Where a [ZeroDivisionError] can and cannot come from. *)

Lemma obind_raises {A B} (m : outcome A) (f : A -> outcome B) (e : exn) :
  obind m f = Raises e ->
  m = Raises e \/ exists a, m = Returns a /\ f a = Raises e.
Proof.
  destruct m as [a|e']; simpl; intros H; [right; eauto | left; congruence].
Qed.

Lemma py_index_zdiv {A} (l : list A) i : py_index l i <> Raises ZeroDivisionError.
Proof.
  unfold py_index.
  destruct (_ <? 0)%Z; [discriminate|]. now destruct (l !! _).
Qed.

Lemma py_getitem_zdiv v i : py_getitem v i <> Raises ZeroDivisionError.
Proof. destruct v; simpl; try discriminate; apply py_index_zdiv. Qed.

Lemma py_float_zdiv v : py_float v <> Raises ZeroDivisionError.
Proof.
  destruct v; simpl; try discriminate.
  - unfold float_of_int. now destruct (is_finite _).
  - now destruct (parse_float s).
Qed.

Lemma column_zdiv i ks : column i ks <> Raises ZeroDivisionError.
Proof.
  unfold column. induction ks as [|k ks IH]; [discriminate|].
  simpl. intros H.
  apply obind_raises in H as [H|(x & _ & H)].
  - unfold fld in H. apply obind_raises in H as [H|(y & _ & H)].
    + exact (py_getitem_zdiv _ _ H).
    + exact (py_float_zdiv _ H).
  - apply obind_raises in H as [H|(ys & _ & H)]; [exact (IH H) | discriminate].
Qed.

Lemma py_min_zdiv xs : py_min xs <> Raises ZeroDivisionError.
Proof. now destruct xs. Qed.

Lemma py_div_zdiv (x y : float) :
  py_div x y = Raises ZeroDivisionError -> feq y zero = true.
Proof. unfold py_div. now destruct (feq y zero). Qed.

Lemma detect_body_zdiv (klines : list pyval) :
  detect_body klines <> Raises ZeroDivisionError.
Proof.
  unfold detect_body. intros H.
  apply obind_raises in H as [H|(vols & _ & H)]; [exact (column_zdiv _ _ H)|].
  apply obind_raises in H as [H|(closes & _ & H)]; [exact (column_zdiv _ _ H)|].
  apply obind_raises in H as [H|(lows & _ & H)]; [exact (column_zdiv _ _ H)|].
  apply obind_raises in H as [H|(avg_vol & _ & H)];
    [apply py_div_zdiv in H; discriminate|].
  apply obind_raises in H as [H|(curr_vol & _ & H)]; [exact (py_index_zdiv _ _ H)|].
  destruct (fle avg_vol zero) eqn:Havg; [discriminate|].
  apply obind_raises in H as [H|(r & _ & H)].
  { apply py_div_zdiv, feq_fle in H. congruence. }
  destruct (flt r VOLUME_SPIKE_MULTIPLIER); [discriminate|].
  apply obind_raises in H as [H|(v_last & _ & H)]; [exact (py_index_zdiv _ _ H)|].
  apply obind_raises in H as [H|(v_prev & _ & H)]; [exact (py_index_zdiv _ _ H)|].
  destruct (negb (flt v_prev v_last)); [discriminate|].
  apply obind_raises in H as [H|(avg_price & _ & H)];
    [apply py_div_zdiv in H; discriminate|].
  apply obind_raises in H as [H|(curr_price & _ & H)]; [exact (py_index_zdiv _ _ H)|].
  destruct (flt _ curr_price); [discriminate|].
  apply obind_raises in H as [H|(low_30 & _ & H)].
  { destruct (30 <=? length lows)%nat; exact (py_min_zdiv _ H). }
  destruct (fle low_30 zero) eqn:Hlow; [discriminate|].
  apply obind_raises in H as [H|(q & _ & H)].
  { apply py_div_zdiv, feq_fle in H. congruence. }
  destruct (flt (float_of_Z 40) _); discriminate.
Qed.

Lemma detect_volume_spike_returns (symbol : string) (klines : list pyval) :
  exists r, detect_volume_spike symbol klines = Returns r.
Proof.
  unfold detect_volume_spike.
  destruct (_ || _); [eauto|].
  destruct (detect_body klines); simpl; eauto.
Qed.

(** ** The detector on a canonical series *)

(** The quantities of the four rules as the code computes them, in double
    arithmetic, on the columns of a series. *)
Definition avg_of (n : nat) (xs : list float) : float :=
  fdiv (py_sum (window n xs)) (float_of_Z (Z.of_nat n)).

Definition ratio_of (vols : list float) : float :=
  fdiv (from_end 0 vols) (avg_of 20 vols).

Definition low_of (lows : list float) : float :=
  match py_min (last_n 30 lows) with
  | Returns m => m
  | Raises _ => zero
  end.

Definition pct_of (closes lows : list float) : float :=
  fmul (fdiv (fsub (from_end 0 closes) (low_of lows)) (low_of lows))
       (float_of_Z 100).

(** The six tests of the body, in the code's order: a series passes when
    none of them rejects it.  A test on a NaN rejects nothing. *)
Definition passes (cs : list candle) : bool :=
  let vols := map c_volume cs in
  let closes := map c_close cs in
  let lows := map c_low cs in
  negb (fle (avg_of 20 vols) zero)
  && negb (flt (ratio_of vols) VOLUME_SPIKE_MULTIPLIER)
  && flt (from_end 1 vols) (from_end 0 vols)
  && negb (flt (fmul (avg_of 10 closes) (nearest (105 # 100))) (from_end 0 closes))
  && negb (fle (low_of lows) zero)
  && negb (flt (float_of_Z 40) (pct_of closes lows)).

(** The signal of a series that passes. *)
Definition signal_of (cs : list candle) : signal :=
  {| ratio := py_round (ratio_of (map c_volume cs)) 2;
     pct_from_low := py_round (pct_of (map c_close cs) (map c_low cs)) 1 |}.

Lemma py_min_last_n (lows : list float) :
  lows <> [] -> py_min (last_n 30 lows) = Returns (low_of lows).
Proof.
  intros Hne. unfold low_of.
  destruct (last_n 30 lows) as [|x xs] eqn:E; [|reflexivity].
  exfalso. unfold last_n in E. apply (f_equal length) in E.
  rewrite length_drop in E. cbn in E.
  destruct lows; [congruence|]. cbn in E. lia.
Qed.

Lemma detect_body_canonical (cs : list candle) :
  (22 <= length cs)%nat ->
  detect_body (map canonical cs)
  = Returns (if passes cs then Some (signal_of cs) else None).
Proof.
  intros Hlen. unfold detect_body, passes, signal_of, ratio_of, pct_of.
  rewrite column_volume, column_close, column_low. cbn [obind].
  set (vols := map c_volume cs).
  set (closes := map c_close cs).
  set (lows := map c_low cs).
  assert (Hlv : length vols = length cs) by apply length_map.
  assert (Hlc : length closes = length cs) by apply length_map.
  assert (Hll : length lows = length cs) by apply length_map.
  rewrite py_slice_volumes by lia.
  change (py_div (py_sum (window 20 vols)) (float_of_Z 20))
    with (Returns (avg_of 20 vols)).
  cbn [obind]. rewrite py_index_last by lia. cbn [obind].
  destruct (fle (avg_of 20 vols) zero) eqn:E1; [reflexivity|].
  rewrite py_div_returns by exact E1. cbn [obind negb andb].
  destruct (flt (fdiv (from_end 0 vols) (avg_of 20 vols)) VOLUME_SPIKE_MULTIPLIER)
    eqn:E2; [reflexivity|].
  rewrite py_index_previous by lia. cbn [obind negb andb].
  destruct (flt (from_end 1 vols) (from_end 0 vols)) eqn:E3; [|reflexivity].
  cbn [negb andb].
  rewrite py_slice_closes by lia.
  change (py_div (py_sum (window 10 closes)) (float_of_Z 10))
    with (Returns (avg_of 10 closes)).
  cbn [obind]. rewrite py_index_last by lia. cbn [obind].
  destruct (flt (fmul (avg_of 10 closes) (nearest (105 # 100))) (from_end 0 closes))
    eqn:E4; [reflexivity|].
  rewrite recent_lows, py_min_last_n.
  2:{ intros Hnil. rewrite Hnil in Hll. cbn in Hll. lia. }
  cbn [obind negb andb].
  destruct (fle (low_of lows) zero) eqn:E5; [reflexivity|].
  rewrite py_div_returns by exact E5. cbn [obind negb andb].
  now destruct (flt (float_of_Z 40) _).
Qed.

Lemma detect_canonical (symbol : string) (cs : list candle) :
  (22 <= length cs)%nat ->
  detect_volume_spike symbol (map canonical cs)
  = Returns (if passes cs then Some (signal_of cs) else None).
Proof.
  intros Hlen. unfold detect_volume_spike.
  replace (negb (truthy_list (map canonical cs))
           || (length (map canonical cs) <? 22)%nat) with false.
  2:{ symmetry. apply orb_false_iff. split.
      - unfold truthy_list. rewrite length_map.
        destruct (length cs); [lia | reflexivity].
      - apply Nat.ltb_ge. rewrite length_map. exact Hlen. }
  now rewrite detect_body_canonical.
Qed.

(** C3. When the mean volume of the 20 bars before the current one, as
    the code computes it in double arithmetic, is zero or negative, the
    body of the detector returns [None] at its guard: it returns rather
    than raises, so the ratio was not computed.  And on any list of rows
    whatever, the body never raises [ZeroDivisionError] and the detector
    returns a value rather than an exception. *)
Theorem detect_guards_ratio_division (symbol : string) :
  (forall cs : list candle,
      (22 <= length cs)%nat ->
      fle (avg_of 20 (map c_volume cs)) zero = true ->
      detect_body (map canonical cs) = Returns None
      /\ detect_volume_spike symbol (map canonical cs) = Returns None)
  /\ (forall klines : list pyval,
        detect_body klines <> Raises ZeroDivisionError
        /\ exists r, detect_volume_spike symbol klines = Returns r).
Proof.
  split.
  - intros cs Hlen Havg.
    assert (Hp : passes cs = false) by (unfold passes; now rewrite Havg).
    split.
    + now rewrite detect_body_canonical, Hp.
    + now rewrite detect_canonical, Hp.
  - intros klines. split.
    + apply detect_body_zdiv.
    + apply detect_volume_spike_returns.
Qed.

(** ** Rounding to decimals *)



(** ** Division by half of the dividend *)








(** ** The claims read in exact arithmetic *)

(** The mean of the [n] values before the last one, of the rationals the
    floats stand for. *)
Definition exact_mean (n : nat) (xs : list float) : Q :=
  (foldr Qplus 0 (map exact (window n xs)) / inject_Z (Z.of_nat n))%Q.

(** The percentage by which the last close stands above [low]. *)
Definition exact_pct (closes : list float) (low : Q) : Q :=
  ((exact (from_end 0 closes) - low) / low * 100)%Q.


(** The claim of the guard, with the mean of the rationals. *)
Definition guard_claim
    (detect : list pyval -> outcome (option signal)) (cs : list candle) : Prop :=
  (22 <= length cs)%nat ->
  (exact_mean 20 (map c_volume cs) <= 0)%Q ->
  detect (map canonical cs) = Returns None.

(** ** More on the detector *)


Lemma py_round_nan (x : float) (ndigits : nat) :
  is_nan x = true -> is_nan (py_round x ndigits) = true.
Proof. destruct x; try discriminate. reflexivity. Qed.

(** X2. A mean volume that is not a number passes both tests of the first
    rule: on a canonical series of at least 22 candles whose computed
    20-bar mean volume is NaN and which the tests of the other three rules
    let through, the detector returns a signal, and the ratio of that
    signal is NaN. *)
Theorem detect_nan_mean_signal (symbol : string) (cs : list candle) :
  (22 <= length cs)%nat ->
  is_nan (avg_of 20 (map c_volume cs)) = true ->
  flt (from_end 1 (map c_volume cs)) (from_end 0 (map c_volume cs)) = true ->
  flt (fmul (avg_of 10 (map c_close cs)) (nearest (105 # 100)))
      (from_end 0 (map c_close cs)) = false ->
  fle (low_of (map c_low cs)) zero = false ->
  flt (float_of_Z 40) (pct_of (map c_close cs) (map c_low cs)) = false ->
  exists s : signal,
    detect_volume_spike symbol (map canonical cs) = Returns (Some s)
    /\ is_nan (ratio s) = true
    /\ pct_from_low s = py_round (pct_of (map c_close cs) (map c_low cs)) 1.
Proof.
  intros Hlen Hnan Hrise Hprice Hlow Hpct.
  assert (Havg : avg_of 20 (map c_volume cs) = S754_nan)
    by (destruct (avg_of 20 (map c_volume cs)); try discriminate; reflexivity).
  assert (Hratio : ratio_of (map c_volume cs) = S754_nan).
  { unfold ratio_of. rewrite Havg.
    now destruct (from_end 0 (map c_volume cs)). }
  assert (Hpass : passes cs = true).
  { unfold passes. rewrite Hratio, Havg, Hrise, Hprice, Hlow, Hpct.
    reflexivity. }
  exists (signal_of cs). rewrite detect_canonical, Hpass by exact Hlen.
  split; [reflexivity|]. unfold signal_of. cbn [ratio pct_from_low].
  rewrite Hratio. split; reflexivity.
Qed.

Lemma obind_returns {A B} (m : outcome A) (f : A -> outcome B) (b : B) :
  obind m f = Returns b -> exists a, m = Returns a /\ f a = Returns b.
Proof. destruct m as [a|e]; cbn; [eauto | discriminate]. Qed.

Lemma comprehension_raises {A B} (f : A -> outcome B) (xs : list A) :
  (exists x e, x ∈ xs /\ f x = Raises e) ->
  exists e, comprehension f xs = Raises e.
Proof.
  intros (x & e & Hin & Hx). induction xs as [|y xs IH].
  - now apply elem_of_nil in Hin.
  - cbn. destruct (f y) as [b|e'] eqn:Ey; cbn; [|eauto].
    apply elem_of_cons in Hin as [->|Hin]; [congruence|].
    destruct (IH Hin) as (e'' & ->). cbn. eauto.
Qed.

(** X3. One row whose volume, close or low cannot be read as a number (a
    row that is too short or not a list, a field that is no numeral)
    silences the detector for the whole series: the result is [None], not
    an exception. *)
Theorem detect_unreadable_row_absent (symbol : string) (klines : list pyval)
    (k : pyval) (i : Z) (e : exn) :
  k ∈ klines ->
  (i = 3 \/ i = 4 \/ i = 5)%Z ->
  fld k i = Raises e ->
  detect_volume_spike symbol klines = Returns None.
Proof.
  intros Hin Hi Hk. unfold detect_volume_spike.
  destruct (_ || _); [reflexivity|].
  assert (Hcol : exists e', column i klines = Raises e').
  { apply comprehension_raises. eauto. }
  destruct Hcol as (e' & Hcol).
  assert (Hbody : exists e'', detect_body klines = Raises e'').
  { unfold detect_body.
    destruct (column 5 klines) as [vols|] eqn:E5; cbn [obind]; [|eauto].
    destruct (column 4 klines) as [closes|] eqn:E4; cbn [obind]; [|eauto].
    destruct (column 3 klines) as [lows|] eqn:E3; cbn [obind]; [|eauto].
    destruct Hi as [->|[->| ->]]; congruence. }
  destruct Hbody as (e'' & ->). reflexivity.
Qed.


(** ** Computations that leave the globals alone *)

(** Requests and printed lines, as opposed to writes to the cooldown
    dictionary and hand-offs to Telegram. *)
Definition quiet_event (ev : event) : Prop :=
  match ev with
  | Requested _ | Printed _ => True
  | CooldownSet _ _ | Handed _ => False
  end.

(** [m] neither reads nor writes the globals, and logs quiet events only. *)
Definition benign {A} (m : M A) : Prop :=
  exists l o, Forall quiet_event l /\ forall g, m g = (l, o, g).

Lemma benign_mret {A} (a : A) : benign (mret a).
Proof. exists [], (Returns a). split; [constructor | reflexivity]. Qed.

Lemma benign_lift {A} (o : outcome A) : benign (lift o).
Proof. exists [], o. split; [constructor | reflexivity]. Qed.

Lemma benign_print (m : message) : benign (print m).
Proof.
  exists [Printed m], (Returns tt).
  split; [repeat constructor | reflexivity].
Qed.

Lemma benign_requests_get (w : world) (e : endpoint) : benign (requests_get w e).
Proof.
  unfold requests_get, mbind, tell, lift, mret.
  destruct (net w e) as [|ok body].
  - exists [Requested e], (Raises RequestException).
    split; [repeat constructor | reflexivity].
  - exists [Requested e], (Returns (ok, body)).
    split; [repeat constructor | reflexivity].
Qed.

Lemma benign_mbind {A B} (m : M A) (f : A -> M B) :
  benign m -> (forall a, benign (f a)) -> benign (mbind m f).
Proof.
  intros (l & o & Hl & Hm) Hf. unfold mbind.
  destruct o as [a|e].
  - destruct (Hf a) as (l' & o' & Hl' & Hfa).
    exists (l ++ l'), o'. split; [now apply Forall_app|].
    intros g. now rewrite Hm, Hfa.
  - exists l, (Raises e). split; [exact Hl|].
    intros g. now rewrite Hm.
Qed.

Lemma benign_mtry {A} (m : M A) (h : exn -> M A) :
  benign m -> (forall e, benign (h e)) -> benign (mtry m h).
Proof.
  intros (l & o & Hl & Hm) Hh. unfold mtry.
  destruct o as [a|e].
  - exists l, (Returns a). split; [exact Hl|].
    intros g. now rewrite Hm.
  - destruct (Hh e) as (l' & o' & Hl' & Hhe).
    exists (l ++ l'), o'. split; [now apply Forall_app|].
    intros g. now rewrite Hm, Hhe.
Qed.

Create HintDb benign.
#[local] Hint Resolve benign_mret benign_lift benign_print benign_requests_get
  : benign.

Ltac benign :=
  repeat first
    [ progress auto with benign
    | apply benign_mbind; [|intros ?]
    | apply benign_mtry; [|intros ?]
    | match goal with
      | |- benign (if ?b then _ else _) => destruct b
      | |- benign (match ?x with _ => _ end) => destruct x
      end ].

Lemma benign_scan_leg w a row tag sym : benign (scan_leg w a row tag sym).
Proof. unfold scan_leg. benign. Qed.

Lemma benign_salvaging_adapter w a row sym : benign (salvaging_adapter w a row sym).
Proof. unfold salvaging_adapter. benign. Qed.

Lemma benign_strict_adapter w a sym : benign (strict_adapter w a sym).
Proof. unfold strict_adapter. benign. Qed.

Lemma benign_fetch_one_crypto w sym : benign (fetch_one_crypto w sym).
Proof.
  unfold fetch_one_crypto.
  pose proof benign_salvaging_adapter. pose proof benign_strict_adapter.
  benign.
Qed.



(** ** One symbol, and the sweep over the universe *)

(** The alerts among the results of a sweep. *)
Definition positives (results : list (option alert)) : list alert :=
  omap id results.

(** What the sweep of a scan returns: check_coin on every monitored symbol. *)
Definition scan_results (w : world) (now : Q) (g : globals)
  : list (option alert) :=
  match mmap (check_coin w now) (MONITOR_COINS g) g with
  | (_, Returns results, _) => results
  | (_, Raises _, _) => []
  end.

(** The dictionary after stamping the symbols of [alerts] with [now]. *)
Definition stamp_all (now : Q) (alerts : list alert) (last : gmap string Q)
  : gmap string Q :=
  foldl (fun m a => record m (a_sym a) now) last alerts.

Definition with_last (g : globals) (last : gmap string Q) : globals :=
  {| _last_alert_time := last;
     MONITOR_COINS := MONITOR_COINS g;
     TELEGRAM_BOT_TOKEN := TELEGRAM_BOT_TOKEN g;
     TELEGRAM_CHAT_ID := TELEGRAM_CHAT_ID g |}.

Lemma with_last_same (g : globals) : with_last g (_last_alert_time g) = g.
Proof. now destruct g. Qed.

Lemma requests_get_ext (w w' : world) (e : endpoint) :
  net w e = net w' e -> requests_get w e = requests_get w' e.
Proof. intros H. unfold requests_get. now rewrite H. Qed.

Lemma check_coin_try_ext (w w' : world) (sym : string) :
  (forall a s, net w (ScanCandles a s) = net w' (ScanCandles a s)) ->
  check_coin_try w sym = check_coin_try w' sym.
Proof.
  intros H. unfold check_coin_try, scan_leg.
  now rewrite !(requests_get_ext w w' (ScanCandles _ sym)) by apply H.
Qed.

Lemma benign_check_coin_try w sym : benign (check_coin_try w sym).
Proof.
  unfold check_coin_try. pose proof benign_scan_leg. benign.
Qed.

(** check_coin returns, whatever the network answers; it leaves the
    globals as they are, and it reads only the candle endpoints and the
    cooldown dictionary. *)
Lemma check_coin_frame (w w' : world) (now : Q) (sym : string) (g g' : globals) :
  (forall a s, net w (ScanCandles a s) = net w' (ScanCandles a s)) ->
  _last_alert_time g = _last_alert_time g' ->
  exists l r,
    Forall quiet_event l
    /\ check_coin w now sym g = (l, Returns r, g)
    /\ check_coin w' now sym g' = (l, Returns r, g').
Proof.
  intros Hnet Hlast. unfold check_coin, mbind, read_globals. cbn.
  rewrite <- Hlast, <- (check_coin_try_ext w w' sym Hnet).
  destruct (should_skip (_last_alert_time g) sym now).
  - exists [], None. split; [constructor | split; reflexivity].
  - destruct (benign_check_coin_try w sym) as (l & o & Hl & Hm).
    unfold mtry. rewrite !Hm.
    destruct o as [r|e].
    + exists l, r. split; [exact Hl | split; reflexivity].
    + exists (l ++ [Printed (MsgCoinError sym e)]), None.
      split; [|split; reflexivity].
      apply Forall_app. split; [exact Hl | repeat constructor].
Qed.

Lemma check_coin_returns (w : world) (now : Q) (sym : string) (g : globals) :
  exists l r, Forall quiet_event l /\ check_coin w now sym g = (l, Returns r, g).
Proof.
  destruct (check_coin_frame w w now sym g g) as (l & r & Hl & H & _); eauto.
Qed.

Lemma sweep_frame (w w' : world) (now : Q) (coins : list string) (g g' : globals) :
  (forall a s, net w (ScanCandles a s) = net w' (ScanCandles a s)) ->
  _last_alert_time g = _last_alert_time g' ->
  exists l results,
    Forall quiet_event l
    /\ mmap (check_coin w now) coins g = (l, Returns results, g)
    /\ mmap (check_coin w' now) coins g' = (l, Returns results, g').
Proof.
  intros Hnet Hlast. induction coins as [|sym coins IH].
  - exists [], []. split; [constructor | split; reflexivity].
  - destruct (check_coin_frame w w' now sym g g' Hnet Hlast)
      as (l & r & Hl & H1 & H2).
    destruct IH as (l' & rs & Hl' & H1' & H2').
    exists (l ++ l'), (r :: rs). split; [now apply Forall_app|].
    cbn [mmap]. unfold mbind. rewrite H1, H2, H1', H2'.
    split; cbn; now rewrite app_nil_r.
Qed.

(** The loop over the results stamps the symbol of every alert, in order,
    and gathers the alerts. *)
Lemma collect_alerts_run (now : Q) (results : list (option alert))
    (alerts : list alert) (g : globals) :
  collect_alerts now results alerts g
  = (map (fun a => CooldownSet (a_sym a) now) (positives results),
     Returns (alerts ++ positives results),
     with_last g (stamp_all now (positives results) (_last_alert_time g))).
Proof.
  revert alerts g. induction results as [|[a|] results IH]; intros alerts g.
  - cbn. now rewrite app_nil_r, with_last_same.
  - cbn [collect_alerts]. unfold mbind, set_cooldown. rewrite IH.
    cbn. now rewrite <- app_assoc.
  - cbn [collect_alerts]. now rewrite IH.
Qed.

Lemma lookup_stamp_all (now : Q) (alerts : list alert) (last : gmap string Q)
    (sym : string) :
  stamp_all now alerts last !! sym
  = if bool_decide (sym ∈ map a_sym alerts) then Some now else last !! sym.
Proof.
  unfold stamp_all. revert last.
  induction alerts as [|a alerts IH]; intros last; [reflexivity|].
  cbn [foldl map]. rewrite IH. unfold record.
  destruct (decide (sym = a_sym a)) as [->|Hne].
  - rewrite lookup_insert_eq.
    rewrite (bool_decide_eq_true_2 (a_sym a ∈ a_sym a :: map a_sym alerts))
      by apply list_elem_of_here.
    now destruct (bool_decide _).
  - rewrite lookup_insert_ne by congruence.
    destruct (bool_decide (sym ∈ map a_sym alerts)) eqn:E.
    + apply bool_decide_eq_true in E.
      now rewrite bool_decide_eq_true_2 by now apply list_elem_of_further.
    + apply bool_decide_eq_false in E.
      rewrite bool_decide_eq_false_2; [reflexivity|].
      rewrite elem_of_cons. tauto.
Qed.

(** send_telegram is the hand-off followed by quiet events; it returns,
    delivered or not, and leaves the globals as they are. *)
Lemma send_telegram_run (w : world) (batch : list alert) (g : globals) :
  exists l delivered,
    Forall quiet_event l
    /\ send_telegram w batch g = (Handed batch :: l, Returns delivered, g).
Proof.
  unfold send_telegram, mbind at 1 2, tell, read_globals. cbn.
  destruct (_ || _).
  - exists [Printed MsgTelegramNotConfigured], false.
    split; [repeat constructor | reflexivity].
  - unfold mtry, mbind, requests_get, tell, lift, mret, print.
    destruct (net w TelegramSend) as [|[|] body]; cbn.
    + exists [Requested TelegramSend; Printed (MsgTelegramException RequestException)], false.
      split; [repeat constructor | reflexivity].
    + exists [Requested TelegramSend; Printed MsgTelegramSentOK], true.
      split; [repeat constructor | reflexivity].
    + exists [Requested TelegramSend; Printed MsgTelegramError], false.
      split; [repeat constructor | reflexivity].
Qed.

(** The whole scan in one equation. *)
Lemma run_monitor_scan_run (w : world) (now : Q) (g : globals) :
  let alerts := positives (scan_results w now g) in
  exists l_sweep l_send,
    Forall quiet_event l_sweep
    /\ Forall quiet_event l_send
    /\ run_monitor_scan w now g
       = (Printed (MsgScanStart (length (MONITOR_COINS g)))
            :: l_sweep
            ++ map (fun a => CooldownSet (a_sym a) now) alerts
            ++ (if truthy_list alerts
                then Handed (py_slice_to (sort_desc alerts) 10) :: l_send
                else l_send),
          Returns tt,
          with_last g (stamp_all now alerts (_last_alert_time g))).
Proof.
  intros alerts. subst alerts. unfold scan_results.
  destruct (sweep_frame w w now (MONITOR_COINS g) g g)
    as (l & results & Hl & Hsweep & _); [reflexivity.. |].
  rewrite Hsweep.
  unfold run_monitor_scan, mbind at 1 2 3, read_globals, print, tell.
  cbn. rewrite Hsweep. unfold mbind. rewrite collect_alerts_run. cbn [app].
  set (g' := with_last g _).
  destruct (truthy_list (positives results)).
  - destruct (send_telegram_run w (py_slice_to (sort_desc (positives results)) 10) g')
      as (l' & d & Hl' & ->).
    exists l, (l' ++ [Printed (MsgScanSent (map a_sym (sort_desc (positives results))))]).
    split; [exact Hl|]. split.
    + apply Forall_app. split; [exact Hl' | repeat constructor].
    + reflexivity.
  - exists l, [Printed MsgScanNoSpikes].
    split; [exact Hl|]. split; [repeat constructor|].
    reflexivity.
Qed.



(** ** The order of floats *)

Lemma flt_fle (x y : float) : flt x y = true -> fle x y = true.
Proof.
  unfold flt, fle, SFltb, SFleb.
  now destruct (SFcompare x y) as [[| |]|].
Qed.

Lemma fle_not_nan (x y : float) :
  fle x y = true -> is_nan x = false /\ is_nan y = false.
Proof. destruct x, y; try discriminate; now split. Qed.

Ltac order_cases :=
  repeat match goal with
    | |- context [Pos.compare_cont Eq ?a ?b] =>
        change (Pos.compare_cont Eq a b) with (Pos.compare a b)
    | H : context [Pos.compare_cont Eq ?a ?b] |- _ =>
        change (Pos.compare_cont Eq a b) with (Pos.compare a b) in H
    end;
  repeat match goal with
    | |- context [Z.compare ?a ?b] =>
        destruct (Z.compare_spec a b); try lia; subst
    | |- context [Pos.compare ?a ?b] =>
        destruct (Pos.compare_spec a b); try lia; subst
    | H : context [Z.compare ?a ?b] |- _ =>
        destruct (Z.compare_spec a b); try lia; subst
    | H : context [Pos.compare ?a ?b] |- _ =>
        destruct (Pos.compare_spec a b); try lia; subst
    end;
  cbn in *; try discriminate; try reflexivity; try lia.

(** Of two floats neither of which is NaN, one is at most the other. *)
Lemma fle_total (x y : float) :
  is_nan x = false -> is_nan y = false ->
  flt x y = false -> fle y x = true.
Proof.
  unfold flt, fle, SFltb, SFleb, SFcompare.
  destruct x as [sx|sx| |sx mx ex], y as [sy|sy| |sy my ey];
    try discriminate; intros _ _;
    try destruct sx; try destruct sy; cbn; try discriminate; try reflexivity;
    order_cases.
Qed.

Lemma fle_trans (x y z : float) :
  fle x y = true -> fle y z = true -> fle x z = true.
Proof.
  unfold fle, SFleb, SFcompare.
  destruct x as [sx|sx| |sx mx ex], y as [sy|sy| |sy my ey],
           z as [sz|sz| |sz mz ez];
    try discriminate; try reflexivity;
    try destruct sx; try destruct sy; try destruct sz;
    cbn; try discriminate; try reflexivity;
    intros H1 H2; order_cases.
Qed.

(** ** The order of the batch *)

(** [a] may stand before [b] in a list sorted by ratio, largest first. *)
Definition ratio_desc (a b : alert) : Prop := fle (a_spike b) (a_spike a) = true.

(** No ratio of the list is NaN. *)
Definition ordered_keys (l : list alert) : Prop :=
  Forall (fun a => is_nan (a_spike a) = false) l.

Lemma insert_desc_perm (x : alert) (l : list alert) :
  insert_desc x l ≡ₚ x :: l.
Proof.
  induction l as [|y l IH]; [reflexivity|].
  cbn [insert_desc]. destruct (flt (a_spike x) (a_spike y)).
  - rewrite IH. apply perm_swap.
  - reflexivity.
Qed.

Lemma stable_desc_perm (l : list alert) : stable_desc l ≡ₚ l.
Proof.
  induction l as [|x l IH]; [reflexivity|].
  cbn. rewrite insert_desc_perm. now rewrite IH.
Qed.

Lemma insert_desc_sorted (x : alert) (l : list alert) :
  is_nan (a_spike x) = false -> ordered_keys l ->
  StronglySorted ratio_desc l -> StronglySorted ratio_desc (insert_desc x l).
Proof.
  intros Hx Hl Hs. induction Hs as [|y l Hs IH Hy]; cbn [insert_desc].
  - repeat constructor.
  - apply Forall_cons in Hl as [Hyn Hl].
    destruct (flt (a_spike x) (a_spike y)) eqn:E.
    + constructor; [now apply IH|].
      apply Forall_forall. intros z Hz.
      rewrite insert_desc_perm in Hz.
      apply elem_of_cons in Hz as [->|Hz].
      * unfold ratio_desc. now apply flt_fle.
      * rewrite Forall_forall in Hy. now apply Hy.
    + apply fle_total in E; [|assumption..]. constructor.
      * now constructor.
      * constructor; [exact E|].
        eapply Forall_impl; [exact Hy|].
        intros z Hz. unfold ratio_desc in *.
        now apply fle_trans with (a_spike y).
Qed.

Lemma ordered_keys_perm (l k : list alert) :
  l ≡ₚ k -> ordered_keys l -> ordered_keys k.
Proof. intros Hp. unfold ordered_keys. now rewrite Hp. Qed.

Lemma stable_desc_sorted (l : list alert) :
  ordered_keys l -> StronglySorted ratio_desc (stable_desc l).
Proof.
  induction l as [|x l IH]; intros Hl; cbn; [constructor|].
  apply Forall_cons in Hl as [Hx Hl].
  apply insert_desc_sorted; [exact Hx| |now apply IH].
  apply (ordered_keys_perm l); [symmetry; apply stable_desc_perm | exact Hl].
Qed.

(** What [list.sort] does to keys that are ordered. *)
Lemma sort_desc_sorted (l : list alert) :
  ordered_keys l -> StronglySorted ratio_desc (sort_desc l).
Proof. intros Hl. rewrite sort_desc_stable by exact Hl. now apply stable_desc_sorted. Qed.

(** With a NaN among the ratios of two or more alerts, no arrangement of
    them is descending. *)
Lemma nan_not_sorted (l : list alert) (a : alert) :
  a ∈ l -> is_nan (a_spike a) = true -> (2 <= length l)%nat ->
  ~ StronglySorted ratio_desc l.
Proof.
  intros Hin Hnan Hlen Hs.
  assert (Hno : forall b, ~ ratio_desc a b /\ ~ ratio_desc b a).
  { intros b. unfold ratio_desc.
    split; intros H; apply fle_not_nan in H as [H1 H2]; congruence. }
  induction Hs as [|x l Hs IH Hx].
  - now apply elem_of_nil in Hin.
  - rewrite Forall_forall in Hx.
    apply elem_of_cons in Hin as [->|Hin].
    + destruct l as [|b l]; [cbn in Hlen; lia|].
      apply (proj1 (Hno b)), Hx. left.
    + exact (proj2 (Hno x) (Hx a Hin)).
Qed.

(** A prefix of a sorted list is sorted and dominates what it leaves out. *)
Lemma sorted_take_drop (n : nat) (l : list alert) :
  StronglySorted ratio_desc l ->
  StronglySorted ratio_desc (take n l)
  /\ forall a b, a ∈ take n l -> b ∈ drop n l -> ratio_desc a b.
Proof.
  intros Hs. revert n. induction Hs as [|x l Hs IH Hx]; intros n.
  - rewrite take_nil. split; [constructor|].
    intros a b Ha. now apply elem_of_nil in Ha.
  - destruct n as [|n]; cbn [take drop].
    + split; [constructor|]. intros a b Ha. now apply elem_of_nil in Ha.
    + destruct (IH n) as [Ht Hd]. split.
      * constructor; [exact Ht|].
        rewrite Forall_forall in Hx. apply Forall_forall.
        intros z Hz. apply Hx. exact (subseteq_take n l z Hz).
      * intros a b Ha Hb. apply elem_of_cons in Ha as [->|Ha].
        -- rewrite Forall_forall in Hx. apply Hx.
           exact (subseteq_drop n l b Hb).
        -- now apply Hd.
Qed.

(** The hand-off of a scan, read from its log. *)
Lemma handed_batch (w : world) (now : Q) (g : globals) (batch : list alert) :
  Handed batch ∈ (run_monitor_scan w now g).1.1 ->
  let alerts := positives (scan_results w now g) in
  alerts <> [] /\ batch = py_slice_to (sort_desc alerts) 10.
Proof.
  intros Hin alerts.
  destruct (run_monitor_scan_run w now g) as (l1 & l2 & Hl1 & Hl2 & Hrun).
  fold alerts in Hrun. rewrite Hrun in Hin. cbn [fst] in Hin.
  assert (Hquiet : forall l, Forall quiet_event l -> Handed batch ∈ l -> False).
  { intros l Hl Hb. rewrite Forall_forall in Hl. exact (Hl _ Hb). }
  apply elem_of_cons in Hin as [Hin|Hin]; [discriminate|].
  apply elem_of_app in Hin as [Hin|Hin]; [now destruct (Hquiet _ Hl1)|].
  apply elem_of_app in Hin as [Hin|Hin].
  { apply list_elem_of_fmap in Hin as (a & Ha & _). discriminate. }
  destruct alerts as [|a alerts'] eqn:E; cbn [truthy_list length Nat.eqb negb] in Hin.
  - now destruct (Hquiet _ Hl2).
  - split; [discriminate|].
    apply elem_of_cons in Hin as [Hin|Hin]; [congruence|].
    now destruct (Hquiet _ Hl2).
Qed.

(** When no ratio of a scan is NaN, the batch handed to Telegram is sorted
    by ratio, largest first, holds at most 10 alerts, and is a top part of
    the scan's alerts: together with the alerts left out it makes up all
    of them, and no alert left out has a larger ratio than one in the
    batch. *)
Lemma batch_sorted_top_ten (w : world) (now : Q) (g : globals) (batch : list alert) :
  Handed batch ∈ (run_monitor_scan w now g).1.1 ->
  ordered_keys (positives (scan_results w now g)) ->
  StronglySorted ratio_desc batch
  /\ (length batch <= 10)%nat
  /\ exists rest,
       batch ++ rest ≡ₚ positives (scan_results w now g)
       /\ forall a b, a ∈ batch -> b ∈ rest -> ratio_desc a b.
Proof.
  intros Hin Hkeys. apply handed_batch in Hin as [_ ->].
  set (alerts := positives _) in *. unfold py_slice_to.
  destruct (sorted_take_drop 10 (sort_desc alerts) (sort_desc_sorted alerts Hkeys))
    as [Hs Hd].
  split; [exact Hs|]. split.
  - rewrite length_take. lia.
  - exists (drop 10 (sort_desc alerts)). split.
    + rewrite take_drop. apply sort_desc_perm.
    + exact Hd.
Qed.

(** Three alerts with the ratios 1.9, 3.2 and 2.1 are listed as 3.2, 2.1,
    1.9. *)
Lemma batch_of_three (a1 a2 a3 : alert) :
  a_spike a1 = nearest (19 # 10) -> a_spike a2 = nearest (32 # 10) ->
  a_spike a3 = nearest (21 # 10) ->
  py_slice_to (sort_desc [a1; a2; a3]) 10 = [a2; a3; a1].
Proof.
  intros H1 H2 H3. rewrite sort_desc_stable.
  - unfold py_slice_to, stable_desc. cbn [foldr insert_desc].
    rewrite H2, H3.
    change (flt (nearest (32 # 10)) (nearest (21 # 10))) with false.
    cbn [insert_desc]. rewrite H1, H2, H3. reflexivity.
  - unfold ordered_keys. rewrite !Forall_cons, H1, H2, H3.
    repeat split; constructor.
Qed.

(** With a NaN among the ratios of two to ten alerts, the batch handed to
    Telegram holds them all and is not in descending order, whatever
    [list.sort] makes of them. *)
Lemma batch_unsorted (w : world) (now : Q) (g : globals) (a : alert) :
  a ∈ positives (scan_results w now g) ->
  is_nan (a_spike a) = true ->
  (2 <= length (positives (scan_results w now g)) <= 10)%nat ->
  exists batch,
    Handed batch ∈ (run_monitor_scan w now g).1.1
    /\ batch ≡ₚ positives (scan_results w now g)
    /\ ~ StronglySorted ratio_desc batch.
Proof.
  intros Hin Hnan Hlen.
  set (alerts := positives (scan_results w now g)) in *.
  assert (Hp : py_slice_to (sort_desc alerts) 10 ≡ₚ alerts).
  { unfold py_slice_to. rewrite take_ge; [apply sort_desc_perm|].
    rewrite (Permutation_length (sort_desc_perm alerts)). lia. }
  exists (py_slice_to (sort_desc alerts) 10). split; [|split].
  - destruct (run_monitor_scan_run w now g) as (l1 & l2 & _ & _ & Hrun).
    fold alerts in Hrun. rewrite Hrun. cbn [fst].
    apply elem_of_cons. right. apply elem_of_app. right.
    apply elem_of_app. right.
    destruct alerts as [|b alerts']; [cbn in Hlen; lia|].
    cbn [truthy_list length Nat.eqb negb]. apply elem_of_cons. now left.
  - exact Hp.
  - apply (nan_not_sorted _ a).
    + now rewrite Hp.
    + exact Hnan.
    + rewrite (Permutation_length Hp). lia.
Qed.

(** ** The cooldown dictionary in a scan *)


(** The reading of "updated only after a batch is actually sent" that asks
    least: a scan that writes to the cooldown dictionary is a scan in which
    the message was posted to Telegram and Telegram accepted it. *)
Definition updated_only_if_sent (w : world) (now : Q) (g : globals) : Prop :=
  (exists sym t, CooldownSet sym t ∈ (run_monitor_scan w now g).1.1) ->
  Requested TelegramSend ∈ (run_monitor_scan w now g).1.1
  /\ exists body, net w TelegramSend = Resp true body.

Lemma quiet_not_cooldown (l : list event) (sym : string) (t : Q) :
  Forall quiet_event l -> CooldownSet sym t ∈ l -> False.
Proof. intros Hl Hin. rewrite Forall_forall in Hl. exact (Hl _ Hin). Qed.

(** C4, as the code has it. In a scan, the cooldown dictionary is written
    only for the symbols of the scan's alerts, with the scan's time, and
    only in a scan that hands the batch of the top 10 alerts to Telegram;
    each write precedes the hand-off, and nothing here depends on what
    Telegram answers.  A symbol without an alert keeps its entry. *)
Theorem cooldown_written_with_handoff (w : world) (now : Q) (g : globals) :
  (forall sym t,
      CooldownSet sym t ∈ (run_monitor_scan w now g).1.1 ->
      t = now
      /\ sym ∈ map a_sym (positives (scan_results w now g))
      /\ exists l1 l2,
           (run_monitor_scan w now g).1.1
           = l1 ++ Handed (py_slice_to (sort_desc (positives (scan_results w now g))) 10)
                :: l2
           /\ CooldownSet sym t ∈ l1)
  /\ (forall sym,
        _last_alert_time (run_monitor_scan w now g).2 !! sym
        <> _last_alert_time g !! sym ->
        sym ∈ map a_sym (positives (scan_results w now g))
        /\ _last_alert_time (run_monitor_scan w now g).2 !! sym = Some now)
  /\ (forall sym,
        sym ∉ map a_sym (positives (scan_results w now g)) ->
        _last_alert_time (run_monitor_scan w now g).2 !! sym
        = _last_alert_time g !! sym).
Proof.
  destruct (run_monitor_scan_run w now g) as (l1 & l2 & Hl1 & Hl2 & Hrun).
  set (alerts := positives (scan_results w now g)) in *.
  rewrite Hrun. cbn [fst snd with_last _last_alert_time].
  assert (Hlook := lookup_stamp_all now alerts (_last_alert_time g)).
  split; [|split].
  - intros sym t Hin.
    apply elem_of_cons in Hin as [Hin|Hin]; [discriminate|].
    apply elem_of_app in Hin as [Hin|Hin];
      [now destruct (quiet_not_cooldown _ _ _ Hl1 Hin)|].
    assert (Hcd : CooldownSet sym t
                  ∈ map (fun a => CooldownSet (a_sym a) now) alerts).
    { apply elem_of_app in Hin as [Hin|Hin]; [exact Hin|].
      destruct (truthy_list alerts).
      - apply elem_of_cons in Hin as [Hin|Hin]; [discriminate|].
        now destruct (quiet_not_cooldown _ _ _ Hl2 Hin).
      - now destruct (quiet_not_cooldown _ _ _ Hl2 Hin). }
    pose proof Hcd as Hcd'.
    apply list_elem_of_fmap in Hcd' as (a & Ha & Hain).
    injection Ha as -> ->.
    split; [reflexivity|]. split.
    { apply list_elem_of_fmap. eauto. }
    destruct alerts as [|a0 alerts']; [now apply elem_of_nil in Hain|].
    cbn [truthy_list length Nat.eqb negb].
    exists (Printed (MsgScanStart (length (MONITOR_COINS g)))
              :: l1 ++ map (fun a => CooldownSet (a_sym a) now) (a0 :: alerts')), l2.
    split.
    + cbn [app]. now rewrite <- app_assoc.
    + apply list_elem_of_further, elem_of_app. now right.
  - intros sym Hne. rewrite Hlook in *.
    destruct (bool_decide (sym ∈ map a_sym alerts)) eqn:E; [|congruence].
    apply bool_decide_eq_true in E. now split.
  - intros sym Hnot. rewrite Hlook.
    now rewrite bool_decide_eq_false_2.
Qed.

(** The answer of Telegram and the credentials, replaced. *)
Definition with_telegram (w : world) (answer : http_result) : world :=
  {| net := fun e => match e with TelegramSend => answer | _ => net w e end |}.

Definition with_credentials (g : globals) (token chat_id : string) : globals :=
  {| _last_alert_time := _last_alert_time g;
     MONITOR_COINS := MONITOR_COINS g;
     TELEGRAM_BOT_TOKEN := token;
     TELEGRAM_CHAT_ID := chat_id |}.

Lemma scan_results_telegram (w : world) (now : Q) (g : globals)
    (answer : http_result) (token chat_id : string) :
  scan_results (with_telegram w answer) now (with_credentials g token chat_id)
  = scan_results w now g.
Proof.
  unfold scan_results.
  destruct (sweep_frame w (with_telegram w answer) now (MONITOR_COINS g)
              g (with_credentials g token chat_id))
    as (l & results & _ & H1 & H2); [reflexivity.. |].
  cbn [with_credentials MONITOR_COINS]. now rewrite H1, H2.
Qed.

(** C10. After a scan every symbol with an alert is stamped with the
    scan's time, whether or not its alert is among the 10 of the message;
    and the dictionary after the scan is the same whatever Telegram
    answers and whatever the credentials are, empty ones included. *)
Theorem cooldown_regardless_of_delivery (w : world) (now : Q) (g : globals)
    (answer : http_result) (token chat_id : string) :
  _last_alert_time
    (run_monitor_scan (with_telegram w answer) now
       (with_credentials g token chat_id)).2
  = _last_alert_time (run_monitor_scan w now g).2
  /\ positives (scan_results (with_telegram w answer) now
                  (with_credentials g token chat_id))
     = positives (scan_results w now g)
  /\ forall a,
       a ∈ positives (scan_results w now g) ->
       _last_alert_time (run_monitor_scan w now g).2 !! a_sym a = Some now.
Proof.
  destruct (run_monitor_scan_run w now g) as (l1 & l2 & _ & _ & Hrun).
  destruct (run_monitor_scan_run (with_telegram w answer) now
              (with_credentials g token chat_id))
    as (l1' & l2' & _ & _ & Hrun').
  rewrite scan_results_telegram in *.
  rewrite Hrun, Hrun'. cbn [snd with_last with_credentials _last_alert_time].
  split; [reflexivity|]. split; [reflexivity|].
  intros a Ha. rewrite lookup_stamp_all.
  rewrite bool_decide_eq_true_2; [reflexivity|].
  apply list_elem_of_fmap. eauto.
Qed.


(** ** The resolver *)

Definition priority : list adapter := [KuCoin; OKX; BinanceSpot; BinanceFutures].

(** The value of ['source'] for each adapter. *)
Definition tag (a : adapter) : string :=
  match a with
  | KuCoin => "kucoin"
  | OKX => "okx"
  | BinanceSpot => "binance_spot"
  | BinanceFutures => "binance_futures"
  end.

(** Where an adapter finds the rows in a payload: under ['data'] for
    KuCoin and OKX, the payload itself for Binance. *)
Definition rows_of (a : adapter) (payload : pyval) : outcome pyval :=
  match a with
  | KuCoin | OKX => py_get payload "data" (VList [])
  | BinanceSpot | BinanceFutures => Returns payload
  end.

(** The adapter's request is answered with an [ok] response whose payload
    holds the list [rows]. *)
Definition answers (w : world) (a : adapter) (sym : string) (rows : list pyval)
  : Prop :=
  exists payload,
    net w (Candles a sym) = Resp true (Some payload)
    /\ rows_of a payload = Returns (VList rows).

(** The canonical series of an answer all of whose rows convert: KuCoin
    and OKX list the newest candle first, Binance the oldest. *)
Definition normalised (a : adapter) (rows : list pyval) : outcome (list pyval) :=
  match a with
  | KuCoin => comprehension kucoin_row (rev rows)
  | OKX => comprehension okx_row (rev rows)
  | BinanceSpot | BinanceFutures => comprehension binance_row rows
  end.

(** One block of fetch_one_crypto. *)
Definition block (w : world) (a : adapter) (sym : string)
  : M (option (list pyval)) :=
  match a with
  | KuCoin => salvaging_adapter w KuCoin kucoin_row sym
  | OKX => salvaging_adapter w OKX okx_row sym
  | BinanceSpot => strict_adapter w BinanceSpot sym
  | BinanceFutures => strict_adapter w BinanceFutures sym
  end.

Lemma comprehension_length {A B} (f : A -> outcome B) (xs : list A) (ys : list B) :
  comprehension f xs = Returns ys -> length ys = length xs.
Proof.
  revert ys. induction xs as [|x xs IH]; intros ys; cbn.
  - now intros [= <-].
  - destruct (f x) as [y|]; cbn; [|discriminate].
    destruct (comprehension f xs) as [ys'|]; cbn; [|discriminate].
    intros [= <-]. cbn. now rewrite (IH ys').
Qed.

Lemma salvage_all (row : pyval -> outcome pyval) (rows klines : list pyval) :
  comprehension row rows = Returns klines -> salvage row rows = klines.
Proof.
  revert klines. induction rows as [|c rows IH]; intros klines; cbn.
  - now intros [= <-].
  - destruct (row c) as [k|]; cbn; [|discriminate].
    destruct (comprehension row rows) as [ks|]; cbn; [|discriminate].
    intros [= <-]. now rewrite (IH ks).
Qed.

Lemma truthy_enough (rows : list pyval) :
  (if truthy (VList rows)
   then obind (py_len (VList rows)) (fun n => Returns (20 <=? n)%nat)
   else Returns false) = Returns (20 <=? length rows)%nat.
Proof. now destruct rows. Qed.

(** An answer of fewer than 20 rows: the block is left without a result,
    without an exception and without a printed line. *)
Lemma block_short (w : world) (a : adapter) (sym : string) (rows : list pyval)
    (g : globals) :
  answers w a sym rows -> (length rows < 20)%nat ->
  block w a sym g = ([Requested (Candles a sym)], Returns None, g).
Proof.
  intros (payload & Hnet & Hrows) Hlen.
  apply Nat.leb_gt in Hlen.
  destruct a; cbn [block rows_of] in *;
    unfold salvaging_adapter, strict_adapter, requests_get, print, mtry, mbind,
      tell, lift, mret;
    rewrite Hnet; cbn [fst snd json obind].
  - rewrite Hrows. cbn [obind]. rewrite truthy_enough, Hlen. reflexivity.
  - rewrite Hrows. cbn [obind]. rewrite truthy_enough, Hlen. reflexivity.
  - injection Hrows as ->. rewrite Hlen. reflexivity.
  - injection Hrows as ->. rewrite Hlen. reflexivity.
Qed.

(** An answer of at least 20 rows that all convert: the block returns the
    canonical series. *)
Lemma block_enough (w : world) (a : adapter) (sym : string)
    (rows klines : list pyval) (g : globals) :
  answers w a sym rows -> (20 <= length rows)%nat ->
  normalised a rows = Returns klines ->
  block w a sym g = ([Requested (Candles a sym)], Returns (Some klines), g).
Proof.
  intros (payload & Hnet & Hrows) Hlen Hnorm.
  assert (Hk : (20 <=? length klines)%nat = true).
  { apply Nat.leb_le.
    destruct a; cbn [normalised] in Hnorm;
      apply comprehension_length in Hnorm; rewrite Hnorm, ?length_rev; lia. }
  apply Nat.leb_le in Hlen.
  destruct a; cbn [block rows_of normalised] in *;
    unfold salvaging_adapter, strict_adapter, requests_get, print, mtry, mbind,
      tell, lift, mret;
    rewrite Hnet; cbn [fst snd json obind].
  - rewrite Hrows. cbn [obind]. rewrite truthy_enough, Hlen.
    cbn [py_reversed]. rewrite (salvage_all _ _ _ Hnorm), Hk. reflexivity.
  - rewrite Hrows. cbn [obind]. rewrite truthy_enough, Hlen.
    cbn [py_reversed]. rewrite (salvage_all _ _ _ Hnorm), Hk. reflexivity.
  - injection Hrows as ->. rewrite Hlen, Hnorm. reflexivity.
  - injection Hrows as ->. rewrite Hlen, Hnorm. reflexivity.
Qed.

Lemma fetch_one_crypto_blocks (w : world) (sym : string) :
  fetch_one_crypto w sym
  = (k <~ block w KuCoin sym ;;
     match k with
     | Some ks => mret (sym, crypto ks (tag KuCoin))
     | None =>
     o <~ block w OKX sym ;;
     match o with
     | Some ks => mret (sym, crypto ks (tag OKX))
     | None =>
     b <~ block w BinanceSpot sym ;;
     match b with
     | Some ks => mret (sym, crypto ks (tag BinanceSpot))
     | None =>
     f <~ block w BinanceFutures sym ;;
     match f with
     | Some ks => mret (sym, crypto ks (tag BinanceFutures))
     | None => print (MsgCryptoAllFailed sym) ;;; mret (sym, None)
     end end end end)%M.
Proof. reflexivity. Qed.

(** ** Failures of one exchange *)

Lemma requests_get_run (w : world) (e : endpoint) (g : globals) :
  requests_get w e g
  = ([Requested e],
     match net w e with
     | ConnError => Raises RequestException
     | Resp ok body => Returns (ok, body)
     end, g).
Proof. unfold requests_get, mbind, tell, lift, mret. now destruct (net w e). Qed.

(** A handled block whose handler prints and returns does not raise. *)
Lemma mtry_print_returns {A} (m : M A) (msg : exn -> message) (a : A) :
  benign m ->
  exists l r,
    Forall quiet_event l
    /\ forall g, mtry m (fun e => print (msg e) ;;; mret a)%M g = (l, Returns r, g).
Proof.
  intros (l & o & Hl & Hm). unfold mtry.
  destruct o as [r|e].
  - exists l, r. split; [exact Hl|]. intros g. now rewrite Hm.
  - exists (l ++ [Printed (msg e)]), a. split.
    + apply Forall_app. split; [exact Hl | repeat constructor].
    + intros g. now rewrite Hm.
Qed.

(** No block of fetch_one_crypto raises, so fetch_one_crypto returns,
    whatever the four exchanges answer. *)
Lemma block_returns (w : world) (a : adapter) (sym : string) :
  exists l r,
    Forall quiet_event l /\ forall g, block w a sym g = (l, Returns r, g).
Proof.
  destruct a; cbn [block]; unfold salvaging_adapter, strict_adapter;
    apply (mtry_print_returns _ (MsgCryptoError _ sym) None); benign.
Qed.

Lemma fetch_one_crypto_returns (w : world) (sym : string) (g : globals) :
  exists l r, fetch_one_crypto w sym g = (l, Returns (sym, r), g).
Proof.
  rewrite fetch_one_crypto_blocks. unfold mbind, print, tell, mret.
  destruct (block_returns w KuCoin sym) as (l1 & [k|] & _ & ->); [eauto|].
  destruct (block_returns w OKX sym) as (l2 & [k|] & _ & ->); [eauto|].
  destruct (block_returns w BinanceSpot sym) as (l3 & [k|] & _ & ->); [eauto|].
  destruct (block_returns w BinanceFutures sym) as (l4 & [k|] & _ & ->); eauto.
Qed.

(** In fetch_one_crypto a KuCoin request that raises is printed and OKX is
    asked next. *)
Lemma fetch_one_crypto_after_kucoin_error (w : world) (sym : string) (g : globals) :
  net w (Candles KuCoin sym) = ConnError ->
  exists l r,
    fetch_one_crypto w sym g
    = (Requested (Candles KuCoin sym)
         :: Printed (MsgCryptoError KuCoin sym RequestException)
         :: Requested (Candles OKX sym) :: l,
       Returns (sym, r), g).
Proof.
  intros Hnet.
  assert (Hk : block w KuCoin sym g
               = ([Requested (Candles KuCoin sym);
                   Printed (MsgCryptoError KuCoin sym RequestException)],
                  Returns None, g)).
  { cbn [block]. unfold salvaging_adapter, mtry, mbind at 1.
    rewrite requests_get_run, Hnet. reflexivity. }
  assert (Ho : exists l r, block w OKX sym g
                           = (Requested (Candles OKX sym) :: l, Returns r, g)).
  { cbn [block]. unfold salvaging_adapter.
    match goal with
    | |- context [mtry (mbind _ ?k) ?h] =>
        assert (Hb : forall r, benign (k r)) by (intros r; benign);
        unfold mtry, mbind at 1; rewrite requests_get_run;
        destruct (net w (Candles OKX sym)) as [|ok body];
          [eexists _, _; reflexivity|];
        destruct (Hb (ok, body)) as (l & [r|e] & _ & ->);
          eexists _, _; reflexivity
    end. }
  destruct Ho as (l & o & Ho).
  rewrite fetch_one_crypto_blocks. unfold mbind at 1. rewrite Hk.
  unfold mbind at 1. rewrite Ho.
  destruct o as [ks|]; [eexists _, _; reflexivity|].
  unfold mbind, print, tell, mret.
  destruct (block_returns w BinanceSpot sym) as (l3 & [k|] & _ & ->);
    [eexists _, _; reflexivity|].
  destruct (block_returns w BinanceFutures sym) as (l4 & [k|] & _ & ->);
    eexists _, _; reflexivity.
Qed.

(** In check_coin a KuCoin request that raises ends the check: OKX is not
    asked, whatever it would answer. *)
Lemma check_coin_after_kucoin_error (w : world) (now : Q) (sym : string)
    (g : globals) :
  should_skip (_last_alert_time g) sym now = false ->
  net w (ScanCandles KuCoin sym) = ConnError ->
  check_coin w now sym g
  = ([Requested (ScanCandles KuCoin sym);
      Printed (MsgCoinError sym RequestException)],
     Returns None, g).
Proof.
  intros Hskip Hnet.
  unfold check_coin, mbind at 1, read_globals. rewrite Hskip.
  unfold mtry, check_coin_try, scan_leg, mbind at 1 2.
  rewrite requests_get_run, Hnet. reflexivity.
Qed.

(** Every leg of check_coin begins with its request. *)
Lemma scan_leg_requests (w : world) (a : adapter) (row : pyval -> outcome pyval)
    (tag : string) (sym : string) :
  exists l o,
    Forall quiet_event l
    /\ forall g, scan_leg w a row tag sym g
                 = (Requested (ScanCandles a sym) :: l, o, g).
Proof.
  unfold scan_leg.
  match goal with
  | |- context [mbind _ ?k] =>
      assert (Hb : forall r, benign (k r)) by (intros r; benign)
  end.
  unfold mbind at 1.
  destruct (net w (ScanCandles a sym)) as [|ok body] eqn:Hnet.
  - exists [], (Raises RequestException). split; [constructor|].
    intros g. now rewrite requests_get_run, Hnet.
  - destruct (Hb (ok, body)) as (l & o & Hl & Hk).
    exists l, o. split; [exact Hl|].
    intros g. now rewrite requests_get_run, Hnet, Hk.
Qed.

(** In check_coin a KuCoin answer of fewer than 20 rows is passed over and
    OKX is asked. *)
Lemma check_coin_after_short_kucoin (w : world) (now : Q) (sym : string)
    (g : globals) (data : pyval) (rows : list pyval) :
  should_skip (_last_alert_time g) sym now = false ->
  net w (ScanCandles KuCoin sym) = Resp true (Some data) ->
  py_get data "data" (VList []) = Returns (VList rows) ->
  (length rows < 20)%nat ->
  exists l r,
    check_coin w now sym g
    = (Requested (ScanCandles KuCoin sym) :: Requested (ScanCandles OKX sym) :: l,
       Returns r, g).
Proof.
  intros Hskip Hnet Hdata Hlen.
  assert (Hk : scan_leg w KuCoin kucoin_row "KuCoin" sym g
               = ([Requested (ScanCandles KuCoin sym)], Returns None, g)).
  { unfold scan_leg, mbind at 1. rewrite requests_get_run, Hnet.
    cbn [fst snd json]. unfold mbind, lift, mret. cbn [obind].
    rewrite Hdata. cbn [py_len].
    replace (22 <=? length rows)%nat with false
      by (symmetry; apply Nat.leb_gt; lia).
    reflexivity. }
  destruct (scan_leg_requests w OKX okx_row "OKX" sym) as (l & o & _ & Ho).
  unfold check_coin, mbind at 1, read_globals. rewrite Hskip.
  unfold mtry, check_coin_try, mbind at 1. rewrite Hk, Ho.
  destruct o as [r|e]; eexists _, _; reflexivity.
Qed.


(** C6. When KuCoin, the first adapter, answers with fewer than 20 rows,
    the adapters between it and [a] yield no series, and [a] answers with
    at least 20 rows that all convert, fetch_one_crypto returns the
    canonical series of [a] tagged with [a]'s source; of KuCoin's short
    answer the log holds the request and nothing else, so no trace of it
    reaches the caller.  Any adapter's answer of fewer than 20 rows is
    passed over in this way, and when all four are short the result is
    [None] after all four were asked.  In check_coin too a KuCoin answer of
    fewer than 20 rows is passed over and OKX is asked. *)
Theorem resolver_skips_short_answers (w : world) (sym : string) (g : globals) :
  (forall (middle after : list adapter) (a : adapter)
          (short rows klines : list pyval) (log_of : adapter -> list event),
      priority = KuCoin :: middle ++ a :: after ->
      answers w KuCoin sym short ->
      (length short < 20)%nat ->
      (forall b, b ∈ middle -> block w b sym g = (log_of b, Returns None, g)) ->
      answers w a sym rows ->
      (20 <= length rows)%nat ->
      normalised a rows = Returns klines ->
      fetch_one_crypto w sym g
      = (Requested (Candles KuCoin sym)
           :: concat (map log_of middle) ++ [Requested (Candles a sym)],
         Returns (sym, Some {| klines := klines; type_ := "crypto";
                               source := tag a |}),
         g)
      /\ (20 <= length klines)%nat)
  /\ (forall (b : adapter) (short : list pyval),
        answers w b sym short ->
        (length short < 20)%nat ->
        block w b sym g = ([Requested (Candles b sym)], Returns None, g))
  /\ ((forall b, b ∈ priority ->
                 exists short, answers w b sym short /\ (length short < 20)%nat) ->
      fetch_one_crypto w sym g
      = (map (fun b => Requested (Candles b sym)) priority
           ++ [Printed (MsgCryptoAllFailed sym)],
         Returns (sym, None), g))
  /\ (forall (now : Q) (data : pyval) (short : list pyval),
        should_skip (_last_alert_time g) sym now = false ->
        net w (ScanCandles KuCoin sym) = Resp true (Some data) ->
        py_get data "data" (VList []) = Returns (VList short) ->
        (length short < 20)%nat ->
        exists l r,
          check_coin w now sym g
          = (Requested (ScanCandles KuCoin sym)
               :: Requested (ScanCandles OKX sym) :: l,
             Returns r, g)).
Proof.
  split; [|split; [|split]].
  - intros middle after a short rows klines log_of Hsplit Hshort Hlen Hmiddle
      Hans Hrows Hnorm.
    split.
    2:{ destruct a; cbn [normalised] in Hnorm;
          apply comprehension_length in Hnorm; rewrite Hnorm, ?length_rev; lia. }
    pose proof (block_enough w a sym rows klines g Hans Hrows Hnorm) as Hgood.
    pose proof (block_short w KuCoin sym short g Hshort Hlen) as Hk.
    rewrite fetch_one_crypto_blocks. unfold priority in Hsplit.
    injection Hsplit as Hsplit.
    unfold mbind at 1. rewrite Hk.
    destruct middle as [|b2 middle].
    { injection Hsplit as <- _. unfold mbind. rewrite Hgood. reflexivity. }
    injection Hsplit as <- Hsplit.
    unfold mbind at 1. rewrite (Hmiddle OKX) by apply list_elem_of_here.
    destruct middle as [|b3 middle].
    { injection Hsplit as <- _. unfold mbind. rewrite Hgood.
      cbn. now rewrite app_nil_r. }
    injection Hsplit as <- Hsplit.
    unfold mbind at 1.
    rewrite (Hmiddle BinanceSpot)
      by apply list_elem_of_further, list_elem_of_here.
    destruct middle as [|b4 middle].
    { injection Hsplit as <- _. unfold mbind. rewrite Hgood.
      cbn. now rewrite app_nil_r, <- !app_assoc. }
    injection Hsplit as _ Hsplit. now destruct middle.
  - intros b short Hans Hlen. now apply block_short with short.
  - intros Hall.
    assert (Hs : forall b, b ∈ priority ->
                 block w b sym g = ([Requested (Candles b sym)], Returns None, g)).
    { intros b Hb. destruct (Hall b Hb) as (short & Hans & Hlen).
      now apply block_short with short. }
    rewrite fetch_one_crypto_blocks. unfold mbind, priority in *.
    rewrite (Hs KuCoin) by apply list_elem_of_here.
    rewrite (Hs OKX) by apply list_elem_of_further, list_elem_of_here.
    rewrite (Hs BinanceSpot)
      by apply list_elem_of_further, list_elem_of_further, list_elem_of_here.
    rewrite (Hs BinanceFutures)
      by apply list_elem_of_further, list_elem_of_further,
           list_elem_of_further, list_elem_of_here.
    reflexivity.
  - intros now data short Hskip Hnet Hdata Hlen.
    now apply check_coin_after_short_kucoin with data short.
Qed.


(** ** The universe refresh *)

(** What one loop adds to [coins]: bases that are not excluded, that were
    not in [seen], each once. *)
Lemma collect_bases_adds (x : exchange) (entries : list pyval)
    (seen : gset string) (coins : list string) :
  exists added,
    (collect_bases x entries seen coins).1 = coins ++ added
    /\ NoDup added
    /\ forall c, c ∈ added -> (c ∉ EXCLUDE) /\ (c ∉ seen).
Proof.
  revert seen coins. induction entries as [|s rest IH]; intros seen coins.
  - exists []. cbn. rewrite app_nil_r. split; [reflexivity|].
    split; [constructor|]. intros c Hc. now apply elem_of_nil in Hc.
  - cbn [collect_bases].
    destruct (obind (tradable x s) _) as [[base|]|e].
    + destruct (negb (bool_decide (base ∈ seen))
                && negb (bool_decide (base ∈ EXCLUDE))) eqn:E.
      * apply andb_true_iff in E as [Hseen Hexcl].
        apply negb_true_iff, bool_decide_eq_false in Hseen.
        apply negb_true_iff, bool_decide_eq_false in Hexcl.
        destruct (IH ({[base]} ∪ seen) (coins ++ [base]))
          as (added & Heq & Hnd & Hadded).
        exists (base :: added). split; [|split].
        -- rewrite Heq. now rewrite <- app_assoc.
        -- constructor; [|exact Hnd].
           intros Hin. destruct (Hadded base Hin) as [_ Hns].
           apply Hns, elem_of_union_l, elem_of_singleton. reflexivity.
        -- intros c Hc. apply elem_of_cons in Hc as [->|Hc]; [now split|].
           destruct (Hadded c Hc) as [He Hs]. split; [exact He|].
           intros Hin. now apply Hs, elem_of_union_r.
      * apply IH.
    + apply IH.
    + exists []. cbn. rewrite app_nil_r. split; [reflexivity|].
      split; [constructor|]. intros c Hc. now apply elem_of_nil in Hc.
Qed.

(** A block returns; it extends [coins] by bases that are not excluded,
    and either it replaces the universe by the extended [coins], which is
    then not empty, or it leaves the globals as they are.  The cooldown
    dictionary is never touched. *)
Lemma listing_block_run (w : world) (x : exchange) (coins : list string)
    (g : globals) :
  exists l coins' returned g' added,
    listing_block w x coins g = (l, Returns (coins', returned), g')
    /\ coins' = coins ++ added
    /\ NoDup added
    /\ (forall c, c ∈ added -> c ∉ EXCLUDE)
    /\ _last_alert_time g' = _last_alert_time g
    /\ (if (returned : bool)
        then MONITOR_COINS g' = coins' /\ coins' <> []
        else g' = g).
Proof.
  assert (Hkeep : forall l, exists (l0 : list event) coins' returned g' added,
             (l, Returns (coins, false), g)
             = (l0, Returns (coins', returned), g')
             /\ coins' = coins ++ added /\ NoDup added
             /\ (forall c, c ∈ added -> c ∉ EXCLUDE)
             /\ _last_alert_time g' = _last_alert_time g
             /\ (if (returned : bool)
                 then MONITOR_COINS g' = coins' /\ coins' <> []
                 else g' = g)).
  { intros l. exists l, coins, false, g, []. rewrite app_nil_r.
    repeat split; try reflexivity; [constructor|].
    intros c Hc. now apply elem_of_nil in Hc. }
  unfold listing_block, requests_get, print, set_monitor_coins, mtry, mbind,
    tell, lift, mret.
  destruct (net w (Listing x)) as [|[|] body]; cbn [fst snd]; [apply Hkeep| |apply Hkeep].
  destruct (obind (json body) _) as [entries|e]; [|apply Hkeep].
  destruct (collect_bases_adds x entries ∅ coins) as (added & Heq & Hnd & Hadded).
  destruct (collect_bases x entries ∅ coins) as [coins' [[]|e]];
    cbn [fst] in Heq; subst coins'.
  - destruct (truthy_list (coins ++ added)) eqn:E.
    + eexists _, (coins ++ added), true, _, added. cbn.
      split; [reflexivity|]. split; [reflexivity|]. split; [exact Hnd|].
      split; [intros c Hc; exact (proj1 (Hadded c Hc))|].
      split; [reflexivity|]. split; [reflexivity|].
      intros Hnil. rewrite Hnil in E. discriminate.
    + eexists _, (coins ++ added), false, g, added. cbn.
      split; [reflexivity|]. split; [reflexivity|]. split; [exact Hnd|].
      split; [intros c Hc; exact (proj1 (Hadded c Hc))|].
      split; reflexivity.
  - eexists _, (coins ++ added), false, g, added. cbn.
    split; [reflexivity|]. split; [reflexivity|]. split; [exact Hnd|].
    split; [intros c Hc; exact (proj1 (Hadded c Hc))|].
    split; reflexivity.
Qed.

(** The refresh returns, never leaves a populated universe empty, never
    lets an excluded symbol in, and does not touch the cooldown
    dictionary.  When it replaces the universe, every symbol of the new
    one is outside the exclusion set. *)
Lemma fetch_monitor_coins_run (w : world) (g : globals) :
  exists l g',
    fetch_monitor_coins w g = (l, Returns tt, g')
    /\ _last_alert_time g' = _last_alert_time g
    /\ (MONITOR_COINS g' = MONITOR_COINS g
        \/ (MONITOR_COINS g' <> []
            /\ forall c, c ∈ MONITOR_COINS g' -> c ∉ EXCLUDE)).
Proof.
  unfold fetch_monitor_coins.
  destruct (listing_block_run w BinanceList [] g)
    as (l1 & c1 & r1 & g1 & a1 & H1 & E1 & _ & X1 & L1 & R1).
  unfold mbind at 1. rewrite H1. cbn [fst snd]. cbn [app] in E1. subst c1.
  destruct r1.
  { destruct R1 as [Hm Hne]. eexists _, g1. cbn.
    split; [reflexivity|]. split; [exact L1|]. right.
    rewrite Hm. split; [exact Hne | exact X1]. }
  subst g1.
  destruct (listing_block_run w KuCoinList a1 g)
    as (l2 & c2 & r2 & g2 & a2 & H2 & E2 & _ & X2 & L2 & R2).
  unfold mbind at 1. rewrite H2. cbn [fst snd].
  assert (Xc2 : forall c, c ∈ c2 -> c ∉ EXCLUDE).
  { subst c2. intros c Hc. apply elem_of_app in Hc as [Hc|Hc]; auto. }
  destruct r2.
  { destruct R2 as [Hm Hne]. eexists _, g2. cbn.
    split; [reflexivity|]. split; [exact L2|]. right.
    rewrite Hm. split; [exact Hne | exact Xc2]. }
  subst g2.
  destruct (listing_block_run w OKXList c2 g)
    as (l3 & c3 & r3 & g3 & a3 & H3 & E3 & _ & X3 & L3 & R3).
  unfold mbind at 1. rewrite H3. cbn [fst snd].
  assert (Xc3 : forall c, c ∈ c3 -> c ∉ EXCLUDE).
  { subst c3. intros c Hc. apply elem_of_app in Hc as [Hc|Hc]; auto. }
  destruct r3.
  { destruct R3 as [Hm Hne]. eexists _, g3. cbn.
    split; [reflexivity|]. split; [exact L3|]. right.
    rewrite Hm. split; [exact Hne | exact Xc3]. }
  subst g3. eexists _, g. cbn.
  split; [reflexivity|]. split; [reflexivity|]. now left.
Qed.

(** When Binance's listing is read to its end and holds a tradable base,
    the universe is replaced by a list without duplicates. *)
Lemma fetch_monitor_coins_binance (w : world) (g : globals)
    (data listed : pyval) (entries : list pyval) (coins : list string) :
  net w (Listing BinanceList) = Resp true (Some data) ->
  py_get data "symbols" (VList []) = Returns listed ->
  py_iter listed = Returns entries ->
  collect_bases BinanceList entries ∅ [] = (coins, Returns tt) ->
  coins <> [] ->
  MONITOR_COINS (fetch_monitor_coins w g).2 = coins /\ NoDup coins.
Proof.
  intros Hnet Hlisted Hentries Hloop Hne.
  destruct (collect_bases_adds BinanceList entries ∅ []) as (added & Heq & Hnd & _).
  rewrite Hloop in Heq. cbn in Heq. subst added.
  split; [|exact Hnd].
  unfold fetch_monitor_coins, listing_block, requests_get, print,
    set_monitor_coins, mtry, mbind, tell, lift, mret.
  rewrite Hnet. cbn [fst snd json obind listing_key].
  rewrite Hlisted. cbn [obind]. rewrite Hentries, Hloop.
  destruct coins; [congruence|]. reflexivity.
Qed.


(** ** More on check_coin and the scan *)

(** [m] logs nothing and leaves the globals alone. *)
Definition silent {A} (m : M A) : Prop := exists o, forall g, m g = ([], o, g).

Lemma silent_mret {A} (a : A) : silent (mret a).
Proof. now exists (Returns a). Qed.

Lemma silent_lift {A} (o : outcome A) : silent (lift o).
Proof. now exists o. Qed.

Lemma silent_mbind {A B} (m : M A) (f : A -> M B) :
  silent m -> (forall a, silent (f a)) -> silent (mbind m f).
Proof.
  intros (o & Hm) Hf. unfold mbind. destruct o as [a|e].
  - destruct (Hf a) as (o' & Hfa). exists o'. intros g. now rewrite Hm, Hfa.
  - exists (Raises e). intros g. now rewrite Hm.
Qed.

Ltac silent :=
  repeat first
    [ apply silent_mret
    | apply silent_lift
    | apply silent_mbind; [|intros ?]
    | match goal with
      | |- silent (if ?b then _ else _) => destruct b
      | |- silent (match ?x with _ => _ end) => destruct x
      end ].

(** What a leg of check_coin makes of the answer to its request. *)
Definition leg_outcome (row : pyval -> outcome pyval) (tag sym : string)
    (r : bool * option pyval) : outcome (option alert) :=
  if fst r then
    (data <~ (j <~ json (snd r) ;; py_get j "data" (VList [])) ;;
     n <~ py_len data ;;
     if (22 <=? n)%nat then
       klines <~ (rows <~ py_reversed data ;; comprehension row rows) ;;
       spike <~ detect_volume_spike sym klines ;;
       match spike with
       | Some s =>
           price <~ (last <~ py_index klines (-1) ;; py_getitem last 4) ;;
           Returns (Some {| a_sym := sym; a_spike := ratio s;
                            a_pct_from_low := pct_from_low s;
                            a_price := price; a_source := tag |})
       | None => Returns None
       end
     else Returns None)%py
  else Returns None.

(** A leg of check_coin logs its request and nothing else, and leaves the
    globals alone. *)
Lemma scan_leg_pure (w : world) (a : adapter) (row : pyval -> outcome pyval)
    (tag : string) (sym : string) (g : globals) :
  scan_leg w a row tag sym g
  = ([Requested (ScanCandles a sym)],
     match net w (ScanCandles a sym) with
     | ConnError => Raises RequestException
     | Resp ok body => leg_outcome row tag sym (ok, body)
     end, g).
Proof.
  unfold scan_leg, leg_outcome, requests_get, mbind, tell, lift, mret.
  destruct (net w (ScanCandles a sym)) as [|[|] body];
    cbn [fst snd obind app]; try reflexivity.
  destruct (json body) as [j|]; cbn [obind]; [|reflexivity].
  destruct (py_get j "data" (VList [])) as [data|]; cbn [obind]; [|reflexivity].
  destruct (py_len data) as [n|]; cbn [obind]; [|reflexivity].
  destruct (22 <=? n)%nat; cbn [obind app]; [|reflexivity].
  destruct (py_reversed data) as [rows|]; cbn [obind]; [|reflexivity].
  destruct (comprehension row rows) as [klines|]; cbn [obind]; [|reflexivity].
  destruct (detect_volume_spike sym klines) as [[s|]|];
    cbn [obind app]; try reflexivity.
  destruct (py_index klines (-1)) as [last|]; cbn [obind]; [|reflexivity].
  destruct (py_getitem last 4); reflexivity.
Qed.

(** The alert of a leg is built from a signal of the detector. *)
Lemma leg_outcome_alert (row : pyval -> outcome pyval) (tag sym : string)
    (r : bool * option pyval) (al : alert) :
  leg_outcome row tag sym r = Returns (Some al) ->
  exists klines s price,
    detect_volume_spike sym klines = Returns (Some s)
    /\ al = {| a_sym := sym; a_spike := ratio s;
               a_pct_from_low := pct_from_low s;
               a_price := price; a_source := tag |}.
Proof.
  unfold leg_outcome. destruct (fst r); [|discriminate].
  intros H.
  apply obind_returns in H as (data & _ & H).
  apply obind_returns in H as (n & _ & H).
  destruct (22 <=? n)%nat; [|discriminate].
  apply obind_returns in H as (klines & _ & H).
  apply obind_returns in H as ([s|] & Hd & H); [|discriminate].
  apply obind_returns in H as (price & _ & H).
  injection H as <-. exists klines, s, price. now split.
Qed.

Lemma scan_leg_run (w : world) (a : adapter) (row : pyval -> outcome pyval)
    (tag : string) (sym : string) :
  exists o,
    (forall g, scan_leg w a row tag sym g
               = ([Requested (ScanCandles a sym)], o, g))
    /\ forall al, o = Returns (Some al) ->
         exists klines s price,
           detect_volume_spike sym klines = Returns (Some s)
           /\ al = {| a_sym := sym; a_spike := ratio s;
                      a_pct_from_low := pct_from_low s;
                      a_price := price; a_source := tag |}.
Proof.
  eexists. split; [intros g; apply scan_leg_pure|].
  intros al H. destruct (net w (ScanCandles a sym)) as [|ok body];
    [discriminate|].
  now apply leg_outcome_alert in H.
Qed.

Ltac forall_events :=
  repeat first [ apply Forall_nil_2 | apply Forall_cons_2; [solve [auto]|] ].

(** The events one check of [sym] can log. *)
Definition check_event (sym : string) (ev : event) : Prop :=
  ev = Requested (ScanCandles KuCoin sym)
  \/ ev = Requested (ScanCandles OKX sym)
  \/ exists e, ev = Printed (MsgCoinError sym e).

(** check_coin in full: it returns and leaves the globals alone; under
    cooldown it logs nothing and returns [None]; otherwise it asks KuCoin,
    then possibly OKX, and prints at most one error; an alert carries the
    symbol checked, the exchange it came from and a signal of the
    detector. *)
Lemma check_coin_run (w : world) (now : Q) (sym : string) (g : globals) :
  exists l r,
    check_coin w now sym g = (l, Returns r, g)
    /\ (should_skip (_last_alert_time g) sym now = true -> l = [] /\ r = None)
    /\ (should_skip (_last_alert_time g) sym now = false ->
        exists l', l = Requested (ScanCandles KuCoin sym) :: l')
    /\ Forall (check_event sym) l
    /\ forall al, r = Some al ->
         should_skip (_last_alert_time g) sym now = false
         /\ (a_source al = "KuCoin" \/ a_source al = "OKX")
         /\ exists klines s price,
              detect_volume_spike sym klines = Returns (Some s)
              /\ al = {| a_sym := sym; a_spike := ratio s;
                         a_pct_from_low := pct_from_low s;
                         a_price := price; a_source := a_source al |}.
Proof.
  unfold check_coin, mbind at 1, read_globals.
  destruct (should_skip (_last_alert_time g) sym now) eqn:Hskip.
  { exists [], None. cbn. split; [reflexivity|].
    split; [auto|]. split; [discriminate|]. split; [constructor|discriminate]. }
  destruct (scan_leg_run w KuCoin kucoin_row "KuCoin" sym) as (ok & Hk & Hka).
  destruct (scan_leg_run w OKX okx_row "OKX" sym) as (oo & Ho & Hoa).
  assert (Ek : check_event sym (Requested (ScanCandles KuCoin sym)))
    by now left.
  assert (Eo : check_event sym (Requested (ScanCandles OKX sym)))
    by (right; now left).
  assert (Ep : forall e, check_event sym (Printed (MsgCoinError sym e)))
    by (intros e; right; right; eauto).
  unfold mtry, check_coin_try, mbind at 1. rewrite Hk.
  destruct ok as [[al|]|e].
  - exists [Requested (ScanCandles KuCoin sym)], (Some al). cbn.
    split; [reflexivity|]. split; [discriminate|]. split; [eauto|].
    split; [forall_events|].
    intros al' [= <-]. split; [reflexivity|].
    destruct (Hka al eq_refl) as (klines & s & price & Hd & ->).
    split; [now left|]. exists klines, s, price. now split.
  - rewrite Ho. destruct oo as [[al|]|e].
    + eexists _, (Some al). cbn.
      split; [reflexivity|]. split; [discriminate|]. split; [eauto|].
      split; [forall_events|].
      intros al' [= <-]. split; [reflexivity|].
      destruct (Hoa al eq_refl) as (klines & s & price & Hd & ->).
      split; [now right|]. exists klines, s, price. now split.
    + eexists _, None. cbn.
      split; [reflexivity|]. split; [discriminate|]. split; [eauto|].
      split; [forall_events | discriminate].
    + eexists _, None. cbn.
      split; [reflexivity|]. split; [discriminate|]. split; [eauto|].
      split; [forall_events | discriminate].
  - eexists _, None. cbn.
    split; [reflexivity|]. split; [discriminate|]. split; [eauto|].
    split; [forall_events | discriminate].
Qed.

(** The log and the result of checking one symbol in the state [g]. *)
Definition check_log (w : world) (now : Q) (g : globals) (sym : string)
  : list event := (check_coin w now sym g).1.1.

Definition check_result (w : world) (now : Q) (g : globals) (sym : string)
  : option alert :=
  match (check_coin w now sym g).1.2 with
  | Returns r => r
  | Raises _ => None
  end.

(** The sweep is the checks of the monitored symbols, one after the other,
    each in the state the scan started in. *)
Lemma sweep_run (w : world) (now : Q) (coins : list string) (g : globals) :
  mmap (check_coin w now) coins g
  = (concat (map (check_log w now g) coins),
     Returns (map (check_result w now g) coins), g).
Proof.
  induction coins as [|sym coins IH]; [reflexivity|].
  cbn [mmap map concat]. unfold mbind at 1.
  unfold check_log at 1, check_result at 1.
  destruct (check_coin_run w now sym g) as (l & r & Hc & _).
  rewrite Hc. cbn [fst snd]. unfold mbind at 1. rewrite IH.
  cbn. now rewrite app_nil_r.
Qed.

Lemma scan_results_checks (w : world) (now : Q) (g : globals) :
  scan_results w now g = map (check_result w now g) (MONITOR_COINS g).
Proof. unfold scan_results. now rewrite sweep_run. Qed.

(** An alert of a scan and the symbol it was raised for. *)
Lemma scan_alert (w : world) (now : Q) (g : globals) (al : alert) :
  al ∈ positives (scan_results w now g) ->
  a_sym al ∈ MONITOR_COINS g
  /\ check_result w now g (a_sym al) = Some al
  /\ should_skip (_last_alert_time g) (a_sym al) now = false
  /\ (a_source al = "KuCoin" \/ a_source al = "OKX")
  /\ exists klines s,
       detect_volume_spike (a_sym al) klines = Returns (Some s)
       /\ a_spike al = ratio s /\ a_pct_from_low al = pct_from_low s.
Proof.
  rewrite scan_results_checks. unfold positives.
  intros Hin. apply list_elem_of_omap in Hin as (r & Hr & Hid).
  cbn in Hid. subst r.
  apply list_elem_of_fmap in Hr as (sym & Hres & Hsym).
  unfold check_result in Hres.
  destruct (check_coin_run w now sym g) as (l & r & Hc & _ & _ & _ & Hal).
  rewrite Hc in Hres. cbn in Hres. subst r.
  destruct (Hal al eq_refl) as (Hskip & Hsrc & klines & s & price & Hd & Heq).
  assert (Hs : a_sym al = sym) by (rewrite Heq; reflexivity).
  rewrite Hs. split; [exact Hsym|]. split.
  { unfold check_result. now rewrite Hc. }
  split; [exact Hskip|]. split; [exact Hsrc|].
  exists klines, s. split; [exact Hd|]. rewrite Heq. now split.
Qed.


(** ** Telegram *)

(** The endpoints asked in a log, in the order of the requests. *)
Definition requests (l : list event) : list endpoint :=
  omap (fun ev => match ev with Requested e => Some e | _ => None end) l.

Lemma requests_app (l k : list event) :
  requests (l ++ k) = requests l ++ requests k.
Proof. apply omap_app. Qed.

Lemma elem_of_concat {A} (x : A) (ls : list (list A)) :
  x ∈ concat ls -> exists l, x ∈ l /\ l ∈ ls.
Proof.
  induction ls as [|l ls IH]; cbn [concat].
  - intros H. now apply elem_of_nil in H.
  - intros H. apply elem_of_app in H as [H|H].
    + exists l. split; [exact H|apply list_elem_of_here].
    + destruct (IH H) as (k & Hx & Hk). exists k.
      split; [exact Hx|now apply list_elem_of_further].
Qed.

Lemma requests_printed (m : message) (l : list event) :
  requests (Printed m :: l) = requests l.
Proof. reflexivity. Qed.

Lemma requests_concat (ls : list (list event)) :
  requests (concat ls) = concat (map requests ls).
Proof.
  induction ls as [|l ls IH]; [reflexivity|].
  cbn [concat map]. now rewrite requests_app, IH.
Qed.

Lemma elem_of_requests (l : list event) (e : endpoint) :
  e ∈ requests l <-> Requested e ∈ l.
Proof.
  unfold requests. rewrite list_elem_of_omap. split.
  - intros (ev & Hin & Hev). destruct ev; try discriminate.
    now injection Hev as ->.
  - intros Hin. now exists (Requested e).
Qed.

(** Both credentials are set. *)
Definition configured (g : globals) : bool :=
  truthy (VStr (TELEGRAM_BOT_TOKEN g)) && truthy (VStr (TELEGRAM_CHAT_ID g)).

(** Telegram accepts the posting. *)
Definition accepted (w : world) : bool :=
  match net w TelegramSend with
  | Resp true _ => true
  | _ => false
  end.

Lemma configured_iff (g : globals) :
  configured g = true
  <-> TELEGRAM_BOT_TOKEN g <> "" /\ TELEGRAM_CHAT_ID g <> "".
Proof.
  unfold configured. cbn [truthy]. rewrite andb_true_iff, !negb_true_iff.
  now rewrite !String.eqb_neq.
Qed.

Lemma send_telegram_cases (w : world) (batch : list alert) (g : globals) :
  send_telegram w batch g
  = (Handed batch
       :: (if configured g
           then [Requested TelegramSend;
                 Printed (match net w TelegramSend with
                          | ConnError => MsgTelegramException RequestException
                          | Resp true _ => MsgTelegramSentOK
                          | Resp false _ => MsgTelegramError
                          end)]
           else [Printed MsgTelegramNotConfigured]),
     Returns (configured g && accepted w), g).
Proof.
  unfold send_telegram, configured, accepted, mbind at 1 2, tell, read_globals.
  cbn [fst snd app].
  destruct (truthy (VStr (TELEGRAM_BOT_TOKEN g)));
    destruct (truthy (VStr (TELEGRAM_CHAT_ID g))); cbn [negb orb andb];
    try reflexivity.
  unfold mtry, mbind at 1. rewrite requests_get_run.
  now destruct (net w TelegramSend) as [|[|] body].
Qed.

(** X4. send_telegram returns [True] exactly when both credentials are
    non-empty and Telegram answers the posting with an [ok] response; with
    both credentials it posts once, with one of them empty it posts
    nothing; it never raises, also when the posting does, and leaves the
    globals as they are. *)
Theorem send_telegram_delivery (w : world) (batch : list alert) (g : globals) :
  exists l delivered,
    send_telegram w batch g = (Handed batch :: l, Returns delivered, g)
    /\ (delivered = true <->
        TELEGRAM_BOT_TOKEN g <> "" /\ TELEGRAM_CHAT_ID g <> ""
        /\ exists body, net w TelegramSend = Resp true body)
    /\ (TELEGRAM_BOT_TOKEN g <> "" /\ TELEGRAM_CHAT_ID g <> "" ->
        requests l = [TelegramSend])
    /\ (TELEGRAM_BOT_TOKEN g = "" \/ TELEGRAM_CHAT_ID g = "" ->
        requests l = []).
Proof.
  rewrite send_telegram_cases. eexists _, _. split; [reflexivity|].
  pose proof (configured_iff g) as Hc.
  split; [|split].
  - rewrite andb_true_iff, Hc. unfold accepted. split.
    + intros [[Ht Hi] Ha]. split; [exact Ht|]. split; [exact Hi|].
      destruct (net w TelegramSend) as [|[|] body]; try discriminate. eauto.
    + intros (Ht & Hi & body & ->). auto.
  - intros H. apply Hc in H. now rewrite H.
  - intros H. destruct (configured g); [|reflexivity].
    destruct Hc as [Hc _]. destruct (Hc eq_refl) as [Ht Hi].
    destruct H; contradiction.
Qed.

(** ** The scan, event by event *)

(** What the KuCoin leg of a check comes to. *)
Definition kucoin_leg (w : world) (sym : string) : outcome (option alert) :=
  match net w (ScanCandles KuCoin sym) with
  | ConnError => Raises RequestException
  | Resp ok body => leg_outcome kucoin_row "KuCoin" sym (ok, body)
  end.

Lemma check_coin_requests (w : world) (now : Q) (g : globals) (sym : string) :
  requests (check_log w now g sym)
  = if should_skip (_last_alert_time g) sym now then []
    else ScanCandles KuCoin sym
           :: match kucoin_leg w sym with
              | Returns None => [ScanCandles OKX sym]
              | _ => []
              end.
Proof.
  unfold check_log, check_coin, mbind at 1, read_globals.
  destruct (should_skip (_last_alert_time g) sym now); [reflexivity|].
  unfold mtry, check_coin_try, mbind at 1, kucoin_leg.
  rewrite !scan_leg_pure.
  destruct (match net w (ScanCandles KuCoin sym) with
            | ConnError => _ | Resp ok body => _ end) as [[al|]|e];
    try reflexivity.
  rewrite scan_leg_pure.
  now destruct (match net w (ScanCandles OKX sym) with
                | ConnError => _ | Resp ok body => _ end) as [[al|]|e].
Qed.

(** X7. A check of a symbol under cooldown asks no exchange.  Otherwise
    it asks KuCoin first, and it asks OKX exactly when KuCoin's leg came to
    its end without a signal: not after a signal from KuCoin, and not after
    an exception in KuCoin's leg. *)
Theorem check_coin_asks (w : world) (now : Q) (g : globals) (sym : string) :
  (should_skip (_last_alert_time g) sym now = true ->
   check_coin w now sym g = ([], Returns None, g))
  /\ (should_skip (_last_alert_time g) sym now = false ->
      exists rest,
        requests (check_log w now g sym) = ScanCandles KuCoin sym :: rest
        /\ (kucoin_leg w sym = Returns None -> rest = [ScanCandles OKX sym])
        /\ (kucoin_leg w sym <> Returns None -> rest = [])).
Proof.
  split.
  - intros Hskip. unfold check_coin, mbind at 1, read_globals.
    now rewrite Hskip.
  - intros Hskip. rewrite check_coin_requests, Hskip.
    eexists. split; [reflexivity|]. split.
    + now intros ->.
    + intros Hne. destruct (kucoin_leg w sym) as [[al|]|e]; congruence.
Qed.

Lemma run_monitor_scan_log (w : world) (now : Q) (g : globals) :
  run_monitor_scan w now g
  = (Printed (MsgScanStart (length (MONITOR_COINS g)))
       :: concat (map (check_log w now g) (MONITOR_COINS g))
       ++ map (fun a => CooldownSet (a_sym a) now) (positives (scan_results w now g))
       ++ (if truthy_list (positives (scan_results w now g))
           then (send_telegram w
                   (py_slice_to (sort_desc (positives (scan_results w now g))) 10)
                   (with_last g (stamp_all now (positives (scan_results w now g))
                                   (_last_alert_time g)))).1.1
                ++ [Printed (MsgScanSent
                               (map a_sym (sort_desc (positives (scan_results w now g)))))]
           else [Printed MsgScanNoSpikes]),
     Returns tt,
     with_last g (stamp_all now (positives (scan_results w now g))
                    (_last_alert_time g))).
Proof.
  rewrite scan_results_checks.
  unfold run_monitor_scan, mbind at 1 2 3, read_globals, print, tell.
  cbn [fst snd app]. rewrite sweep_run. unfold mbind at 1.
  rewrite collect_alerts_run. cbn [app fst snd].
  set (alerts := positives _). set (g' := with_last g _).
  destruct (truthy_list alerts).
  - unfold mbind. rewrite send_telegram_cases. cbn [fst snd].
    reflexivity.
  - reflexivity.
Qed.

Lemma requests_cooldowns (now : Q) (alerts : list alert) :
  requests (map (fun a => CooldownSet (a_sym a) now) alerts) = [].
Proof. induction alerts as [|a alerts IH]; [reflexivity|exact IH]. Qed.

(** The requests of a scan: those of its checks, then the posting. *)
Lemma run_monitor_scan_requests (w : world) (now : Q) (g : globals) :
  requests (run_monitor_scan w now g).1.1
  = concat (map (fun sym => requests (check_log w now g sym)) (MONITOR_COINS g))
    ++ (if truthy_list (positives (scan_results w now g)) && configured g
        then [TelegramSend] else []).
Proof.
  rewrite run_monitor_scan_log. cbn [fst].
  rewrite requests_printed.
  rewrite !requests_app, requests_concat, map_map, requests_cooldowns.
  cbn [app]. f_equal.
  destruct (truthy_list (positives (scan_results w now g))); [|reflexivity].
  rewrite send_telegram_cases. cbn [fst]. rewrite requests_app.
  change (configured (with_last g ?m)) with (configured g).
  now destruct (configured g).
Qed.

(** X5. A symbol alerted by a scan is left alone by a scan that starts
    after that scan has finished, in the globals it left, and less than
    7200 seconds after it started, whatever the exchanges would answer:
    no request is issued for it, no alert is raised for it, and its stored
    time stays that of the first scan.  Scans that overlap are not
    covered. *)
Theorem no_second_alert_within_window (w w' : world) (now now' : Q)
    (g : globals) (al : alert) :
  (now' - now < ALERT_COOLDOWN_SECONDS)%Q ->
  al ∈ positives (scan_results w now g) ->
  (forall ad,
      ScanCandles ad (a_sym al)
      ∉ requests (run_monitor_scan w' now' (run_monitor_scan w now g).2).1.1)
  /\ (forall al',
        al' ∈ positives (scan_results w' now' (run_monitor_scan w now g).2) ->
        a_sym al' <> a_sym al)
  /\ _last_alert_time
       (run_monitor_scan w' now' (run_monitor_scan w now g).2).2 !! a_sym al
     = Some now.
Proof.
  intros Hwin Hal.
  set (g1 := (run_monitor_scan w now g).2).
  assert (Hlast : _last_alert_time g1 !! a_sym al = Some now).
  { unfold g1. rewrite run_monitor_scan_log. cbn [snd with_last _last_alert_time].
    rewrite lookup_stamp_all. rewrite bool_decide_eq_true_2; [reflexivity|].
    apply list_elem_of_fmap. eauto. }
  assert (Hskip : should_skip (_last_alert_time g1) (a_sym al) now' = true).
  { unfold should_skip. rewrite Hlast. cbn [default from_option id].
    now apply Qlt_bool_true. }
  assert (Hnone : forall al',
             al' ∈ positives (scan_results w' now' g1) -> a_sym al' <> a_sym al).
  { intros al' Hal' Heq.
    apply scan_alert in Hal' as (_ & _ & Hfalse & _).
    rewrite Heq in Hfalse. congruence. }
  split; [|split].
  - intros ad Hin. rewrite run_monitor_scan_requests in Hin.
    apply elem_of_app in Hin as [Hin|Hin].
    + apply elem_of_concat in Hin as (l & Hin & Hl).
      apply list_elem_of_fmap in Hl as (sym & -> & _).
      rewrite check_coin_requests in Hin.
      destruct (should_skip (_last_alert_time g1) sym now') eqn:Hs;
        [now apply elem_of_nil in Hin|].
      assert (sym = a_sym al) as ->; [|congruence].
      apply elem_of_cons in Hin as [Hin|Hin]; [congruence|].
      destruct (kucoin_leg w' sym) as [[?|]|?];
        try (now apply elem_of_nil in Hin).
      apply list_elem_of_singleton in Hin. congruence.
    + destruct (_ && _); [|now apply elem_of_nil in Hin].
      apply list_elem_of_singleton in Hin. discriminate.
  - exact Hnone.
  - rewrite run_monitor_scan_log. cbn [snd with_last _last_alert_time].
    rewrite lookup_stamp_all. rewrite bool_decide_eq_false_2; [exact Hlast|].
    intros Hin. apply list_elem_of_fmap in Hin as (al' & Heq & Hal').
    now apply (Hnone al').
Qed.


Lemma length_concat_le {A} (ls : list (list A)) (n : nat) :
  Forall (fun l => (length l <= n)%nat) ls ->
  (length (concat ls) <= n * length ls)%nat.
Proof.
  induction 1 as [|l ls Hl _ IH]; cbn [concat length]; [lia|].
  rewrite length_app. lia.
Qed.

(** X8. A scan asks only for the candles of monitored symbols, at KuCoin
    and at OKX, and posts to Telegram; it issues at most two requests per
    entry of the universe and one posting.  A scan without an alert hands
    nothing to Telegram, posts nothing and leaves all globals as they
    are. *)
Theorem scan_requests_bounded (w : world) (now : Q) (g : globals) :
  (forall e,
      e ∈ requests (run_monitor_scan w now g).1.1 ->
      e = TelegramSend
      \/ exists sym, sym ∈ MONITOR_COINS g
                     /\ (e = ScanCandles KuCoin sym \/ e = ScanCandles OKX sym))
  /\ (length (requests (run_monitor_scan w now g).1.1)
      <= 2 * length (MONITOR_COINS g) + 1)%nat
  /\ (positives (scan_results w now g) = [] ->
      (run_monitor_scan w now g).2 = g
      /\ (TelegramSend ∉ requests (run_monitor_scan w now g).1.1)
      /\ forall batch, Handed batch ∉ (run_monitor_scan w now g).1.1).
Proof.
  split; [|split].
  - intros e Hin. rewrite run_monitor_scan_requests in Hin.
    apply elem_of_app in Hin as [Hin|Hin].
    + right. apply elem_of_concat in Hin as (l & Hin & Hl).
      apply list_elem_of_fmap in Hl as (sym & -> & Hsym).
      exists sym. split; [exact Hsym|].
      rewrite check_coin_requests in Hin.
      destruct (should_skip _ sym now); [now apply elem_of_nil in Hin|].
      apply elem_of_cons in Hin as [Hin|Hin]; [now left|].
      destruct (kucoin_leg w sym) as [[?|]|?];
        try (now apply elem_of_nil in Hin).
      apply list_elem_of_singleton in Hin. now right.
    + left. destruct (_ && _); [|now apply elem_of_nil in Hin].
      now apply list_elem_of_singleton in Hin.
  - rewrite run_monitor_scan_requests, length_app.
    assert (Hc : (length (concat (map (fun sym => requests (check_log w now g sym))
                                    (MONITOR_COINS g)))
                  <= 2 * length (MONITOR_COINS g))%nat).
    { rewrite <- (length_map (fun sym => requests (check_log w now g sym))).
      apply length_concat_le. apply Forall_forall. intros l Hl.
      apply list_elem_of_fmap in Hl as (sym & -> & _).
      rewrite check_coin_requests.
      destruct (should_skip _ sym now); [cbn; lia|].
      destruct (kucoin_leg w sym) as [[?|]|?]; cbn; lia. }
    destruct (_ && _); cbn [length]; lia.
  - intros Hnone. split; [|split].
    + rewrite run_monitor_scan_log, Hnone. cbn [snd stamp_all foldl].
      apply with_last_same.
    + rewrite run_monitor_scan_requests, Hnone. cbn [truthy_list andb app].
      rewrite app_nil_r. intros Hin.
      apply elem_of_concat in Hin as (l & Hin & Hl).
      apply list_elem_of_fmap in Hl as (sym & -> & _).
      rewrite check_coin_requests in Hin.
      destruct (should_skip _ sym now); [now apply elem_of_nil in Hin|].
      apply elem_of_cons in Hin as [Hin|Hin]; [discriminate|].
      destruct (kucoin_leg w sym) as [[?|]|?];
        try (now apply elem_of_nil in Hin).
      apply list_elem_of_singleton in Hin. discriminate.
    + intros batch Hin. rewrite run_monitor_scan_log, Hnone in Hin.
      cbn [fst map truthy_list app] in Hin.
      apply elem_of_cons in Hin as [Hin|Hin]; [discriminate|].
      apply elem_of_app in Hin as [Hin|Hin].
      * apply elem_of_concat in Hin as (l & Hin & Hl).
        apply list_elem_of_fmap in Hl as (sym & -> & _).
        unfold check_log in Hin.
        destruct (check_coin_run w now sym g) as (l & r & Hc & _ & _ & Hev & _).
        rewrite Hc in Hin. cbn [fst] in Hin.
        rewrite Forall_forall in Hev.
        destruct (Hev _ Hin) as [H|[H|(x & H)]]; discriminate.
      * apply list_elem_of_singleton in Hin. discriminate.
Qed.


(** ** The series of the resolver *)

(** A row of a canonical series: a time and five floats. *)
Definition canonical_row (k : pyval) : Prop :=
  exists t o h l c v,
    k = VList [t; VFloat o; VFloat h; VFloat l; VFloat c; VFloat v].

Lemma kucoin_row_shape (c k : pyval) :
  kucoin_row c = Returns k -> canonical_row k.
Proof.
  unfold kucoin_row. intros H.
  apply obind_returns in H as (t & _ & H).
  apply obind_returns in H as (o & _ & H).
  apply obind_returns in H as (h & _ & H).
  apply obind_returns in H as (l & _ & H).
  apply obind_returns in H as (cl & _ & H).
  apply obind_returns in H as (v & _ & H).
  injection H as <-. now eexists _, o, h, l, cl, v.
Qed.

Lemma okx_row_shape (c k : pyval) :
  okx_row c = Returns k -> canonical_row k.
Proof.
  unfold okx_row. intros H.
  apply obind_returns in H as (t & _ & H).
  apply obind_returns in H as (o & _ & H).
  apply obind_returns in H as (h & _ & H).
  apply obind_returns in H as (l & _ & H).
  apply obind_returns in H as (cl & _ & H).
  apply obind_returns in H as (v & _ & H).
  injection H as <-. now eexists _, o, h, l, cl, v.
Qed.

Lemma binance_row_shape (c k : pyval) :
  binance_row c = Returns k -> canonical_row k.
Proof.
  unfold binance_row. intros H.
  apply obind_returns in H as (t & _ & H).
  apply obind_returns in H as (o & _ & H).
  apply obind_returns in H as (h & _ & H).
  apply obind_returns in H as (l & _ & H).
  apply obind_returns in H as (cl & _ & H).
  apply obind_returns in H as (v & _ & H).
  injection H as <-. now eexists _, o, h, l, cl, v.
Qed.

Lemma salvage_shape (row : pyval -> outcome pyval) (rows : list pyval) :
  (forall c k, row c = Returns k -> canonical_row k) ->
  Forall canonical_row (salvage row rows).
Proof.
  intros Hrow. induction rows as [|c rows IH]; cbn [salvage]; [constructor|].
  destruct (row c) as [k|] eqn:E; [|exact IH].
  constructor; [now apply (Hrow c)|exact IH].
Qed.

Lemma comprehension_shape (row : pyval -> outcome pyval) (rows ks : list pyval) :
  (forall c k, row c = Returns k -> canonical_row k) ->
  comprehension row rows = Returns ks -> Forall canonical_row ks.
Proof.
  intros Hrow. revert ks. induction rows as [|c rows IH]; intros ks; cbn.
  - intros [= <-]. constructor.
  - destruct (row c) as [k|] eqn:E; cbn; [|discriminate].
    destruct (comprehension row rows) as [ks'|]; cbn; [|discriminate].
    intros [= <-]. constructor; [now apply (Hrow c)|now apply IH].
Qed.

(** What a block of the resolver returns when it returns a series. *)
Definition series_ok (r : option (list pyval)) : Prop :=
  forall ks, r = Some ks -> (20 <= length ks)%nat /\ Forall canonical_row ks.

Ltac block_done :=
  eexists _, _; split; [intros g; reflexivity|];
  split; [reflexivity|]; try (intros ks; discriminate).

Lemma salvaging_adapter_run (w : world) (a : adapter)
    (row : pyval -> outcome pyval) (sym : string) :
  (forall c k, row c = Returns k -> canonical_row k) ->
  exists l r,
    (forall g, salvaging_adapter w a row sym g
               = (Requested (Candles a sym) :: l, Returns r, g))
    /\ requests l = []
    /\ series_ok r.
Proof.
  intros Hrow.
  unfold salvaging_adapter, requests_get, print, mtry, mbind, tell, lift, mret.
  destruct (net w (Candles a sym)) as [|[|] body]; cbn [fst snd app obind];
    try solve [block_done].
  destruct (json body) as [j|]; cbn [obind]; try solve [block_done].
  destruct (py_get j "data" (VList [])) as [candles|]; cbn [obind];
    try solve [block_done].
  destruct (if truthy candles then _ else _) as [[|]|]; cbn [obind app];
    try solve [block_done].
  destruct (py_reversed candles) as [rows|]; cbn [obind app];
    try solve [block_done].
  destruct (20 <=? length (salvage row rows))%nat eqn:Hk; try solve [block_done].
  eexists _, _. split; [intros g; reflexivity|]. split; [reflexivity|].
  intros ks [= <-]. split; [now apply Nat.leb_le|now apply salvage_shape].
Qed.

Lemma strict_adapter_run (w : world) (a : adapter) (sym : string) :
  exists l r,
    (forall g, strict_adapter w a sym g
               = (Requested (Candles a sym) :: l, Returns r, g))
    /\ requests l = []
    /\ series_ok r.
Proof.
  unfold strict_adapter, requests_get, print, mtry, mbind, tell, lift, mret.
  destruct (net w (Candles a sym)) as [|[|] body]; cbn [fst snd app obind];
    try solve [block_done].
  destruct (json body) as [data|]; cbn [obind]; try solve [block_done].
  destruct data as [| | | | |rows|]; try solve [block_done].
  destruct (20 <=? length rows)%nat eqn:Hk; try solve [block_done].
  destruct (comprehension binance_row rows) as [ks|] eqn:Hc; cbn [obind app];
    try solve [block_done].
  eexists _, _. split; [intros g; reflexivity|]. split; [reflexivity|].
  intros ks' [= <-]. split.
  - rewrite (comprehension_length _ _ _ Hc). now apply Nat.leb_le.
  - apply (comprehension_shape binance_row rows); [apply binance_row_shape|exact Hc].
Qed.

Lemma block_run (w : world) (a : adapter) (sym : string) :
  exists l r,
    (forall g, block w a sym g = (Requested (Candles a sym) :: l, Returns r, g))
    /\ requests l = []
    /\ series_ok r.
Proof.
  destruct a; cbn [block].
  - apply salvaging_adapter_run, kucoin_row_shape.
  - apply salvaging_adapter_run, okx_row_shape.
  - apply strict_adapter_run.
  - apply strict_adapter_run.
Qed.

Lemma requests_block (e : endpoint) (l k : list event) :
  requests l = [] -> requests ((Requested e :: l) ++ k) = e :: requests k.
Proof.
  intros Hl. rewrite requests_app. cbn. unfold requests in Hl.
  now rewrite Hl.
Qed.

(** What a series returned by the resolver looks like. *)
Definition series_data (d : crypto_data) : Prop :=
  type_ d = "crypto"
  /\ (20 <= length (klines d))%nat
  /\ Forall canonical_row (klines d).

Lemma fetch_one_crypto_run (w : world) (sym : string) :
  exists l r,
    (forall g, fetch_one_crypto w sym g = (l, Returns (sym, r), g))
    /\ match r with
       | None => requests l = map (fun a => Candles a sym) priority
       | Some d =>
           series_data d
           /\ exists before a after,
                priority = before ++ a :: after
                /\ source d = tag a
                /\ requests l = map (fun a => Candles a sym) (before ++ [a])
       end.
Proof.
  destruct (block_run w KuCoin sym) as (l1 & r1 & B1 & H1 & S1).
  destruct r1 as [ks|].
  { eexists _, _. split.
    { intros g. rewrite fetch_one_crypto_blocks. unfold mbind, print, tell, mret.
      rewrite B1. reflexivity. }
    destruct (S1 ks eq_refl) as [Hlen Hrows].
    split; [now split|].
    exists [], KuCoin, [OKX; BinanceSpot; BinanceFutures].
    split; [reflexivity|]. split; [reflexivity|].
    rewrite requests_block by exact H1. reflexivity. }
  destruct (block_run w OKX sym) as (l2 & r2 & B2 & H2 & S2).
  destruct r2 as [ks|].
  { eexists _, _. split.
    { intros g. rewrite fetch_one_crypto_blocks. unfold mbind, print, tell, mret.
      rewrite B1, B2. reflexivity. }
    destruct (S2 ks eq_refl) as [Hlen Hrows].
    split; [now split|].
    exists [KuCoin], OKX, [BinanceSpot; BinanceFutures].
    split; [reflexivity|]. split; [reflexivity|].
    rewrite !requests_block by assumption. reflexivity. }
  destruct (block_run w BinanceSpot sym) as (l3 & r3 & B3 & H3 & S3).
  destruct r3 as [ks|].
  { eexists _, _. split.
    { intros g. rewrite fetch_one_crypto_blocks. unfold mbind, print, tell, mret.
      rewrite B1, B2, B3. reflexivity. }
    destruct (S3 ks eq_refl) as [Hlen Hrows].
    split; [now split|].
    exists [KuCoin; OKX], BinanceSpot, [BinanceFutures].
    split; [reflexivity|]. split; [reflexivity|].
    rewrite !requests_block by assumption. reflexivity. }
  destruct (block_run w BinanceFutures sym) as (l4 & r4 & B4 & H4 & S4).
  destruct r4 as [ks|].
  { eexists _, _. split.
    { intros g. rewrite fetch_one_crypto_blocks. unfold mbind, print, tell, mret.
      rewrite B1, B2, B3, B4. reflexivity. }
    destruct (S4 ks eq_refl) as [Hlen Hrows].
    split; [now split|].
    exists [KuCoin; OKX; BinanceSpot], BinanceFutures, [].
    split; [reflexivity|]. split; [reflexivity|].
    rewrite !requests_block by assumption. reflexivity. }
  eexists _, _. split.
  { intros g. rewrite fetch_one_crypto_blocks. unfold mbind, print, tell, mret.
    rewrite B1, B2, B3, B4. reflexivity. }
  rewrite !requests_block by assumption. reflexivity.
Qed.

(** X9. fetch_one_crypto always returns, with the symbol it was asked for,
    and leaves the globals alone.  It asks the exchanges in the order
    KuCoin, OKX, Binance Spot, Binance Futures, each at most once, and
    stops at the first that yields a series: the requests are the
    priority list up to the exchange named in ['source'], or the whole
    list when the result is [None].  A series returned has at least 20
    rows, each a time followed by five floats, and the type ['crypto']. *)
Theorem fetch_one_crypto_series (w : world) (sym : string) (g : globals) :
  exists l r,
    fetch_one_crypto w sym g = (l, Returns (sym, r), g)
    /\ match r with
       | None => requests l = map (fun a => Candles a sym) priority
       | Some d =>
           type_ d = "crypto"
           /\ (20 <= length (klines d))%nat
           /\ Forall canonical_row (klines d)
           /\ exists before a after,
                priority = before ++ a :: after
                /\ source d = tag a
                /\ requests l = map (fun a => Candles a sym) (before ++ [a])
       end.
Proof.
  destruct (fetch_one_crypto_run w sym) as (l & r & Hrun & Hr).
  exists l, r. split; [apply Hrun|].
  destruct r as [d|]; [|exact Hr].
  destruct Hr as ((Ht & Hlen & Hrows) & Hsrc). auto.
Qed.


(** ** More on the universe refresh *)

(** The base an instrument contributes: [None] when the exchange's
    condition does not hold of it. *)
Definition listed_base (x : exchange) (s : pyval) : outcome (option string) :=
  (ok <~ tradable x s ;;
   if ok : bool
   then (v <~ py_getkey s (base_key x) ;;
         b <~ as_symbol v ;; Returns (Some b))
   else Returns None)%py.

(** [MONITOR_COINS = coins] on the globals. *)
Definition with_coins (g : globals) (coins : list string) : globals :=
  {| _last_alert_time := _last_alert_time g;
     MONITOR_COINS := coins;
     TELEGRAM_BOT_TOKEN := TELEGRAM_BOT_TOKEN g;
     TELEGRAM_CHAT_ID := TELEGRAM_CHAT_ID g |}.

(** The exchange's listing cannot be had: the request raises, or the
    response is not [ok]. *)
Definition unavailable (w : world) (x : exchange) : Prop :=
  net w (Listing x) = ConnError \/ exists body, net w (Listing x) = Resp false body.

(** What a block logs when its listing cannot be had. *)
Definition down_log (w : world) (x : exchange) : list event :=
  Requested (Listing x)
    :: match net w (Listing x) with
       | ConnError => [Printed (MsgFetchFailed x RequestException)]
       | Resp _ _ => []
       end.

Definition exchanges : list exchange := [BinanceList; KuCoinList; OKXList].

(** A loop that ends without an exception collects the bases listed as
    tradable, outside the exclusion set and not seen before. *)
Lemma collect_bases_spec (x : exchange) (entries : list pyval)
    (seen : gset string) (coins coins' : list string) :
  collect_bases x entries seen coins = (coins', Returns tt) ->
  forall c,
    c ∈ coins' <->
    c ∈ coins
    \/ ((c ∉ seen) /\ (c ∉ EXCLUDE)
        /\ exists s, s ∈ entries /\ listed_base x s = Returns (Some c)).
Proof.
  revert seen coins. induction entries as [|s rest IH]; intros seen coins.
  - cbn. intros [= <-] c. split; [auto|].
    intros [H|(_ & _ & s & Hs & _)]; [exact H|now apply elem_of_nil in Hs].
  - cbn [collect_bases]. fold (listed_base x s).
    destruct (listed_base x s) as [[base|]|e] eqn:Hb.
    + destruct (negb (bool_decide (base ∈ seen))
                && negb (bool_decide (base ∈ EXCLUDE))) eqn:E.
      * apply andb_true_iff in E as [Hseen Hexcl].
        apply negb_true_iff, bool_decide_eq_false in Hseen, Hexcl.
        intros Hloop c. rewrite (IH _ _ Hloop c). split.
        -- intros [Hc|(Hns & Hne & s' & Hs' & Hl)].
           ++ apply elem_of_app in Hc as [Hc|Hc]; [now left|].
              apply list_elem_of_singleton in Hc. subst c. right.
              split; [exact Hseen|]. split; [exact Hexcl|].
              exists s. split; [apply list_elem_of_here|exact Hb].
           ++ right.
              split; [intros Hin; apply Hns; now apply elem_of_union_r|].
              split; [exact Hne|].
              exists s'. split; [now apply list_elem_of_further|exact Hl].
        -- intros [Hc|(Hns & Hne & s' & Hs' & Hl)].
           ++ left. apply elem_of_app. now left.
           ++ destruct (decide (c = base)) as [->|Hcb].
              { left. apply elem_of_app. right. apply list_elem_of_here. }
              apply elem_of_cons in Hs' as [->|Hs']; [congruence|].
              right. split.
              { intros Hin. apply elem_of_union in Hin as [Hin|Hin];
                  [|contradiction].
                apply elem_of_singleton in Hin. contradiction. }
              split; [exact Hne|]. eauto.
      * intros Hloop c. rewrite (IH _ _ Hloop c). split.
        -- intros [Hc|(Hns & Hne & s' & Hs' & Hl)]; [now left|].
           right. split; [exact Hns|]. split; [exact Hne|].
           exists s'. split; [now apply list_elem_of_further|exact Hl].
        -- intros [Hc|(Hns & Hne & s' & Hs' & Hl)]; [now left|].
           apply elem_of_cons in Hs' as [->|Hs']; [|right; eauto].
           assert (c = base) as -> by congruence.
           apply andb_false_iff in E as [E|E];
             apply negb_false_iff, bool_decide_eq_true in E; contradiction.
    + intros Hloop c. rewrite (IH _ _ Hloop c). split.
      * intros [Hc|(Hns & Hne & s' & Hs' & Hl)]; [now left|].
        right. split; [exact Hns|]. split; [exact Hne|].
        exists s'. split; [now apply list_elem_of_further|exact Hl].
      * intros [Hc|(Hns & Hne & s' & Hs' & Hl)]; [now left|].
        apply elem_of_cons in Hs' as [->|Hs']; [congruence|right; eauto].
    + discriminate.
Qed.

(** A loop none of whose instruments raises comes to its end. *)
Lemma collect_bases_ends (x : exchange) (entries : list pyval)
    (seen : gset string) (coins : list string) :
  (forall s, s ∈ entries -> exists r, listed_base x s = Returns r) ->
  exists coins', collect_bases x entries seen coins = (coins', Returns tt).
Proof.
  revert seen coins. induction entries as [|s rest IH]; intros seen coins Hall.
  - now exists coins.
  - cbn [collect_bases]. fold (listed_base x s).
    destruct (Hall s) as (r & ->); [apply list_elem_of_here|].
    assert (Hrest : forall s', s' ∈ rest -> exists r, listed_base x s' = Returns r)
      by (intros s' Hs'; apply Hall; now apply list_elem_of_further).
    destruct r as [base|]; [|now apply IH].
    destruct (_ && _); now apply IH.
Qed.

(** A block whose listing cannot be had leaves [coins] and the globals as
    they are. *)
Lemma listing_block_down (w : world) (x : exchange) (coins : list string)
    (g : globals) :
  unavailable w x ->
  listing_block w x coins g = (down_log w x, Returns (coins, false), g).
Proof.
  unfold listing_block, down_log, requests_get, print, mtry, mbind, tell,
    lift, mret.
  intros [->|(body & ->)]; reflexivity.
Qed.

(** The first block that has a listing, when no instrument of the listing
    raises and one of them is tradable: the universe is replaced by the
    bases collected. *)
Lemma listing_block_loads (w : world) (x : exchange) (g : globals)
    (data listed : pyval) (entries : list pyval) :
  net w (Listing x) = Resp true (Some data) ->
  py_get data (listing_key x) (VList []) = Returns listed ->
  py_iter listed = Returns entries ->
  (forall s, s ∈ entries -> exists r, listed_base x s = Returns r) ->
  (exists s c, s ∈ entries /\ listed_base x s = Returns (Some c) /\ (c ∉ EXCLUDE)) ->
  exists coins,
    listing_block w x [] g
    = ([Requested (Listing x); Printed (MsgLoaded x (length coins))],
       Returns (coins, true), with_coins g coins)
    /\ NoDup coins
    /\ forall c, c ∈ coins <->
                 (c ∉ EXCLUDE)
                 /\ exists s, s ∈ entries /\ listed_base x s = Returns (Some c).
Proof.
  intros Hnet Hlisted Hentries Hall (s0 & c0 & Hs0 & Hl0 & Hx0).
  destruct (collect_bases_ends x entries ∅ [] Hall) as (coins & Hloop).
  pose proof (collect_bases_spec x entries ∅ [] coins Hloop) as Hspec.
  destruct (collect_bases_adds x entries ∅ []) as (added & Heq & Hnd & _).
  rewrite Hloop in Heq. cbn in Heq. subst added.
  assert (Hmem : forall c, c ∈ coins <->
                   (c ∉ EXCLUDE)
                   /\ exists s, s ∈ entries /\ listed_base x s = Returns (Some c)).
  { intros c. rewrite Hspec. split.
    - intros [Hc|(_ & Hne & Hs)]; [now apply elem_of_nil in Hc|auto].
    - intros (Hne & Hs). right. split; [apply not_elem_of_empty|]. auto. }
  exists coins. split; [|split; [exact Hnd|exact Hmem]].
  assert (Hc0 : c0 ∈ coins) by (apply Hmem; eauto).
  unfold listing_block, requests_get, print, set_monitor_coins, mtry, mbind,
    tell, lift, mret.
  rewrite Hnet. cbn [fst snd json obind].
  rewrite Hlisted. cbn [obind]. rewrite Hentries, Hloop.
  destruct coins; [now apply elem_of_nil in Hc0|]. reflexivity.
Qed.

(** X10. The refresh takes the first exchange whose listing can be had, in
    the order Binance, KuCoin, OKX: when the exchanges before [x] cannot be
    reached or answer with an error status, no instrument of [x]'s listing
    raises and one of them is tradable and not excluded, the universe
    becomes the list of the bases [x] lists as tradable and that are not
    excluded, each once; the exchanges after [x] are not asked, and the
    cooldown dictionary and the credentials stay as they are. *)
Theorem refresh_takes_first_listing (w : world) (g : globals)
    (before after : list exchange) (x : exchange)
    (data listed : pyval) (entries : list pyval) :
  exchanges = before ++ x :: after ->
  (forall y, y ∈ before -> unavailable w y) ->
  net w (Listing x) = Resp true (Some data) ->
  py_get data (listing_key x) (VList []) = Returns listed ->
  py_iter listed = Returns entries ->
  (forall s, s ∈ entries -> exists r, listed_base x s = Returns r) ->
  (exists s c, s ∈ entries /\ listed_base x s = Returns (Some c) /\ (c ∉ EXCLUDE)) ->
  exists coins,
    fetch_monitor_coins w g
    = (concat (map (down_log w) before)
         ++ [Requested (Listing x); Printed (MsgLoaded x (length coins))],
       Returns tt, with_coins g coins)
    /\ NoDup coins
    /\ forall c, c ∈ coins <->
                 (c ∉ EXCLUDE)
                 /\ exists s, s ∈ entries /\ listed_base x s = Returns (Some c).
Proof.
  intros Hsplit Hdown Hnet Hlisted Hentries Hall Hsome.
  destruct (listing_block_loads w x g data listed entries
              Hnet Hlisted Hentries Hall Hsome) as (coins & Hblock & Hnd & Hmem).
  exists coins. split; [|split; [exact Hnd|exact Hmem]].
  unfold exchanges in Hsplit. unfold fetch_monitor_coins.
  destruct before as [|y1 before].
  { injection Hsplit as <- _. unfold mbind at 1. rewrite Hblock. reflexivity. }
  injection Hsplit as <- Hsplit.
  unfold mbind at 1.
  rewrite (listing_block_down w BinanceList [] g)
    by (apply Hdown, list_elem_of_here).
  cbn [fst snd].
  destruct before as [|y2 before].
  { injection Hsplit as <- _. unfold mbind at 1. rewrite Hblock.
    cbn [fst snd concat map mret]. now rewrite !app_nil_r. }
  injection Hsplit as <- Hsplit.
  unfold mbind at 1.
  rewrite (listing_block_down w KuCoinList [] g)
    by (apply Hdown, list_elem_of_further, list_elem_of_here).
  cbn [fst snd].
  destruct before as [|y3 before].
  { injection Hsplit as <- _. unfold mbind at 1. rewrite Hblock.
    cbn [fst snd concat map mret]. now rewrite !app_nil_r, <- !app_assoc. }
  injection Hsplit as _ Hsplit. now destruct before.
Qed.

(** X11. When none of the three listings can be had, the refresh asks
    Binance, KuCoin and OKX in this order, prints how many coins the
    universe in use holds, and changes nothing: universe, cooldown
    dictionary and credentials are as before. *)
Theorem refresh_without_listing (w : world) (g : globals) :
  (forall x, unavailable w x) ->
  fetch_monitor_coins w g
  = (concat (map (down_log w) exchanges)
       ++ [Printed (MsgAllExchangesFailed (length (MONITOR_COINS g)))],
     Returns tt, g)
  /\ requests (fetch_monitor_coins w g).1.1 = map Listing exchanges.
Proof.
  intros Hdown.
  assert (Heq : fetch_monitor_coins w g
                = (concat (map (down_log w) exchanges)
                     ++ [Printed (MsgAllExchangesFailed (length (MONITOR_COINS g)))],
                   Returns tt, g)).
  { unfold fetch_monitor_coins, mbind.
    rewrite !listing_block_down by apply Hdown.
    cbn [fst snd]. rewrite !listing_block_down by apply Hdown.
    cbn [fst snd]. rewrite !listing_block_down by apply Hdown.
    cbn [fst snd read_globals print tell exchanges map concat].
    now rewrite !app_nil_r, <- !app_assoc. }
  split; [exact Heq|]. rewrite Heq. cbn [fst exchanges map concat].
  unfold down_log.
  destruct (net w (Listing BinanceList)), (net w (Listing KuCoinList)),
    (net w (Listing OKXList)); reflexivity.
Qed.

(** X12. Whatever the exchanges answer, the refresh returns; it leaves the
    cooldown dictionary alone; and the universe afterwards is the one
    before, or a non-empty list without an excluded symbol: a refresh
    never empties the universe and never lets a stablecoin or wrapped
    asset of the exclusion set in. *)
Theorem refresh_never_empties (w : world) (g : globals) :
  exists l g',
    fetch_monitor_coins w g = (l, Returns tt, g')
    /\ _last_alert_time g' = _last_alert_time g
    /\ (MONITOR_COINS g' = MONITOR_COINS g
        \/ (MONITOR_COINS g' <> []
            /\ forall c, c ∈ MONITOR_COINS g' -> c ∉ EXCLUDE)).
Proof. apply fetch_monitor_coins_run. Qed.


(** ** The pair list (app.py, [binance_pairs]) *)

(** The JSON object [{'symbols': ..., 'count': ..., 'source': ...}]. *)
Record pairs_response : Type := PairsResponse {
  p_symbols : list string;
  p_count : nat;
  p_source : string
}.

(** What binance_pairs requests and prints. *)
Inductive pairs_event : Type :=
| PairsRequested (x : exchange)
| PairsPrinted (x : exchange) (n : nat)      (* 'Binance pairs: n' *)
| PairsError (x : exchange) (e : exn).       (* 'Binance exchangeInfo error: e' *)

(** The loop over the instruments of one exchange.  [seen] and [symbols]
    are the function's one set and one list, shared by the three
    exchanges; what the loop added before it raised stays added. *)
Fixpoint collect_pairs (x : exchange) (entries : list pyval)
    (seen : gset string) (symbols : list string)
  : gset string * list string * outcome unit :=
  match entries with
  | [] => (seen, symbols, Returns tt)
  | s :: rest =>
      match listed_base x s with
      | Raises e => (seen, symbols, Raises e)
      | Returns None => collect_pairs x rest seen symbols
      | Returns (Some base) =>
          if negb (bool_decide (base ∈ seen)) && negb (bool_decide (base ∈ EXCLUDE))
          then collect_pairs x rest ({[base]} ∪ seen) (symbols ++ [base])
          else collect_pairs x rest seen symbols
      end
  end.

(** One of the three [try] blocks: its log, [seen] and [symbols] as it
    leaves them, and whether the function returned from inside it. *)
Definition pairs_block (w : world) (x : exchange)
    (seen : gset string) (symbols : list string)
  : list pairs_event * (gset string * list string * bool) :=
  match net w (Listing x) with
  | ConnError =>
      ([PairsRequested x; PairsError x RequestException], (seen, symbols, false))
  | Resp false _ => ([PairsRequested x], (seen, symbols, false))
  | Resp true body =>
      match (data <~ json body ;;
             l <~ py_get data (listing_key x) (VList []) ;;
             py_iter l)%py with
      | Raises e => ([PairsRequested x; PairsError x e], (seen, symbols, false))
      | Returns entries =>
          match collect_pairs x entries seen symbols with
          | (seen', symbols', Raises e) =>
              ([PairsRequested x; PairsError x e], (seen', symbols', false))
          | (seen', symbols', Returns _) =>
              if truthy_list symbols'
              then ([PairsRequested x; PairsPrinted x (length symbols')],
                    (seen', symbols', true))
              else ([PairsRequested x], (seen', symbols', false))
          end
      end
  end.

Definition pairs_tag (x : exchange) : string :=
  match x with
  | BinanceList => "binance" | KuCoinList => "kucoin" | OKXList => "okx"
  end.

Definition pairs_found (x : exchange) (symbols : list string) : pairs_response :=
  {| p_symbols := symbols; p_count := length symbols; p_source := pairs_tag x |}.

Definition binance_pairs (w : world) : list pairs_event * pairs_response :=
  let '(l1, (seen, symbols, returned)) := pairs_block w BinanceList ∅ [] in
  if returned then (l1, pairs_found BinanceList symbols) else
  let '(l2, (seen, symbols, returned)) := pairs_block w KuCoinList seen symbols in
  if returned then (l1 ++ l2, pairs_found KuCoinList symbols) else
  let '(l3, (seen, symbols, returned)) := pairs_block w OKXList seen symbols in
  if returned then (l1 ++ l2 ++ l3, pairs_found OKXList symbols) else
  (l1 ++ l2 ++ l3, {| p_symbols := []; p_count := 0; p_source := "none" |}).

(** [symbols] holds each base once, every base of it is in [seen] and none
    is excluded. *)
Definition pairs_inv (seen : gset string) (symbols : list string) : Prop :=
  NoDup symbols /\ forall c, c ∈ symbols -> c ∈ seen /\ c ∉ EXCLUDE.

Lemma pairs_inv_start : pairs_inv ∅ [].
Proof.
  split; [constructor|]. intros c Hc. now apply elem_of_nil in Hc.
Qed.

Lemma collect_pairs_inv (x : exchange) (entries : list pyval)
    (seen : gset string) (symbols : list string) :
  pairs_inv seen symbols ->
  pairs_inv (collect_pairs x entries seen symbols).1.1
            (collect_pairs x entries seen symbols).1.2.
Proof.
  revert seen symbols. induction entries as [|s rest IH]; intros seen symbols Hinv.
  - exact Hinv.
  - cbn [collect_pairs].
    destruct (listed_base x s) as [[base|]|e]; [|now apply IH|exact Hinv].
    destruct (negb (bool_decide (base ∈ seen))
              && negb (bool_decide (base ∈ EXCLUDE))) eqn:E; [|now apply IH].
    apply andb_true_iff in E as [Hseen Hexcl].
    apply negb_true_iff, bool_decide_eq_false in Hseen, Hexcl.
    apply IH. destruct Hinv as [Hnd Hin]. split.
    + apply NoDup_app. split; [exact Hnd|]. split; [|apply NoDup_singleton].
      intros c Hc Hcb. apply list_elem_of_singleton in Hcb. subst c.
      now destruct (Hin base Hc).
    + intros c Hc. apply elem_of_app in Hc as [Hc|Hc].
      * destruct (Hin c Hc) as [Hs He]. split; [|exact He].
        now apply elem_of_union_r.
      * apply list_elem_of_singleton in Hc. subst c. split; [|exact Hexcl].
        apply elem_of_union_l. now apply elem_of_singleton.
Qed.

(** A block keeps the invariant, asks its exchange once, and returns only
    with a list that is not empty. *)
Lemma pairs_block_inv (w : world) (x : exchange)
    (seen : gset string) (symbols : list string) :
  pairs_inv seen symbols ->
  exists l seen' symbols' returned,
    pairs_block w x seen symbols = (PairsRequested x :: l, (seen', symbols', returned))
    /\ pairs_inv seen' symbols'
    /\ (forall y, PairsRequested y ∉ l)
    /\ (returned = true -> symbols' <> []).
Proof.
  intros Hinv. unfold pairs_block.
  assert (Hone : forall y ev, (forall z, ev <> PairsRequested z) ->
                              PairsRequested y ∉ [ev]).
  { intros y ev Hev Hin. apply list_elem_of_singleton in Hin.
    now apply (Hev y). }
  assert (Hnil : forall y, PairsRequested y ∉ []).
  { intros y Hin. now apply elem_of_nil in Hin. }
  destruct (net w (Listing x)) as [|[|] body].
  - eexists _, seen, symbols, false. split; [reflexivity|].
    split; [exact Hinv|]. split; [|discriminate].
    intros y. now apply Hone.
  - destruct (obind (json body) _) as [entries|e].
    + pose proof (collect_pairs_inv x entries seen symbols Hinv) as Hinv'.
      destruct (collect_pairs x entries seen symbols) as [[seen' symbols'] [[]|e]];
        cbn [fst snd] in Hinv'.
      * destruct (truthy_list symbols') eqn:E.
        -- eexists _, seen', symbols', true. split; [reflexivity|].
           split; [exact Hinv'|]. split; [intros y; now apply Hone|].
           intros _ Hnone. rewrite Hnone in E. discriminate.
        -- eexists _, seen', symbols', false. split; [reflexivity|].
           split; [exact Hinv'|]. split; [exact Hnil|discriminate].
      * eexists _, seen', symbols', false. split; [reflexivity|].
        split; [exact Hinv'|]. split; [|discriminate].
        intros y. now apply Hone.
    + eexists _, seen, symbols, false. split; [reflexivity|].
      split; [exact Hinv|]. split; [|discriminate].
      intros y. now apply Hone.
  - eexists _, seen, symbols, false. split; [reflexivity|].
    split; [exact Hinv|]. split; [exact Hnil|discriminate].
Qed.

(** The exchanges asked in a log of binance_pairs, in order. *)
Definition pairs_requests (l : list pairs_event) : list exchange :=
  omap (fun ev => match ev with PairsRequested x => Some x | _ => None end) l.

Lemma pairs_requests_block (x : exchange) (l k : list pairs_event) :
  (forall y, PairsRequested y ∉ l) ->
  pairs_requests ((PairsRequested x :: l) ++ k) = x :: pairs_requests k.
Proof.
  intros Hl. unfold pairs_requests. cbn. f_equal.
  rewrite omap_app.
  assert (Hnone : omap (fun ev => match ev with
                                  | PairsRequested x => Some x
                                  | _ => None
                                  end) l = []).
  { induction l as [|ev l IH]; [reflexivity|]. cbn.
    destruct ev as [y| |].
    - destruct (Hl y). apply list_elem_of_here.
    - apply IH. intros y Hin. apply (Hl y). now apply list_elem_of_further.
    - apply IH. intros y Hin. apply (Hl y). now apply list_elem_of_further. }
  now rewrite Hnone.
Qed.

(** X13. Whatever the three exchanges answer, and wherever a listing
    breaks off, the list binance_pairs returns holds no base twice and no
    excluded base, ['count'] is its length, the source is ['none'] exactly
    when the list is empty, and the exchanges are asked in the order
    Binance, KuCoin, OKX, each at most once, Binance always. *)
Theorem binance_pairs_sound (w : world) :
  NoDup (p_symbols (binance_pairs w).2)
  /\ (forall c, c ∈ p_symbols (binance_pairs w).2 -> c ∉ EXCLUDE)
  /\ p_count (binance_pairs w).2 = length (p_symbols (binance_pairs w).2)
  /\ (p_source (binance_pairs w).2 = "none" <-> p_symbols (binance_pairs w).2 = [])
  /\ exists n, (1 <= n)%nat /\ pairs_requests (binance_pairs w).1 = take n exchanges.
Proof.
  unfold binance_pairs.
  destruct (pairs_block_inv w BinanceList ∅ [] pairs_inv_start)
    as (l1 & s1 & c1 & r1 & -> & I1 & Q1 & N1).
  destruct r1.
  { cbn [fst snd pairs_found p_symbols p_count p_source pairs_tag].
    destruct I1 as [Hnd Hin].
    split; [exact Hnd|]. split; [intros c Hc; apply (Hin c Hc)|].
    split; [reflexivity|]. split.
    - split; [discriminate|]. intros Hnone. now destruct (N1 eq_refl).
    - exists 1%nat. split; [lia|].
      rewrite <- (app_nil_r (PairsRequested BinanceList :: l1)).
      now rewrite pairs_requests_block. }
  destruct (pairs_block_inv w KuCoinList s1 c1 I1)
    as (l2 & s2 & c2 & r2 & -> & I2 & Q2 & N2).
  destruct r2.
  { cbn [fst snd pairs_found p_symbols p_count p_source pairs_tag].
    destruct I2 as [Hnd Hin].
    split; [exact Hnd|]. split; [intros c Hc; apply (Hin c Hc)|].
    split; [reflexivity|]. split.
    - split; [discriminate|]. intros Hnone. now destruct (N2 eq_refl).
    - exists 2%nat. split; [lia|].
      rewrite pairs_requests_block by exact Q1.
      rewrite <- (app_nil_r (PairsRequested KuCoinList :: l2)).
      now rewrite pairs_requests_block. }
  destruct (pairs_block_inv w OKXList s2 c2 I2)
    as (l3 & s3 & c3 & r3 & -> & I3 & Q3 & N3).
  assert (Hreq : pairs_requests
                   ((PairsRequested BinanceList :: l1)
                      ++ (PairsRequested KuCoinList :: l2)
                      ++ PairsRequested OKXList :: l3) = take 3 exchanges).
  { rewrite pairs_requests_block by exact Q1.
    rewrite pairs_requests_block by exact Q2.
    rewrite <- (app_nil_r (PairsRequested OKXList :: l3)).
    now rewrite pairs_requests_block. }
  destruct r3.
  { cbn [fst snd pairs_found p_symbols p_count p_source pairs_tag].
    destruct I3 as [Hnd Hin].
    split; [exact Hnd|]. split; [intros c Hc; apply (Hin c Hc)|].
    split; [reflexivity|]. split.
    - split; [discriminate|]. intros Hnone. now destruct (N3 eq_refl).
    - exists 3%nat. split; [lia|exact Hreq]. }
  cbn [fst snd p_symbols p_count p_source].
  split; [constructor|].
  split; [intros c Hc; now apply elem_of_nil in Hc|].
  split; [reflexivity|]. split; [split; reflexivity|].
  exists 3%nat. split; [lia|exact Hreq].
Qed.


(** ** The chunks of a long message (app.py, [citadel_report]) *)

(** A message is the list of its characters, as [len] and slicing see it.
    [while len(full_msg) > size: chunks.append(full_msg[:size]);
    full_msg = full_msg[size:]], then [chunks.append(full_msg)]; [n]
    bounds the number of turns of the loop. *)
Fixpoint chunk_loop {A} (size n : nat) (full_msg : list A)
    (chunks : list (list A)) : list (list A) :=
  match n with
  | O => chunks ++ [full_msg]
  | S n' =>
      if (size <? length full_msg)%nat
      then chunk_loop size n' (drop size full_msg)
             (chunks ++ [take size full_msg])
      else chunks ++ [full_msg]
  end.

(** The loop of citadel_report, which cuts at 4000 characters; a message
    of [n] characters leaves the loop after fewer than [n] turns. *)
Definition message_chunks {A} (full_msg : list A) : list (list A) :=
  chunk_loop 4000 (length full_msg) full_msg [].

Lemma chunk_loop_spec {A} (size n : nat) (full_msg : list A)
    (chunks : list (list A)) :
  (0 < size)%nat -> (length full_msg <= n)%nat ->
  exists full last,
    chunk_loop size n full_msg chunks = chunks ++ full ++ [last]
    /\ concat (full ++ [last]) = full_msg
    /\ Forall (fun c => length c = size) full
    /\ (length last <= size)%nat
    /\ (full_msg <> [] -> last <> []).
Proof.
  intros Hsize. revert full_msg chunks.
  induction n as [|n IH]; intros full_msg chunks Hlen.
  - exists [], full_msg. cbn. rewrite app_nil_r.
    split; [reflexivity|]. split; [reflexivity|]. split; [constructor|].
    split; [lia|auto].
  - cbn [chunk_loop]. destruct (size <? length full_msg)%nat eqn:E.
    + apply Nat.ltb_lt in E.
      destruct (IH (drop size full_msg)
                  (chunks ++ [take size full_msg]))
        as (full & last & -> & Hcat & Hfull & Hlast & Hne).
      { rewrite length_drop. lia. }
      exists (take size full_msg :: full), last.
      split; [now rewrite <- app_assoc|].
      split.
      { cbn [app concat]. rewrite Hcat. apply take_drop. }
      split.
      { constructor; [|exact Hfull].
        rewrite length_take. lia. }
      split; [exact Hlast|].
      intros _. apply Hne. intros Hnil.
      apply (f_equal length) in Hnil.
      rewrite length_drop in Hnil.
      cbn in Hnil. lia.
    + apply Nat.ltb_ge in E. exists [], full_msg. cbn. rewrite app_nil_r.
      split; [reflexivity|]. split; [reflexivity|]. split; [constructor|].
      split; [exact E|auto].
Qed.

(** X14. The chunks citadel_report posts to Telegram make up the message,
    in order and without loss; every chunk but the last has exactly 4000
    characters and the last has at most 4000; a message that is not empty
    gives no empty chunk. *)
Theorem message_chunks_sound {A} (full_msg : list A) :
  exists full last,
    message_chunks full_msg = full ++ [last]
    /\ concat (message_chunks full_msg) = full_msg
    /\ Forall (fun c => length c = 4000%nat) full
    /\ (length last <= 4000)%nat
    /\ (full_msg <> [] -> last <> []).
Proof.
  unfold message_chunks.
  destruct (chunk_loop_spec 4000 (length full_msg) full_msg [])
    as (full & last & Heq & Hcat & Hfull & Hlast & Hne); [lia|lia|].
  exists full, last. rewrite Heq. cbn [app]. auto.
Qed.


(** ** The symbols of a request (app.py, [crypto] and [stocks]) *)

(** [s.split(sep)] for a separator of one character. *)
Fixpoint py_split (sep : ascii) (s : string) : list string :=
  match s with
  | EmptyString => [EmptyString]
  | String c s' =>
      if Ascii.eqb c sep then EmptyString :: py_split sep s'
      else match py_split sep s' with
           | [] => [String c EmptyString]
           | piece :: pieces => String c piece :: pieces
           end
  end.

(** The characters [str.strip()] removes: tab, line feed, vertical tab,
    form feed, carriage return, the four separators 28 to 31, space. *)
Definition is_space (c : ascii) : bool :=
  let n := nat_of_ascii c in
  ((9 <=? n) && (n <=? 13) || (28 <=? n) && (n <=? 32))%nat.

Fixpoint py_lstrip (s : string) : string :=
  match s with
  | EmptyString => EmptyString
  | String c s' => if is_space c then py_lstrip s' else s
  end.

Fixpoint py_rstrip (s : string) : string :=
  match s with
  | EmptyString => EmptyString
  | String c s' =>
      match py_rstrip s' with
      | EmptyString => if is_space c then EmptyString else String c EmptyString
      | r => String c r
      end
  end.

(** [s.strip()] *)
Definition py_strip (s : string) : string := py_lstrip (py_rstrip s).

Definition upper_char (c : ascii) : ascii :=
  let n := nat_of_ascii c in
  if ((97 <=? n) && (n <=? 122))%nat then ascii_of_nat (n - 32) else c.

(** [s.upper()] *)
Fixpoint py_upper (s : string) : string :=
  match s with
  | EmptyString => EmptyString
  | String c s' => String (upper_char c) (py_upper s')
  end.

(** [[s.strip().upper() for s in symbols_param.split(',') if s.strip()][:200]] *)
Definition request_symbols (symbols_param : string) : list string :=
  py_slice_to
    (map (fun s => py_upper (py_strip s))
       (filter (fun s => truthy (VStr (py_strip s)) = true)
          (py_split "," symbols_param)))
    200.

Lemma py_split_pieces (sep : ascii) (s piece : string) :
  piece ∈ py_split sep s -> sep ∉ list_ascii_of_string piece.
Proof.
  revert piece. induction s as [|c s IH]; intros piece; cbn [py_split].
  - intros H. apply list_elem_of_singleton in H. subst piece.
    cbn. apply not_elem_of_nil.
  - destruct (Ascii.eqb c sep) eqn:E.
    + intros H. apply elem_of_cons in H as [->|H]; [|now apply IH].
      cbn. apply not_elem_of_nil.
    + apply Ascii.eqb_neq in E.
      destruct (py_split sep s) as [|p ps].
      * intros H. apply list_elem_of_singleton in H. subst piece. cbn.
        intros H. apply list_elem_of_singleton in H. congruence.
      * intros H. apply elem_of_cons in H as [->|H].
        -- cbn. intros H. apply elem_of_cons in H as [H|H]; [congruence|].
           now apply (IH p); [apply list_elem_of_here|].
        -- apply IH. now apply list_elem_of_further.
Qed.

Lemma py_lstrip_chars (s : string) (c : ascii) :
  c ∈ list_ascii_of_string (py_lstrip s) -> c ∈ list_ascii_of_string s.
Proof.
  induction s as [|d s IH]; cbn; [auto|].
  destruct (is_space d); [|auto].
  intros H. apply list_elem_of_further. now apply IH.
Qed.

Lemma py_rstrip_chars (s : string) (c : ascii) :
  c ∈ list_ascii_of_string (py_rstrip s) -> c ∈ list_ascii_of_string s.
Proof.
  induction s as [|d s IH]; cbn [py_rstrip]; [auto|].
  destruct (py_rstrip s) as [|e r].
  - destruct (is_space d); cbn.
    + intros H. now apply elem_of_nil in H.
    + intros H. apply list_elem_of_singleton in H. subst c.
      apply list_elem_of_here.
  - cbn [list_ascii_of_string] in *. intros H.
    apply elem_of_cons in H as [->|H]; [apply list_elem_of_here|].
    apply list_elem_of_further. now apply IH.
Qed.

Lemma py_upper_chars (s : string) (c : ascii) :
  c ∈ list_ascii_of_string (py_upper s) ->
  exists d, d ∈ list_ascii_of_string s /\ c = upper_char d.
Proof.
  induction s as [|d s IH]; cbn.
  - intros H. now apply elem_of_nil in H.
  - intros H. apply elem_of_cons in H as [->|H].
    + exists d. split; [apply list_elem_of_here|reflexivity].
    + destruct (IH H) as (d' & Hd & ->). exists d'.
      split; [now apply list_elem_of_further|reflexivity].
Qed.

Lemma upper_char_idem (c : ascii) : upper_char (upper_char c) = upper_char c.
Proof. destruct c as [[] [] [] [] [] [] [] []]; reflexivity. Qed.

Lemma upper_char_space (c : ascii) : is_space (upper_char c) = is_space c.
Proof. destruct c as [[] [] [] [] [] [] [] []]; reflexivity. Qed.

Lemma upper_char_comma (c : ascii) : upper_char c = ","%char -> c = ","%char.
Proof. destruct c as [[] [] [] [] [] [] [] []]; vm_compute; congruence. Qed.

Lemma py_upper_idem (s : string) : py_upper (py_upper s) = py_upper s.
Proof.
  induction s as [|c s IH]; cbn; [reflexivity|].
  now rewrite upper_char_idem, IH.
Qed.

Lemma py_lstrip_idem (s : string) : py_lstrip (py_lstrip s) = py_lstrip s.
Proof.
  induction s as [|c s IH]; cbn; [reflexivity|].
  destruct (is_space c) eqn:E; [exact IH|]. cbn. now rewrite E.
Qed.

Lemma py_rstrip_idem (s : string) : py_rstrip (py_rstrip s) = py_rstrip s.
Proof.
  induction s as [|c s IH]; cbn [py_rstrip]; [reflexivity|].
  destruct (py_rstrip s) as [|d r] eqn:E.
  - destruct (is_space c) eqn:Ec; [reflexivity|]. cbn. now rewrite Ec.
  - change (py_rstrip (String c (String d r)))
      with (match py_rstrip (String d r) with
            | EmptyString => if is_space c then EmptyString else String c EmptyString
            | String a b => String c (String a b)
            end).
    now rewrite IH.
Qed.

(** Stripping on the left keeps a string stripped on the right. *)
Lemma py_rstrip_lstrip (s : string) :
  py_rstrip s = s -> py_rstrip (py_lstrip s) = py_lstrip s.
Proof.
  induction s as [|c s IH]; cbn [py_lstrip]; [auto|].
  intros H. destruct (is_space c) eqn:Ec; [|exact H].
  apply IH. cbn [py_rstrip] in H.
  destruct (py_rstrip s) as [|d r] eqn:E.
  - rewrite Ec in H. discriminate.
  - now injection H.
Qed.

Lemma py_strip_idem (s : string) : py_strip (py_strip s) = py_strip s.
Proof.
  unfold py_strip.
  rewrite (py_rstrip_lstrip (py_rstrip s)) by apply py_rstrip_idem.
  apply py_lstrip_idem.
Qed.

Lemma py_lstrip_upper (s : string) :
  py_lstrip (py_upper s) = py_upper (py_lstrip s).
Proof.
  induction s as [|c s IH]; cbn; [reflexivity|].
  rewrite upper_char_space. now destruct (is_space c).
Qed.

Lemma py_rstrip_upper (s : string) :
  py_rstrip (py_upper s) = py_upper (py_rstrip s).
Proof.
  induction s as [|c s IH]; cbn [py_rstrip py_upper]; [reflexivity|].
  rewrite IH. destruct (py_rstrip s) as [|d r]; cbn [py_upper].
  - rewrite upper_char_space. now destruct (is_space c).
  - reflexivity.
Qed.

Lemma py_strip_upper (s : string) :
  py_strip (py_upper s) = py_upper (py_strip s).
Proof. unfold py_strip. now rewrite py_rstrip_upper, py_lstrip_upper. Qed.

Lemma py_upper_empty (s : string) : py_upper s = EmptyString -> s = EmptyString.
Proof. now destruct s. Qed.

Lemma py_split_chars (sep : ascii) (s piece : string) (c : ascii) :
  piece ∈ py_split sep s -> c ∈ list_ascii_of_string piece ->
  c ∈ list_ascii_of_string s.
Proof.
  revert piece. induction s as [|d s IH]; intros piece; cbn [py_split].
  - intros H. apply list_elem_of_singleton in H. now subst piece.
  - destruct (Ascii.eqb d sep).
    + intros H Hc. apply elem_of_cons in H as [->|H];
        [now apply elem_of_nil in Hc|].
      cbn. apply list_elem_of_further. now apply (IH piece).
    + destruct (py_split sep s) as [|p ps].
      * intros H. apply list_elem_of_singleton in H. subst piece. cbn.
        intros Hc. apply list_elem_of_singleton in Hc. subst c.
        apply list_elem_of_here.
      * intros H Hc. cbn. apply elem_of_cons in H as [->|H].
        -- cbn in Hc. apply elem_of_cons in Hc as [->|Hc];
             [apply list_elem_of_here|].
           apply list_elem_of_further, (IH p); [apply list_elem_of_here|exact Hc].
        -- apply list_elem_of_further, (IH piece);
             [now apply list_elem_of_further|exact Hc].
Qed.

Lemma py_rstrip_spaces (s : string) :
  (forall c, c ∈ list_ascii_of_string s -> is_space c = true) ->
  py_rstrip s = EmptyString.
Proof.
  induction s as [|c s IH]; cbn [py_rstrip]; [reflexivity|].
  intros H. rewrite IH.
  - rewrite (H c); [reflexivity|]. cbn. apply list_elem_of_here.
  - intros d Hd. apply H. cbn. now apply list_elem_of_further.
Qed.

(** X15. The symbols the /crypto and /stocks routes work on: at most 200;
    none is empty, none holds a comma, none begins or ends with white
    space, none holds a lower-case letter; each is a piece of the
    parameter between two commas, stripped and in upper case.  A parameter
    of commas and white space alone gives no symbol. *)
Theorem request_symbols_well_formed (symbols_param : string) :
  (length (request_symbols symbols_param) <= 200)%nat
  /\ (forall sym, sym ∈ request_symbols symbols_param ->
       sym <> EmptyString
       /\ (","%char ∉ list_ascii_of_string sym)
       /\ py_strip sym = sym
       /\ py_upper sym = sym
       /\ exists piece, piece ∈ py_split "," symbols_param
                        /\ sym = py_upper (py_strip piece))
  /\ ((forall c, c ∈ list_ascii_of_string symbols_param ->
                 c = ","%char \/ is_space c = true) ->
      request_symbols symbols_param = []).
Proof.
  unfold request_symbols, py_slice_to. split; [|split].
  - rewrite length_take. lia.
  - intros sym Hin. apply subseteq_take in Hin.
    apply list_elem_of_fmap in Hin as (piece & -> & Hin).
    apply list_elem_of_filter in Hin as [Hne Hpiece].
    cbn [truthy] in Hne. apply negb_true_iff, String.eqb_neq in Hne.
    split; [intros H; now apply py_upper_empty in H|].
    split.
    { intros H. apply py_upper_chars in H as (d & Hd & Heq).
      symmetry in Heq. apply upper_char_comma in Heq. subst d.
      unfold py_strip in Hd.
      apply py_lstrip_chars, py_rstrip_chars in Hd.
      now apply (py_split_pieces _ _ _ Hpiece). }
    split; [now rewrite py_strip_upper, py_strip_idem|].
    split; [apply py_upper_idem|].
    exists piece. now split.
  - intros Hblank.
    assert (Hnone : filter (fun s => truthy (VStr (py_strip s)) = true)
                      (py_split "," symbols_param) = []).
    { apply elem_of_nil_inv. intros piece Hin.
      apply list_elem_of_filter in Hin as [Hne Hpiece].
      cbn [truthy] in Hne. apply negb_true_iff, String.eqb_neq in Hne.
      apply Hne. unfold py_strip. rewrite py_rstrip_spaces; [reflexivity|].
      intros c Hc.
      destruct (Hblank c (py_split_chars _ _ _ _ Hpiece Hc)) as [->|Hs];
        [|exact Hs].
      now destruct (py_split_pieces _ _ _ Hpiece). }
    now rewrite Hnone.
Qed.


(** ** The /crypto route (app.py, [crypto]) *)

(** What a route prints of its own. *)
Inductive route_message : Type :=
| MsgCryptoStart (n : nat)
| MsgCryptoDone (fetched total : nat) (sources : gmap string nat)
| MsgTelegramConfigured (chat_id : string).

(** The log of a route: the events of the functions it calls, and its own
    lines. *)
Inductive route_event : Type :=
| Inner (ev : event)
| RoutePrinted (m : route_message).

(** The loop over the futures: [if data: results[sym] = data]. *)
Definition crypto_results (pairs : list (string * option crypto_data))
  : gmap string crypto_data :=
  foldl (fun results p =>
           match snd p with
           | Some data => <[fst p := data]> results
           | None => results
           end) ∅ pairs.

(** [for d in results.values(): sources[src] = sources.get(src, 0) + 1] *)
Definition count_sources (results : gmap string crypto_data) : gmap string nat :=
  map_fold (fun _ d sources =>
              <[source d := S (default O (sources !! source d))]> sources)
    ∅ results.

(** The route on the query parameters [symbols] and [limit] (the caller
    passes the defaults [''] and ['210'] for a parameter that is absent);
    the interval only shapes the URLs. *)
Definition crypto_route (w : world) (symbols_param limit_param : string)
  : globals -> list route_event * outcome (gmap string crypto_data) * globals :=
  fun g =>
    let symbols := request_symbols symbols_param in
    if negb (truthy_list symbols) then ([], Returns ∅, g)
    else
      match py_int (VStr limit_param) with
      | Raises e => ([], Raises e, g)
      | Returns limit =>
          match mmap (fetch_one_crypto w) symbols g with
          | (l, Raises e, g') =>
              (RoutePrinted (MsgCryptoStart (length symbols)) :: map Inner l,
               Raises e, g')
          | (l, Returns pairs, g') =>
              let results := crypto_results pairs in
              (RoutePrinted (MsgCryptoStart (length symbols))
                 :: map Inner l
                 ++ [RoutePrinted (MsgCryptoDone (size results) (length symbols)
                                     (count_sources results))],
               Returns results, g')
          end
      end.

(** The endpoints asked in the log of a route. *)
Definition route_requests (l : list route_event) : list endpoint :=
  omap (fun ev => match ev with
                  | Inner (Requested e) => Some e
                  | _ => None
                  end) l.

Lemma route_requests_inner (l : list event) :
  route_requests (map Inner l) = requests l.
Proof.
  induction l as [|ev l IH]; [reflexivity|].
  cbn. unfold route_requests, requests in IH. rewrite IH.
  now destruct ev.
Qed.

(** The log and the result of the resolver for one symbol; neither depends
    on the globals. *)
Definition crypto_log (w : world) (sym : string) : list event :=
  (fetch_one_crypto w sym (startup "" "")).1.1.

Definition crypto_result (w : world) (sym : string) : option crypto_data :=
  match (fetch_one_crypto w sym (startup "" "")).1.2 with
  | Returns p => snd p
  | Raises _ => None
  end.

Lemma fetch_one_crypto_log (w : world) (sym : string) (g : globals) :
  fetch_one_crypto w sym g
  = (crypto_log w sym, Returns (sym, crypto_result w sym), g).
Proof.
  destruct (fetch_one_crypto_run w sym) as (l & r & Hrun & _).
  unfold crypto_log, crypto_result. now rewrite !Hrun.
Qed.

Lemma crypto_log_requests (w : world) (sym : string) :
  (length (requests (crypto_log w sym)) <= 4)%nat.
Proof.
  destruct (fetch_one_crypto_run w sym) as (l & r & Hrun & Hr).
  unfold crypto_log. rewrite Hrun. cbn [fst].
  destruct r as [d|].
  - destruct Hr as (_ & before & a & after & Hp & _ & ->).
    rewrite length_map, length_app. cbn [length].
    apply (f_equal length) in Hp. rewrite length_app in Hp. cbn in Hp. lia.
  - rewrite Hr, length_map. cbn. lia.
Qed.

Lemma crypto_result_series (w : world) (sym : string) (d : crypto_data) :
  crypto_result w sym = Some d -> series_data d /\ exists a, source d = tag a.
Proof.
  destruct (fetch_one_crypto_run w sym) as (l & r & Hrun & Hr).
  unfold crypto_result. rewrite Hrun. cbn [fst snd]. intros ->.
  destruct Hr as (Hd & before & a & after & _ & Hsrc & _). eauto.
Qed.

Lemma mmap_fetch_one_crypto (w : world) (symbols : list string) (g : globals) :
  mmap (fetch_one_crypto w) symbols g
  = (concat (map (crypto_log w) symbols),
     Returns (map (fun sym => (sym, crypto_result w sym)) symbols), g).
Proof.
  induction symbols as [|sym symbols IH]; [reflexivity|].
  cbn [mmap map concat]. unfold mbind at 1. rewrite fetch_one_crypto_log.
  unfold mbind at 1. rewrite IH. cbn. now rewrite app_nil_r.
Qed.

Lemma crypto_results_lookup (w : world) (symbols : list string)
    (acc : gmap string crypto_data) (sym : string) (d : crypto_data) :
  foldl (fun results p =>
           match snd p with
           | Some data => <[fst p := data]> results
           | None => results
           end) acc (map (fun sym => (sym, crypto_result w sym)) symbols)
    !! sym = Some d ->
  acc !! sym = Some d \/ (sym ∈ symbols /\ crypto_result w sym = Some d).
Proof.
  revert acc. induction symbols as [|s symbols IH]; intros acc; cbn [map foldl].
  - auto.
  - intros H. apply IH in H as [H|[Hin Hr]].
    + cbn [fst snd] in H. destruct (crypto_result w s) as [data|] eqn:E;
        [|now left].
      destruct (decide (s = sym)) as [->|Hne].
      * rewrite lookup_insert_eq in H. injection H as ->.
        right. split; [apply list_elem_of_here|exact E].
      * rewrite lookup_insert_ne in H by exact Hne. now left.
    + right. split; [now apply list_elem_of_further|exact Hr].
Qed.

Lemma length_requests_concat (logs : list (list event)) (n : nat) :
  Forall (fun l => (length (requests l) <= n)%nat) logs ->
  (length (requests (concat logs)) <= n * length logs)%nat.
Proof.
  induction 1 as [|l logs Hl _ IH]; cbn [concat length]; [cbn; lia|].
  rewrite requests_app, length_app. lia.
Qed.

(** X16. The /crypto route changes no global.  Without a symbol in the
    parameter it answers with the empty object and asks no exchange,
    whatever the [limit]; with a symbol and a [limit] that is no integer
    it raises before any request; otherwise it returns.  It issues at most
    four requests per symbol, and every entry of the object it returns is
    keyed by a symbol of the request and holds a series of at least 20
    canonical rows, of type ['crypto'], from one of the four exchanges. *)
Theorem crypto_route_sound (w : world) (symbols_param limit_param : string)
    (g : globals) :
  exists l o,
    crypto_route w symbols_param limit_param g = (l, o, g)
    /\ (request_symbols symbols_param = [] -> l = [] /\ o = Returns ∅)
    /\ (forall e, request_symbols symbols_param <> [] ->
                  py_int (VStr limit_param) = Raises e ->
                  l = [] /\ o = Raises e)
    /\ (forall limit, py_int (VStr limit_param) = Returns limit ->
                      exists results, o = Returns results)
    /\ (length (route_requests l)
        <= 4 * length (request_symbols symbols_param))%nat
    /\ forall results sym d,
         o = Returns results -> results !! sym = Some d ->
         sym ∈ request_symbols symbols_param
         /\ series_data d
         /\ exists a, source d = tag a.
Proof.
  unfold crypto_route.
  destruct (request_symbols symbols_param) as [|s0 symbols] eqn:Hsyms.
  { cbn [truthy_list length Nat.eqb negb].
    eexists _, _. split; [reflexivity|]. split; [auto|].
    split; [intros e Hne; now destruct Hne|].
    split; [eauto|]. split; [cbn; lia|].
    intros results sym d [= <-] H. now rewrite lookup_empty in H. }
  cbn [truthy_list length Nat.eqb negb].
  destruct (py_int (VStr limit_param)) as [limit|e].
  2:{ eexists _, _. split; [reflexivity|]. split; [discriminate|].
      split; [intros e' _ [= <-]; auto|].
      split; [discriminate|]. split; [cbn; lia|]. discriminate. }
  rewrite mmap_fetch_one_crypto.
  eexists _, _. split; [reflexivity|]. split; [discriminate|].
  split; [discriminate|]. split; [eauto|]. split.
  - change (RoutePrinted ?m :: ?l) with ([RoutePrinted m] ++ l).
    unfold route_requests. rewrite !omap_app. fold (route_requests).
    cbn [omap list_omap app]. rewrite app_nil_r.
    fold (route_requests (map Inner (concat (map (crypto_log w) (s0 :: symbols))))).
    rewrite route_requests_inner.
    change (S (length symbols)) with (length (s0 :: symbols)).
    rewrite <- (length_map (crypto_log w) (s0 :: symbols)).
    apply length_requests_concat. apply Forall_forall.
    intros l Hl. apply list_elem_of_fmap in Hl as (sym & -> & _).
    apply crypto_log_requests.
  - intros results sym d [= <-] Hlook. unfold crypto_results in Hlook.
    apply (crypto_results_lookup w (s0 :: symbols) ∅) in Hlook
      as [Hlook|[Hin Hres]];
      [now rewrite lookup_empty in Hlook|].
    split; [exact Hin|]. exact (crypto_result_series w sym d Hres).
Qed.


(** ** The monitor's routes (app.py, [monitor_status], [monitor_config]) *)

Definition SCAN_INTERVAL_SECONDS : Z := 3600.

(** The JSON object of /monitor/status. *)
Record status : Type := Status {
  running : bool;
  scan_interval_minutes : Z;
  alert_cooldown_hours : Z;
  spike_threshold : float;
  coins_monitored : nat;
  recent_alerts : nat;
  telegram_configured : bool
}.

(** [[sym for sym, t in _last_alert_time.items()
      if now - t < ALERT_COOLDOWN_SECONDS]] *)
Definition recent (now : Q) (last : gmap string Q) : list string :=
  map fst
    (filter (fun p => Qlt_bool (now - snd p) ALERT_COOLDOWN_SECONDS = true)
       (map_to_list last)).

(** The route at the time [now], with the flag [_monitor_running] as the
    monitor thread has set it. *)
Definition monitor_status (_monitor_running : bool) (now : Q) (g : globals)
  : status :=
  {| running := _monitor_running;
     scan_interval_minutes := SCAN_INTERVAL_SECONDS / 60;
     alert_cooldown_hours := Qfloor (ALERT_COOLDOWN_SECONDS / 3600);
     spike_threshold := VOLUME_SPIKE_MULTIPLIER;
     coins_monitored := length (MONITOR_COINS g);
     recent_alerts := length (recent now (_last_alert_time g));
     telegram_configured :=
       truthy (if truthy (VStr (TELEGRAM_BOT_TOKEN g))
               then VStr (TELEGRAM_CHAT_ID g)
               else VStr (TELEGRAM_BOT_TOKEN g)) |}.

(** [v.strip()]: only strings have [strip]. *)
Definition py_strip_val (v : pyval) : outcome string :=
  match v with
  | VStr s => Returns (py_strip s)
  | _ => Raises AttributeError
  end.

(** The route on the body of the request, [None] when the body is not
    JSON; it returns the [ok] flag and the HTTP status. *)
Definition monitor_config (body : option pyval)
  : globals -> list route_event * outcome (bool * nat) * globals :=
  fun g =>
    let data := match body with
                | Some v => if truthy v then v else VDict []
                | None => VDict []
                end in
    match (t <~ py_get data "token" (VStr EmptyString) ;; py_strip_val t)%py with
    | Raises e => ([], Raises e, g)
    | Returns token =>
        match (c <~ py_get data "chat_id" (VStr EmptyString) ;; py_strip_val c)%py with
        | Raises e => ([], Raises e, g)
        | Returns chat_id =>
            if truthy (VStr token) && truthy (VStr chat_id)
            then ([RoutePrinted (MsgTelegramConfigured chat_id)],
                  Returns (true, 200%nat), with_credentials g token chat_id)
            else ([], Returns (false, 400%nat), g)
        end
    end.

Lemma recent_NoDup (now : Q) (last : gmap string Q) : NoDup (recent now last).
Proof.
  unfold recent.
  apply (sublist_NoDup _ (map fst (map_to_list last))).
  - apply NoDup_fst_map_to_list.
  - apply fmap_sublist, sublist_filter.
Qed.

Lemma elem_of_recent (now : Q) (last : gmap string Q) (sym : string) :
  sym ∈ recent now last
  <-> exists t, last !! sym = Some t
                /\ Qlt_bool (now - t) ALERT_COOLDOWN_SECONDS = true.
Proof.
  unfold recent. rewrite list_elem_of_fmap. split.
  - intros ([s t] & -> & Hin). apply list_elem_of_filter in Hin as [Hlt Hin].
    apply elem_of_map_to_list in Hin. now exists t.
  - intros (t & Hlook & Hlt). exists (sym, t). split; [reflexivity|].
    apply list_elem_of_filter. split; [exact Hlt|].
    now apply elem_of_map_to_list.
Qed.

(** X17. From 7200 seconds after the epoch on, ['recent_alerts'] of
    /monitor/status is the number of symbols a scan starting at the same
    instant would skip: the symbols counted are, each once, those for
    which check_coin's cooldown test holds.  ['telegram_configured'] is
    true exactly when both credentials are set, and ['coins_monitored'] is
    the size of the universe in use. *)
Theorem status_counts_cooldowns (_monitor_running : bool) (now : Q)
    (g : globals) :
  (ALERT_COOLDOWN_SECONDS <= now)%Q ->
  (exists syms,
      NoDup syms
      /\ recent_alerts (monitor_status _monitor_running now g) = length syms
      /\ forall sym, sym ∈ syms
                     <-> should_skip (_last_alert_time g) sym now = true)
  /\ telegram_configured (monitor_status _monitor_running now g) = configured g
  /\ coins_monitored (monitor_status _monitor_running now g)
     = length (MONITOR_COINS g).
Proof.
  intros Hnow. split; [|split].
  - exists (recent now (_last_alert_time g)).
    split; [apply recent_NoDup|]. split; [reflexivity|].
    intros sym. rewrite elem_of_recent. unfold should_skip. split.
    + intros (t & -> & Hlt). exact Hlt.
    + destruct (_last_alert_time g !! sym) as [t|]; cbn [default from_option id].
      * intros Hlt. now exists t.
      * intros Hlt. exfalso.
        assert (Hf : Qlt_bool (now - 0) ALERT_COOLDOWN_SECONDS = false).
        { apply Qlt_bool_false. lra. }
        congruence.
  - unfold configured. cbn [monitor_status telegram_configured].
    now destruct (truthy (VStr (TELEGRAM_BOT_TOKEN g))) eqn:E.
  - reflexivity.
Qed.

(** The text the body holds under [key]: [''] when the key is absent,
    nothing when the value is no string. *)
Definition text_of (d : list (string * pyval)) (key : string) : option string :=
  match assoc key d with
  | None => Some EmptyString
  | Some (VStr s) => Some s
  | Some _ => None
  end.

Lemma py_get_text (d : list (string * pyval)) (key : string) :
  (x <~ py_get (VDict d) key (VStr EmptyString) ;; py_strip_val x)%py
  = match text_of d key with
    | Some s => Returns (py_strip s)
    | None => Raises AttributeError
    end.
Proof.
  unfold text_of. cbn [py_get obind].
  destruct (assoc key d) as [[]|]; reflexivity.
Qed.

(** X18. /monitor/config on a body that is a JSON object whose token and
    chat_id are strings (an absent one counts as empty): when both are
    non-empty after stripping it answers 200, stores exactly the two
    stripped values and prints the stripped chat_id; when one is empty it
    answers 400 and changes nothing.  When one of the two values is no
    string, or the body is a true value that is no object, it raises
    AttributeError and changes nothing; without a body, or with a false
    one, it answers 400 and changes nothing.  In every case the universe
    and the cooldown dictionary are untouched, credentials that are stored
    are both non-empty and stripped, and a configured bot stays
    configured. *)
Theorem monitor_config_sound (body : option pyval) (g : globals) :
  (forall d t c,
      body = Some (VDict d) ->
      text_of d "token" = Some t -> text_of d "chat_id" = Some c ->
      monitor_config body g
      = if negb (String.eqb (py_strip t) EmptyString)
           && negb (String.eqb (py_strip c) EmptyString)
        then ([RoutePrinted (MsgTelegramConfigured (py_strip c))],
              Returns (true, 200%nat),
              with_credentials g (py_strip t) (py_strip c))
        else ([], Returns (false, 400%nat), g))
  /\ (forall d,
        body = Some (VDict d) ->
        text_of d "token" = None \/ text_of d "chat_id" = None ->
        monitor_config body g = ([], Raises AttributeError, g))
  /\ (forall v,
        body = Some v -> (forall d, v <> VDict d) ->
        monitor_config body g
        = if truthy v then ([], Raises AttributeError, g)
          else ([], Returns (false, 400%nat), g))
  /\ (body = None -> monitor_config body g = ([], Returns (false, 400%nat), g))
  /\ exists l o g',
       monitor_config body g = (l, o, g')
       /\ _last_alert_time g' = _last_alert_time g
       /\ MONITOR_COINS g' = MONITOR_COINS g
       /\ (o = Returns (true, 200%nat) ->
           configured g' = true
           /\ py_strip (TELEGRAM_BOT_TOKEN g') = TELEGRAM_BOT_TOKEN g'
           /\ py_strip (TELEGRAM_CHAT_ID g') = TELEGRAM_CHAT_ID g')
       /\ (o <> Returns (true, 200%nat) -> g' = g /\ l = [])
       /\ (configured g = true -> configured g' = true).
Proof.
  assert (Hdict : forall d,
            monitor_config (Some (VDict d)) g
            = match text_of d "token" with
              | None => ([], Raises AttributeError, g)
              | Some t =>
                  match text_of d "chat_id" with
                  | None => ([], Raises AttributeError, g)
                  | Some c =>
                      if negb (String.eqb (py_strip t) EmptyString)
                         && negb (String.eqb (py_strip c) EmptyString)
                      then ([RoutePrinted (MsgTelegramConfigured (py_strip c))],
                            Returns (true, 200%nat),
                            with_credentials g (py_strip t) (py_strip c))
                      else ([], Returns (false, 400%nat), g)
                  end
              end).
  { intros d. unfold monitor_config.
    assert (Hd : (if truthy (VDict d) then VDict d else VDict []) = VDict d)
      by (destruct d; reflexivity).
    rewrite Hd, !py_get_text.
    destruct (text_of d "token") as [t|]; [|reflexivity].
    destruct (text_of d "chat_id") as [c|]; reflexivity. }
  split; [|split; [|split; [|split]]].
  - intros d t c -> Ht Hc. now rewrite Hdict, Ht, Hc.
  - intros d -> [H|H]; rewrite Hdict, H; [reflexivity|].
    now destruct (text_of d "token").
  - intros v -> Hv. unfold monitor_config.
    destruct v as [|b|z|x|s|l|d]; try (now destruct (Hv d));
      cbn [truthy]; try reflexivity.
    + now destruct b.
    + now destruct (negb (z =? 0)%Z).
    + now destruct (negb (feq x zero)).
    + now destruct (negb (String.eqb s _)).
    + now destruct (truthy_list l).
  - now intros ->.
  - assert (Hkeep : forall o, o <> Returns (true, 200%nat) ->
              exists (l : list route_event) o' g',
                (([] : list route_event), o, g) = (l, o', g')
                /\ _last_alert_time g' = _last_alert_time g
                /\ MONITOR_COINS g' = MONITOR_COINS g
                /\ (o' = Returns (true, 200%nat) ->
                    configured g' = true
                    /\ py_strip (TELEGRAM_BOT_TOKEN g') = TELEGRAM_BOT_TOKEN g'
                    /\ py_strip (TELEGRAM_CHAT_ID g') = TELEGRAM_CHAT_ID g')
                /\ (o' <> Returns (true, 200%nat) -> g' = g /\ l = [])
                /\ (configured g = true -> configured g' = true)).
    { intros o Ho. exists [], o, g. split; [reflexivity|].
      split; [reflexivity|]. split; [reflexivity|].
      split; [intros H; now destruct Ho|]. split; auto. }
    unfold monitor_config.
    set (data := match body with
                 | Some v => if truthy v then v else VDict []
                 | None => VDict []
                 end).
    destruct (obind (py_get data "token" _) _) as [token|e] eqn:Et;
      [|apply Hkeep; discriminate].
    destruct (obind (py_get data "chat_id" _) _) as [chat_id|e] eqn:Ec;
      [|apply Hkeep; discriminate].
    destruct (truthy (VStr token) && truthy (VStr chat_id)) eqn:E;
      [|apply Hkeep; discriminate].
    eexists _, _, _. split; [reflexivity|].
    split; [reflexivity|]. split; [reflexivity|].
    split; [|split; [intros H; now destruct H|intros _; exact E]].
    intros _. split; [exact E|].
    cbn [with_credentials TELEGRAM_BOT_TOKEN TELEGRAM_CHAT_ID].
    apply obind_returns in Et as (t & _ & Ht).
    apply obind_returns in Ec as (c & _ & Hc).
    destruct t; try discriminate. destruct c; try discriminate.
    injection Ht as <-. injection Hc as <-.
    split; apply py_strip_idem.
Qed.


(** ** The index constituents (app.py, [russell2000], [sp500]) *)

Definition is_lower (c : ascii) : bool :=
  let n := nat_of_ascii c in ((97 <=? n) && (n <=? 122))%nat.

Definition is_upper (c : ascii) : bool :=
  let n := nat_of_ascii c in ((65 <=? n) && (n <=? 90))%nat.

Fixpoint string_forall (p : ascii -> bool) (s : string) : bool :=
  match s with
  | EmptyString => true
  | String c s' => p c && string_forall p s'
  end.

Fixpoint string_exists (p : ascii -> bool) (s : string) : bool :=
  match s with
  | EmptyString => false
  | String c s' => p c || string_exists p s'
  end.

(** [s.isalpha()]: not empty, and letters only. *)
Definition py_isalpha (s : string) : bool :=
  negb (String.eqb s EmptyString)
  && string_forall (fun c => is_lower c || is_upper c) s.

(** [s.isupper()]: no lower-case letter, and an upper-case one. *)
Definition py_isupper (s : string) : bool :=
  string_forall (fun c => negb (is_lower c)) s && string_exists is_upper s.

(** [s.replace(c, '')] *)
Fixpoint py_remove (c : ascii) (s : string) : string :=
  match s with
  | EmptyString => EmptyString
  | String d s' => if Ascii.eqb d c then py_remove c s' else String d (py_remove c s')
  end.

Fixpoint py_lstrip_char (c : ascii) (s : string) : string :=
  match s with
  | EmptyString => EmptyString
  | String d s' => if Ascii.eqb d c then py_lstrip_char c s' else s
  end.

Fixpoint py_rstrip_char (c : ascii) (s : string) : string :=
  match s with
  | EmptyString => EmptyString
  | String d s' =>
      match py_rstrip_char c s' with
      | EmptyString => if Ascii.eqb d c then EmptyString else String d EmptyString
      | r => String d r
      end
  end.

(** [s.strip(c)] for one character [c]. *)
Definition py_strip_char (c : ascii) (s : string) : string :=
  py_lstrip_char c (py_rstrip_char c s).

(** [ticker in (...)] *)
Definition among (ticker : string) (names : list string) : bool :=
  existsb (String.eqb ticker) names.

(** What iShares answers: the request raises, or a response arrives with
    its [ok] flag and the rows [csv.reader] yields from its text, [None]
    when the reader raises on it. *)
Inductive csv_answer : Type :=
| NoAnswer
| Answer (ok : bool) (rows : option (list (list string))).

(** [row[0].strip()] and then [.strip] of the double quote, character 34. *)
Definition first_cell (cell : string) : string :=
  py_strip_char "034"%char (py_strip cell).

(** [ticker.replace('-','').replace('.','')] *)
Definition clean (ticker : string) : string :=
  py_remove "."%char (py_remove "-"%char ticker).

Definition FOOTER : list string :=
  ["TICKER"; "NAME"; "CASH"; "USD"; "EUR"; "GBP"; "-"; EmptyString; "TOTAL"].

Definition NON_EQUITY : list string :=
  ["CASH"; "USD"; "EUR"; "GBP"; "CHF"; "JPY"; "XTSLA"; "PUT"; "CALL"].

(** The test that ends the header of the file. *)
Definition starts_data (ticker : string) : bool :=
  truthy (VStr ticker)
  && (1 <=? String.length ticker)%nat && (String.length ticker <=? 5)%nat
  && py_isalpha (clean ticker).

(** The test on an equity ticker. *)
Definition equity (ticker : string) : bool :=
  (1 <=? String.length ticker)%nat && (String.length ticker <=? 6)%nat
  && py_isalpha (clean ticker) && py_isupper (clean ticker).

(** The loop of russell2000 over the rows, with its four variables; it
    returns [tickers] as the loop leaves it. *)
Fixpoint russell_rows (rows : list (list string)) (tickers : list string)
    (seen : gset string) (data_started : bool) (consecutive_invalid : nat)
  : list string :=
  match rows with
  | [] => tickers
  | [] :: rest => russell_rows rest tickers seen data_started consecutive_invalid
  | (cell :: _) :: rest =>
      let ticker := py_upper (first_cell cell) in
      if negb data_started && negb (starts_data ticker)
      then russell_rows rest tickers seen data_started consecutive_invalid
      else if negb (truthy (VStr ticker)) || among ticker FOOTER
      then if (10 <? S consecutive_invalid)%nat then tickers
           else russell_rows rest tickers seen true (S consecutive_invalid)
      else if negb (equity ticker) then russell_rows rest tickers seen true 0
      else if among ticker NON_EQUITY then russell_rows rest tickers seen true 0
      else if bool_decide (ticker ∈ seen) then russell_rows rest tickers seen true 0
      else russell_rows rest (tickers ++ [ticker]) ({[ticker]} ∪ seen) true 0
  end.

Definition CACHE_TTL : Q := 86400.

(** The two globals of the route. *)
Record russell_globals : Type := RussellGlobals {
  _russell_cache : option (list string);
  _russell_cache_time : Q
}.

(** The response: the object with its three keys, or the error with
    status 503. *)
Inductive tickers_response : Type :=
| Tickers (tickers : list string) (count : nat) (source : string)
| Unavailable.

(** The route at the time [now]; [answer] is what iShares would answer and
    [fetched] the time read when the answer is cached.  It returns whether
    iShares was asked, the response and the globals. *)
Definition russell2000 (answer : csv_answer) (now fetched : Q)
    (g : russell_globals)
  : bool * tickers_response * russell_globals :=
  match _russell_cache g with
  | Some (t :: cache) =>
      if Qlt_bool (now - _russell_cache_time g) CACHE_TTL
      then (false, Tickers (t :: cache) (length (t :: cache)) "cache", g)
      else
        match answer with
        | Answer true (Some rows) =>
            let tickers := russell_rows rows [] ∅ false 0 in
            if (100 <? length tickers)%nat
            then (true, Tickers tickers (length tickers) "ishares",
                  {| _russell_cache := Some tickers; _russell_cache_time := fetched |})
            else (true, Unavailable, g)
        | _ => (true, Unavailable, g)
        end
  | _ =>
      match answer with
      | Answer true (Some rows) =>
          let tickers := russell_rows rows [] ∅ false 0 in
          if (100 <? length tickers)%nat
          then (true, Tickers tickers (length tickers) "ishares",
                {| _russell_cache := Some tickers; _russell_cache_time := fetched |})
          else (true, Unavailable, g)
      | _ => (true, Unavailable, g)
      end
  end.

(** The loop of sp500. *)
Fixpoint sp500_rows (rows : list (list string)) (tickers : list string)
    (started : bool) : list string :=
  match rows with
  | [] => tickers
  | [] :: rest => sp500_rows rest tickers started
  | (cell :: _) :: rest =>
      let ticker := first_cell cell in
      if negb started
         && negb (py_isupper ticker
                  && (1 <=? String.length ticker)%nat
                  && (String.length ticker <=? 5)%nat
                  && py_isalpha ticker)
      then sp500_rows rest tickers started
      else if truthy (VStr ticker) && py_isupper ticker && py_isalpha ticker
              && negb (among ticker ["CASH"; "USD"])
      then sp500_rows rest (tickers ++ [ticker]) true
      else sp500_rows rest tickers true
  end.

(** The route: [{'tickers': tickers[:505], 'count': len(tickers)}], or the
    error with status 503. *)
Definition sp500 (answer : csv_answer) : option (list string * nat) :=
  match answer with
  | Answer true (Some rows) =>
      let tickers := sp500_rows rows [] false in
      Some (py_slice_to tickers 505, length tickers)
  | _ => None
  end.

(** A ticker russell2000 lets through. *)
Definition listed_ticker (ticker : string) : Prop :=
  equity ticker = true /\ among ticker NON_EQUITY = false
  /\ among ticker FOOTER = false /\ py_upper ticker = ticker.

Lemma russell_rows_inv (rows : list (list string)) (tickers : list string)
    (seen : gset string) (data_started : bool) (consecutive_invalid : nat) :
  NoDup tickers ->
  (forall t, t ∈ tickers -> t ∈ seen) ->
  Forall listed_ticker tickers ->
  NoDup (russell_rows rows tickers seen data_started consecutive_invalid)
  /\ Forall listed_ticker
       (russell_rows rows tickers seen data_started consecutive_invalid).
Proof.
  revert tickers seen data_started consecutive_invalid.
  induction rows as [|row rest IH];
    intros tickers seen data_started consecutive_invalid Hnd Hseen Hall.
  - now split.
  - cbn [russell_rows]. destruct row as [|cell cells]; [now apply IH|].
    set (ticker := py_upper (first_cell cell)).
    destruct (negb data_started && negb (starts_data ticker));
      [now apply IH|].
    destruct (negb (truthy (VStr ticker)) || among ticker FOOTER) eqn:Ef.
    { destruct (10 <? S consecutive_invalid)%nat; [now split|now apply IH]. }
    destruct (negb (equity ticker)) eqn:Ee; [now apply IH|].
    destruct (among ticker NON_EQUITY) eqn:En; [now apply IH|].
    destruct (bool_decide (ticker ∈ seen)) eqn:Es; [now apply IH|].
    apply bool_decide_eq_false in Es.
    apply orb_false_iff in Ef as [_ Ef]. apply negb_false_iff in Ee.
    apply IH.
    + apply NoDup_app. split; [exact Hnd|]. split; [|apply NoDup_singleton].
      intros t Ht Htt. apply list_elem_of_singleton in Htt. subst t.
      apply Es. now apply Hseen.
    + intros t Ht. apply elem_of_app in Ht as [Ht|Ht].
      * apply elem_of_union_r. now apply Hseen.
      * apply list_elem_of_singleton in Ht. subst t.
        apply elem_of_union_l. now apply elem_of_singleton.
    + apply Forall_app. split; [exact Hall|].
      apply Forall_cons_2; [|apply Forall_nil_2].
      split; [exact Ee|]. split; [exact En|]. split; [exact Ef|].
      apply py_upper_idem.
Qed.

(** The cache holds nothing, or a list the route once fetched. *)
Definition cache_sound (g : russell_globals) : Prop :=
  match _russell_cache g with
  | None => True
  | Some cache =>
      NoDup cache /\ Forall listed_ticker cache /\ (100 < length cache)%nat
  end.

(** X19. /russell2000 keeps its cache sound, and every list it answers
    with, from the cache or from iShares, holds more than 100 tickers,
    none twice, each an upper-case equity ticker of 1 to 6 characters
    outside the excluded names, with ['count'] its length.  While the
    cache is younger than 86400 seconds iShares is not asked and the globals
    stay as they are; an answer 503 leaves the globals as they are, so a
    failed refresh neither clears nor renews the cache. *)
Theorem russell2000_sound (answer : csv_answer) (now fetched : Q)
    (g : russell_globals) :
  cache_sound g ->
  cache_sound (russell2000 answer now fetched g).2
  /\ (forall tickers count source,
        (russell2000 answer now fetched g).1.2 = Tickers tickers count source ->
        NoDup tickers /\ Forall listed_ticker tickers
        /\ (100 < length tickers)%nat /\ count = length tickers
        /\ (source = "cache" \/ source = "ishares"))
  /\ (forall cache,
        _russell_cache g = Some cache ->
        (now - _russell_cache_time g < CACHE_TTL)%Q ->
        russell2000 answer now fetched g = (false, Tickers cache (length cache) "cache", g))
  /\ ((russell2000 answer now fetched g).1.2 = Unavailable ->
      (russell2000 answer now fetched g).2 = g /\ (russell2000 answer now fetched g).1.1 = true).
Proof.
  intros Hg.
  assert (Hfetch : forall rows,
             NoDup (russell_rows rows [] ∅ false 0)
             /\ Forall listed_ticker (russell_rows rows [] ∅ false 0)).
  { intros rows. apply russell_rows_inv; [constructor| |constructor].
    intros t Ht. now apply elem_of_nil in Ht. }
  assert (Hmiss :
    cache_sound
      (match answer with
       | Answer true (Some rows) =>
           let tickers := russell_rows rows [] ∅ false 0 in
           if (100 <? length tickers)%nat
           then (true, Tickers tickers (length tickers) "ishares",
                 {| _russell_cache := Some tickers; _russell_cache_time := fetched |})
           else (true, Unavailable, g)
       | _ => (true, Unavailable, g)
       end).2
    /\ (forall tickers count source,
          (match answer with
           | Answer true (Some rows) =>
               let tickers := russell_rows rows [] ∅ false 0 in
               if (100 <? length tickers)%nat
               then (true, Tickers tickers (length tickers) "ishares",
                     {| _russell_cache := Some tickers; _russell_cache_time := fetched |})
               else (true, Unavailable, g)
           | _ => (true, Unavailable, g)
           end).1.2 = Tickers tickers count source ->
          NoDup tickers /\ Forall listed_ticker tickers
          /\ (100 < length tickers)%nat /\ count = length tickers
          /\ (source = "cache" \/ source = "ishares"))
    /\ ((match answer with
         | Answer true (Some rows) =>
             let tickers := russell_rows rows [] ∅ false 0 in
             if (100 <? length tickers)%nat
             then (true, Tickers tickers (length tickers) "ishares",
                   {| _russell_cache := Some tickers; _russell_cache_time := fetched |})
             else (true, Unavailable, g)
         | _ => (true, Unavailable, g)
         end).1.2 = Unavailable ->
        (match answer with
         | Answer true (Some rows) =>
             let tickers := russell_rows rows [] ∅ false 0 in
             if (100 <? length tickers)%nat
             then (true, Tickers tickers (length tickers) "ishares",
                   {| _russell_cache := Some tickers; _russell_cache_time := fetched |})
             else (true, Unavailable, g)
         | _ => (true, Unavailable, g)
         end).2 = g
        /\ (match answer with
            | Answer true (Some rows) =>
                let tickers := russell_rows rows [] ∅ false 0 in
                if (100 <? length tickers)%nat
                then (true, Tickers tickers (length tickers) "ishares",
                      {| _russell_cache := Some tickers; _russell_cache_time := fetched |})
                else (true, Unavailable, g)
            | _ => (true, Unavailable, g)
            end).1.1 = true)).
  { destruct answer as [|[|] [rows|]]; cbn zeta;
      try (split; [exact Hg|]; split; [discriminate|]; now split).
    destruct (Hfetch rows) as [Hnd Hall].
    destruct (100 <? length (russell_rows rows [] ∅ false 0))%nat eqn:E.
    - apply Nat.ltb_lt in E. split; [now split|]. split; [|discriminate].
      intros tickers count source [= <- <- <-]. auto 10.
    - split; [exact Hg|]. split; [discriminate|]. now split. }
  destruct Hmiss as (M1 & M2 & M3).
  unfold russell2000. unfold cache_sound in Hg.
  destruct (_russell_cache g) as [[|t cache]|] eqn:Ec.
  - split; [exact M1|]. split; [exact M2|]. split; [|exact M3].
    intros cache [= <-] _. destruct Hg as (_ & _ & Hlen). cbn in Hlen. lia.
  - destruct (Qlt_bool (now - _russell_cache_time g) CACHE_TTL) eqn:Ef.
    + cbn [fst snd]. split; [unfold cache_sound; now rewrite Ec|].
      split; [|split; [|discriminate]].
      * intros tickers count source [= <- <- <-].
        destruct Hg as (Hnd & Hall & Hlen). auto 10.
      * now intros cache' [= <-] _.
    + split; [exact M1|]. split; [exact M2|]. split; [|exact M3].
      intros cache' _ Hlt. apply Qlt_bool_true in Hlt. congruence.
  - split; [exact M1|]. split; [exact M2|]. split; [|exact M3]. discriminate.
Qed.

Lemma sp500_rows_inv (rows : list (list string)) (tickers : list string)
    (started : bool) :
  Forall (fun t => py_isupper t = true /\ py_isalpha t = true
                   /\ among t ["CASH"; "USD"] = false) tickers ->
  Forall (fun t => py_isupper t = true /\ py_isalpha t = true
                   /\ among t ["CASH"; "USD"] = false)
    (sp500_rows rows tickers started).
Proof.
  revert tickers started. induction rows as [|row rest IH];
    intros tickers started Hall; [exact Hall|].
  cbn [sp500_rows]. destruct row as [|cell cells]; [now apply IH|].
  destruct (negb started && _); [now apply IH|].
  destruct (truthy (VStr (first_cell cell)) && py_isupper (first_cell cell)
            && py_isalpha (first_cell cell)
            && negb (among (first_cell cell) ["CASH"; "USD"])) eqn:E;
    [|now apply IH].
  apply andb_true_iff in E as [E E4]. apply andb_true_iff in E as [E E3].
  apply andb_true_iff in E as [_ E2]. apply negb_true_iff in E4.
  apply IH, Forall_app. split; [exact Hall|].
  apply Forall_cons_2; [auto|apply Forall_nil_2].
Qed.

(** X20. /sp500 answers with at most 505 tickers, each of upper-case
    letters only and none of them CASH or USD; ['count'] is the number of
    tickers found, not of those listed: the list is the first 505 of them,
    and is complete exactly when ['count'] is at most 505.  With iShares
    unreachable, answering with an error status, or with a text the CSV
    reader fails on, the route answers 503. *)
Theorem sp500_sound (answer : csv_answer) :
  (forall tickers count,
      sp500 answer = Some (tickers, count) ->
      length tickers = Nat.min 505 count
      /\ Forall (fun t => py_isupper t = true /\ py_isalpha t = true
                          /\ among t ["CASH"; "USD"] = false) tickers
      /\ exists rows, answer = Answer true (Some rows)
                      /\ tickers = take 505 (sp500_rows rows [] false)
                      /\ count = length (sp500_rows rows [] false))
  /\ (sp500 answer = None <->
      answer = NoAnswer
      \/ (exists rows, answer = Answer false rows)
      \/ answer = Answer true None).
Proof.
  split.
  - intros tickers count H. unfold sp500 in H.
    destruct answer as [|[|] [rows|]]; try discriminate.
    assert (Ht : tickers = take 505 (sp500_rows rows [] false))
      by (unfold py_slice_to in H; congruence).
    assert (Hc : count = length (sp500_rows rows [] false)) by congruence.
    clear H. subst tickers count. split; [apply length_take|].
    split.
    + apply Forall_take, sp500_rows_inv. constructor.
    + now exists rows.
  - unfold sp500. destruct answer as [|[|] [rows|]]; split; intros H;
      try reflexivity; try discriminate; eauto.
    + destruct H as [H|[(r & H)|H]]; discriminate.
Qed.


End Pipeline.


(** * Examples *)

(** C2 at two short series: the empty one, and 21 rows none of which is
    even a list. *)
Lemma detect_short_series_absent_witness :
  detect_volume_spike plain_float naive_sum "BTC" [] = Returns None
  /\ detect_volume_spike plain_float naive_sum "BTC" (replicate 21 VNone) = Returns None.
Proof.
  split.
  - apply (detect_short_series_absent plain_float naive_sum "BTC" []). simpl. lia.
  - apply (detect_short_series_absent plain_float naive_sum "BTC" (replicate 21 VNone)).
    simpl. lia.
Defined.

(** ** A canonical series *)

(** 21 calm bars, one of them with the lowest low, then the current bar. *)
Definition calm_bar : candle :=
  {| c_timestamp := 0; c_open := float_of_Z 10; c_high := float_of_Z 11;
     c_low := float_of_Z 9; c_close := float_of_Z 10;
     c_volume := float_of_Z 100 |}.

Definition dip_bar : candle :=
  {| c_timestamp := 0; c_open := float_of_Z 10; c_high := float_of_Z 11;
     c_low := float_of_Z 8; c_close := float_of_Z 10;
     c_volume := float_of_Z 100 |}.

Definition last_bar (close volume : float) : candle :=
  {| c_timestamp := 0; c_open := float_of_Z 10; c_high := float_of_Z 11;
     c_low := float_of_Z 10; c_close := close; c_volume := volume |}.

Definition series (close volume : float) : list candle :=
  replicate 10 calm_bar ++ [dip_bar] ++ replicate 10 calm_bar
    ++ [last_bar close volume].




(** The signal of that series is (2.0, 30.0), whichever way [sum] adds. *)
Example detect_series_signal :
  detect_volume_spike plain_float naive_sum "BTC"
    (map canonical (series (nearest (104 # 10)) (float_of_Z 200)))
  = Returns (Some {| ratio := two; pct_from_low := float_of_Z 30 |})
  /\ detect_volume_spike plain_float neumaier_sum "BTC"
       (map canonical (series (nearest (104 # 10)) (float_of_Z 200)))
     = Returns (Some {| ratio := two; pct_from_low := float_of_Z 30 |}).
Proof. split; vm_compute; reflexivity. Qed.




(** The percentage is rounded as computed: with a lowest low of 2.5 and a
    close of 3.21875 the close stands exactly 28.75% above the low, the
    code computes 28.749999999999996 and reports 28.7. *)
Definition tie_bar (close volume : float) : candle :=
  {| c_timestamp := 0; c_open := float_of_Z 3; c_high := float_of_Z 4;
     c_low := nearest (25 # 10); c_close := close; c_volume := volume |}.

Definition tie_series : list candle :=
  replicate 21 (tie_bar (nearest (321875 # 100000)) (float_of_Z 100))
    ++ [tie_bar (nearest (321875 # 100000)) (float_of_Z 200)].

Example detect_rounds_computed_percentage :
  detect_volume_spike plain_float naive_sum "BTC" (map canonical tie_series)
  = Returns (Some {| ratio := two; pct_from_low := nearest (287 # 10) |})
  /\ (exact_pct (map c_close tie_series) (25 # 10) == 2875 # 100)%Q.
Proof. split; vm_compute; reflexivity. Qed.

(** C3 at a series that did not trade before the current bar. *)
Definition idle_series : list candle :=
  replicate 21 {| c_timestamp := 0; c_open := float_of_Z 10;
                  c_high := float_of_Z 11; c_low := float_of_Z 9;
                  c_close := float_of_Z 10; c_volume := zero |}
    ++ [last_bar (float_of_Z 10) (float_of_Z 200)].

Lemma detect_guards_ratio_division_witness :
  detect_body plain_float naive_sum (map canonical idle_series) = Returns None
  /\ detect_volume_spike plain_float naive_sum "BTC" (map canonical idle_series)
     = Returns None.
Proof.
  apply (proj1 (detect_guards_ratio_division plain_float naive_sum "BTC") idle_series).
  - vm_compute. lia.
  - vm_compute. reflexivity.
Defined.

(** A bar of the volume [v]. *)
Definition volume_bar (v : float) : candle :=
  {| c_timestamp := 0; c_open := float_of_Z 10; c_high := float_of_Z 11;
     c_low := float_of_Z 9; c_close := float_of_Z 10; c_volume := v |}.

(** Volumes that cancel: the 20 bars before the current one trade -2, -1,
    1, 7e40, -3e20, 3e20, -7e40, 1 and then nothing, the current bar 1. *)
Definition cancelling : list candle :=
  map volume_bar
    ([zero; float_of_Z (-2); float_of_Z (-1); float_of_Z 1;
      float_of_Z (7 * 10 ^ 40); float_of_Z (-3 * 10 ^ 20);
      float_of_Z (3 * 10 ^ 20); float_of_Z (-7 * 10 ^ 40); float_of_Z 1]
     ++ replicate 12 zero ++ [float_of_Z 1]).

(** The claim of C3 read in exact arithmetic fails at [cancelling]: the
    mean of the 20 volumes is -1/20, but [sum] returns 1.0, with
    compensation as without, so the code computes a mean of 0.05, divides
    and returns a signal of ratio 20.0. *)
Lemma guard_claim_fails :
  ~ guard_claim (detect_volume_spike plain_float naive_sum "BTC") cancelling
  /\ ~ guard_claim (detect_volume_spike plain_float neumaier_sum "BTC") cancelling.
Proof.
  split; intros H;
    (assert (Hd := H ltac:(vm_compute; lia) ltac:(vm_compute; discriminate)));
    vm_compute in Hd; discriminate Hd.
Qed.

Example detect_cancelling_signal :
  (exact_mean 20 (map c_volume cancelling) == - (1 # 20))%Q
  /\ detect_volume_spike plain_float naive_sum "BTC" (map canonical cancelling)
     = Returns (Some {| ratio := float_of_Z 20; pct_from_low := nearest (111 # 10) |})
  /\ detect_volume_spike plain_float neumaier_sum "BTC" (map canonical cancelling)
     = Returns (Some {| ratio := float_of_Z 20; pct_from_low := nearest (111 # 10) |}).
Proof. repeat split; vm_compute; reflexivity. Qed.

(** ** A scan of five symbols *)

(** A KuCoin row, [[time, open, close, high, low, vol, turnover]], and an
    OKX row, [[ts, open, high, low, close, vol]], as the exchanges send
    them: strings. *)
Definition kucoin_raw (close low vol : string) : pyval :=
  VList [VStr "1700000000"; VStr "10"; VStr close; VStr "11"; VStr low;
         VStr vol; VStr "0"].

Definition okx_raw (close low vol : string) : pyval :=
  VList [VStr "1700000000000"; VStr "10"; VStr "11"; VStr low; VStr close;
         VStr vol].

(** [n] rows, newest first: the current bar trades [vol], the bars before
    it 100 each. *)
Definition rows_with (raw : string -> string -> string -> pyval) (n : nat)
    (vol : string) : list pyval :=
  raw "10" "9" vol :: replicate (n - 1) (raw "10" "9" "100").

Definition payload (rows : list pyval) : option pyval :=
  Some (VDict [("code", VStr "0"); ("data", VList rows)]).

Definition five_symbols : world :=
  {| net := fun e =>
       match e with
       | ScanCandles KuCoin "AAA" => Resp true (payload (rows_with kucoin_raw 22 "190"))
       | ScanCandles KuCoin "CCC" => Resp true (payload (rows_with kucoin_raw 22 "320"))
       | ScanCandles KuCoin "DDD" => Resp true (payload (rows_with kucoin_raw 22 "210"))
       | ScanCandles KuCoin "EEE" => Resp true (payload (rows_with kucoin_raw 22 "100"))
       | TelegramSend => Resp true None
       | _ => ConnError
       end |}.

Definition fresh (coins : list string) (token chat_id : string) : globals :=
  {| _last_alert_time := ∅; MONITOR_COINS := coins;
     TELEGRAM_BOT_TOKEN := token; TELEGRAM_CHAT_ID := chat_id |}.

Definition five : list string := ["AAA"; "BBB"; "CCC"; "DDD"; "EEE"].

Definition scan_time : Q := 1700000000.

Definition five_scan : list event * outcome unit * globals :=
  run_monitor_scan plain_float plain_int naive_sum stable_desc five_symbols scan_time (fresh five "token" "chat").

Definition five_batch : list alert :=
  Eval vm_compute in
    py_slice_to
      (stable_desc
         (positives
            (scan_results plain_float plain_int naive_sum five_symbols scan_time
               (fresh five "token" "chat")))) 10.

Ltac elem_of_list :=
  repeat first [ apply list_elem_of_here | apply list_elem_of_further ].

Ltac not_elem_of_list H :=
  repeat (apply elem_of_cons in H as [H|H]; [discriminate H|]);
  now apply elem_of_nil in H.

(** The scan of five symbols: three of them fire, with ratios 1.9, 3.2
    and 2.1 in this order of the universe, and are listed as 3.2, 2.1,
    1.9. *)
Example five_batch_listed :
  Handed five_batch ∈ five_scan.1.1
  /\ map a_sym five_batch = ["CCC"; "DDD"; "AAA"]
  /\ map a_spike five_batch
     = [nearest (32 # 10); nearest (21 # 10); nearest (19 # 10)].
Proof.
  split; [vm_compute; elem_of_list|]. split; vm_compute; reflexivity.
Qed.

(** ** A scan with a volume that is not a number *)

(** 22 KuCoin rows, newest first: the current bar trades 250, the bar
    before it 100, and the bar before that reports the volume 'nan'. *)
Definition nan_rows : list pyval :=
  kucoin_raw "10" "9" "250" :: kucoin_raw "10" "9" "100"
    :: kucoin_raw "10" "9" "nan" :: replicate 19 (kucoin_raw "10" "9" "100").

Definition three : list string := ["AAA"; "BBB"; "CCC"].

Definition nan_symbols : world :=
  {| net := fun e =>
       match e with
       | ScanCandles KuCoin "AAA" => Resp true (payload (rows_with kucoin_raw 22 "190"))
       | ScanCandles KuCoin "BBB" => Resp true (payload nan_rows)
       | ScanCandles KuCoin "CCC" => Resp true (payload (rows_with kucoin_raw 22 "320"))
       | TelegramSend => Resp true None
       | _ => ConnError
       end |}.

Definition nan_alert : alert :=
  {| a_sym := "BBB"; a_spike := S754_nan; a_pct_from_low := nearest (111 # 10);
     a_price := VFloat (float_of_Z 10); a_source := "KuCoin" |}.

(** C8. When no ratio of a scan is NaN, the batch handed to Telegram is
    sorted by ratio, largest first, holds at most 10 alerts and is a top
    part of the scan's alerts; three alerts with ratios 1.9, 3.2 and 2.1
    are listed as 3.2, 2.1, 1.9.  But the detector lets a mean volume that
    is not a number through its tests: in the scan of "AAA", "BBB" and
    "CCC", where one bar of "BBB" reports the volume 'nan', the alerts
    have the ratios 1.9, nan and 3.2, whichever way [sum] adds, and the
    batch handed over holds the three and is not in descending order,
    whatever [list.sort] makes of them. *)
Theorem batch_descending_unless_nan (sort_desc : list alert -> list alert) :
  (forall l, sort_desc l ≡ₚ l) ->
  (forall l, ordered_keys l -> sort_desc l = stable_desc l) ->
  (forall parse_float parse_int py_sum w now g batch,
      Handed batch
      ∈ (run_monitor_scan parse_float parse_int py_sum sort_desc w now g).1.1 ->
      ordered_keys (positives (scan_results parse_float parse_int py_sum w now g)) ->
      StronglySorted ratio_desc batch
      /\ (length batch <= 10)%nat
      /\ exists rest,
           batch ++ rest
           ≡ₚ positives (scan_results parse_float parse_int py_sum w now g)
           /\ forall a b, a ∈ batch -> b ∈ rest -> ratio_desc a b)
  /\ (forall a1 a2 a3 : alert,
        a_spike a1 = nearest (19 # 10) -> a_spike a2 = nearest (32 # 10) ->
        a_spike a3 = nearest (21 # 10) ->
        py_slice_to (sort_desc [a1; a2; a3]) 10 = [a2; a3; a1])
  /\ (forall py_sum,
        py_sum = naive_sum \/ py_sum = neumaier_sum ->
        map a_spike
          (positives (scan_results plain_float plain_int py_sum nan_symbols
                        scan_time (fresh three "token" "chat")))
        = [nearest (19 # 10); S754_nan; nearest (32 # 10)]
        /\ exists batch,
             Handed batch
             ∈ (run_monitor_scan plain_float plain_int py_sum sort_desc
                  nan_symbols scan_time (fresh three "token" "chat")).1.1
             /\ batch
                ≡ₚ positives (scan_results plain_float plain_int py_sum
                                nan_symbols scan_time (fresh three "token" "chat"))
             /\ ~ StronglySorted ratio_desc batch).
Proof.
  intros Hperm Hstable. split; [|split].
  - intros parse_float parse_int py_sum w now g batch Hin Hkeys.
    exact (batch_sorted_top_ten parse_float parse_int py_sum sort_desc
             Hperm Hstable w now g batch Hin Hkeys).
  - exact (batch_of_three sort_desc Hstable).
  - intros py_sum Hsum.
    assert (Halerts :
              positives (scan_results plain_float plain_int py_sum nan_symbols
                           scan_time (fresh three "token" "chat"))
              = [ {| a_sym := "AAA"; a_spike := nearest (19 # 10);
                     a_pct_from_low := nearest (111 # 10);
                     a_price := VFloat (float_of_Z 10); a_source := "KuCoin" |};
                  nan_alert;
                  {| a_sym := "CCC"; a_spike := nearest (32 # 10);
                     a_pct_from_low := nearest (111 # 10);
                     a_price := VFloat (float_of_Z 10); a_source := "KuCoin" |} ])
      by (destruct Hsum as [->| ->]; vm_compute; reflexivity).
    split; [rewrite Halerts; vm_compute; reflexivity|].
    apply (batch_unsorted plain_float plain_int py_sum sort_desc Hperm
             nan_symbols scan_time (fresh three "token" "chat") nan_alert).
    + rewrite Halerts. elem_of_list.
    + reflexivity.
    + rewrite Halerts. cbn [length]. lia.
Qed.

(** C8 with the insertion sort in the place of [list.sort]: the batch of
    the scan lists the ratios as 1.9, nan, 3.2. *)
Lemma batch_descending_unless_nan_witness :
  (exists batch,
      Handed batch
      ∈ (run_monitor_scan plain_float plain_int naive_sum stable_desc
           nan_symbols scan_time (fresh three "token" "chat")).1.1
      /\ batch
         ≡ₚ positives (scan_results plain_float plain_int naive_sum
                         nan_symbols scan_time (fresh three "token" "chat"))
      /\ ~ StronglySorted ratio_desc batch)
  /\ map a_spike
       (py_slice_to
          (stable_desc
             (positives (scan_results plain_float plain_int naive_sum
                           nan_symbols scan_time (fresh three "token" "chat"))))
          10)
     = [nearest (19 # 10); S754_nan; nearest (32 # 10)].
Proof.
  split; [|vm_compute; reflexivity].
  apply (proj2 (proj2 (proj2 (batch_descending_unless_nan stable_desc
                                stable_desc_perm (fun l _ => eq_refl)))
                 naive_sum (or_introl eq_refl))).
Defined.

(** The claim of C4 as the spec words it fails at the same scan run without
    credentials: nothing is posted to Telegram, and the dictionary is
    written all the same. *)
Lemma cooldown_written_without_send :
  ~ updated_only_if_sent plain_float plain_int naive_sum stable_desc five_symbols scan_time (fresh five "" "").
Proof.
  intros H. destruct H as [Hsent _].
  - exists "AAA", scan_time. vm_compute. elem_of_list.
  - vm_compute in Hsent. not_elem_of_list Hsent.
Qed.

(** C4 as amended, at the same scan: "EEE" did not fire and keeps its
    (absent) entry. *)
Lemma cooldown_written_with_handoff_witness :
  _last_alert_time
    (run_monitor_scan plain_float plain_int naive_sum stable_desc five_symbols scan_time (fresh five "" "")).2
    !! "EEE"
  = None.
Proof.
  apply (proj2 (proj2 (cooldown_written_with_handoff plain_float plain_int naive_sum stable_desc
                         five_symbols scan_time (fresh five "" ""))) "EEE").
  vm_compute. intros H. not_elem_of_list H.
Defined.

(** ** A scan of eleven symbols *)

(** Every symbol fires; "S11" has the smallest ratio. *)
Definition eleven : list string :=
  ["S01"; "S02"; "S03"; "S04"; "S05"; "S06"; "S07"; "S08"; "S09"; "S10"; "S11"].

Definition eleven_symbols : world :=
  {| net := fun e =>
       match e with
       | ScanCandles KuCoin "S11" => Resp true (payload (rows_with kucoin_raw 22 "185"))
       | ScanCandles KuCoin _ => Resp true (payload (rows_with kucoin_raw 22 "190"))
       | _ => ConnError
       end |}.

Definition slowest : alert :=
  {| a_sym := "S11"; a_spike := nearest (185 # 100);
     a_pct_from_low := nearest (111 # 10);
     a_price := VFloat (float_of_Z 10); a_source := "KuCoin" |}.

(** C10 at the scan of eleven symbols: "S11" is stamped although the
    message lists the ten others only, and Telegram's answer (here: the
    posting raises, against a posting that is accepted) changes nothing. *)
Lemma cooldown_regardless_of_delivery_witness :
  _last_alert_time
    (run_monitor_scan plain_float plain_int naive_sum stable_desc eleven_symbols scan_time
       (fresh eleven "token" "chat")).2 !! "S11"
  = Some scan_time
  /\ (forall batch,
        Handed batch
        ∈ (run_monitor_scan plain_float plain_int naive_sum stable_desc eleven_symbols scan_time
             (fresh eleven "token" "chat")).1.1 ->
        "S11" ∉ map a_sym batch)
  /\ _last_alert_time
       (run_monitor_scan plain_float plain_int naive_sum stable_desc
          (with_telegram eleven_symbols (Resp true None)) scan_time
          (with_credentials (fresh eleven "token" "chat") "" "")).2
     = _last_alert_time
         (run_monitor_scan plain_float plain_int naive_sum stable_desc eleven_symbols scan_time
            (fresh eleven "token" "chat")).2.
Proof.
  destruct (cooldown_regardless_of_delivery plain_float plain_int naive_sum stable_desc eleven_symbols
              scan_time (fresh eleven "token" "chat") (Resp true None) "" "")
    as (Hsame & _ & Hstamped).
  split; [|split].
  - apply (Hstamped slowest). vm_compute. elem_of_list.
  - intros batch Hin.
    apply handed_batch in Hin as [_ ->].
    vm_compute. intros H. not_elem_of_list H.
  - exact Hsame.
Defined.

(** ** The resolver on a short first answer *)

(** KuCoin answers with 19 rows, OKX with 22; Binance is not reachable. *)
Definition short_kucoin : world :=
  {| net := fun e =>
       match e with
       | Candles KuCoin _ => Resp true (payload (rows_with kucoin_raw 19 "200"))
       | Candles OKX _ => Resp true (payload (rows_with okx_raw 22 "200"))
       | _ => ConnError
       end |}.

Definition okx_series : list pyval :=
  replicate 21
    (VList [VInt 1700000000000; VFloat (float_of_Z 10); VFloat (float_of_Z 11); VFloat (float_of_Z 9); VFloat (float_of_Z 10);
            VFloat (float_of_Z 100)])
  ++ [VList [VInt 1700000000000; VFloat (float_of_Z 10); VFloat (float_of_Z 11); VFloat (float_of_Z 9); VFloat (float_of_Z 10);
             VFloat (float_of_Z 200)]].

(** C6 at [short_kucoin]. *)
Lemma resolver_skips_short_answers_witness :
  fetch_one_crypto plain_float plain_int short_kucoin "BTC" (startup "" "")
  = ([Requested (Candles KuCoin "BTC"); Requested (Candles OKX "BTC")],
     Returns ("BTC", Some {| klines := okx_series; type_ := "crypto";
                             source := "okx" |}),
     startup "" "")
  /\ (20 <= length okx_series)%nat.
Proof.
  apply (proj1 (resolver_skips_short_answers plain_float plain_int naive_sum short_kucoin
                  "BTC" (startup "" ""))
           [] [BinanceSpot; BinanceFutures] OKX
           (rows_with kucoin_raw 19 "200") (rows_with okx_raw 22 "200")
           okx_series (fun _ => [])).
  - reflexivity.
  - eexists. split; reflexivity.
  - vm_compute. lia.
  - intros b Hb. now apply elem_of_nil in Hb.
  - eexists. split; reflexivity.
  - vm_compute. lia.
  - reflexivity.
Defined.

(** ** check_coin when KuCoin fails *)

(** KuCoin's newest row carries a volume that is not a number; OKX holds a
    series on which the detector fires. *)
Definition bad_row_kucoin : world :=
  {| net := fun e =>
       match e with
       | ScanCandles KuCoin _ => Resp true (payload (rows_with kucoin_raw 22 "n/a"))
       | ScanCandles OKX _ => Resp true (payload (rows_with okx_raw 22 "200"))
       | Candles KuCoin _ => Resp true (payload (rows_with kucoin_raw 20 "n/a"))
       | Candles OKX _ => Resp true (payload (rows_with okx_raw 22 "200"))
       | _ => ConnError
       end |}.

(** KuCoin times out; OKX as before. *)
Definition kucoin_down : world :=
  {| net := fun e =>
       match e with
       | ScanCandles OKX _ => Resp true (payload (rows_with okx_raw 22 "200"))
       | Candles OKX _ => Resp true (payload (rows_with okx_raw 22 "200"))
       | _ => ConnError
       end |}.

Definition okx_alert : alert :=
  {| a_sym := "BTC"; a_spike := two;
     a_pct_from_low := nearest (111 # 10);
     a_price := VFloat (float_of_Z 10); a_source := "OKX" |}.

(** C5. check_coin has one [try] around both exchanges, so a KuCoin row
    that fails to convert, or a KuCoin timeout, ends the symbol's check:
    the error is printed, [None] is returned, and OKX, whose series would
    have raised the alert, is never asked.  fetch_one_crypto, with a [try]
    of its own for each exchange, goes on to OKX in the same situations. *)
Theorem check_coin_abandons_fallback :
  (forall py_sum,
      check_coin plain_float plain_int py_sum bad_row_kucoin scan_time "BTC"
        (fresh five "" "")
      = ([Requested (ScanCandles KuCoin "BTC");
          Printed (MsgCoinError "BTC" ValueError)],
         Returns None, fresh five "" ""))
  /\ (forall py_sum,
        check_coin plain_float plain_int py_sum kucoin_down scan_time "BTC"
          (fresh five "" "")
        = ([Requested (ScanCandles KuCoin "BTC");
            Printed (MsgCoinError "BTC" RequestException)],
           Returns None, fresh five "" ""))
  /\ scan_leg plain_float naive_sum kucoin_down OKX (okx_row plain_float plain_int)
       "OKX" "BTC" (fresh five "" "")
     = ([Requested (ScanCandles OKX "BTC")], Returns (Some okx_alert),
        fresh five "" "")
  /\ scan_leg plain_float neumaier_sum kucoin_down OKX (okx_row plain_float plain_int)
       "OKX" "BTC" (fresh five "" "")
     = ([Requested (ScanCandles OKX "BTC")], Returns (Some okx_alert),
        fresh five "" "")
  /\ fetch_one_crypto plain_float plain_int bad_row_kucoin "BTC" (fresh five "" "")
     = ([Requested (Candles KuCoin "BTC"); Requested (Candles OKX "BTC")],
        Returns ("BTC", Some {| klines := okx_series; type_ := "crypto";
                                source := "okx" |}),
        fresh five "" "")
  /\ fetch_one_crypto plain_float plain_int kucoin_down "BTC" (fresh five "" "")
     = ([Requested (Candles KuCoin "BTC");
         Printed (MsgCryptoError KuCoin "BTC" RequestException);
         Requested (Candles OKX "BTC")],
        Returns ("BTC", Some {| klines := okx_series; type_ := "crypto";
                                source := "okx" |}),
        fresh five "" "").
Proof.
  split; [intros py_sum; vm_compute; reflexivity|].
  split; [intros py_sum; vm_compute; reflexivity|].
  repeat split; vm_compute; reflexivity.
Qed.

(** ** The refresh when Binance fails half-way *)

Definition binance_instrument (base : string) : pyval :=
  VDict [("symbol", VStr (base ++ "USDT")); ("status", VStr "TRADING");
         ("baseAsset", VStr base); ("quoteAsset", VStr "USDT");
         ("isSpotTradingAllowed", VBool true)].

(** An instrument without its base asset. *)
Definition binance_broken : pyval :=
  VDict [("symbol", VStr "???USDT"); ("status", VStr "TRADING");
         ("quoteAsset", VStr "USDT"); ("isSpotTradingAllowed", VBool true)].

Definition kucoin_instrument (base : string) : pyval :=
  VDict [("symbol", VStr (base ++ "-USDT")); ("baseCurrency", VStr base);
         ("quoteCurrency", VStr "USDT"); ("enableTrading", VBool true)].

Definition listings (binance kucoin : list pyval) : world :=
  {| net := fun e =>
       match e with
       | Listing BinanceList => Resp true (Some (VDict [("symbols", VList binance)]))
       | Listing KuCoinList => Resp true (Some (VDict [("data", VList kucoin)]))
       | _ => ConnError
       end |}.

(** C9. [coins] is one list for the three exchanges while [seen] starts
    empty for each.  When Binance's loop raises after it has appended a
    base, the base stays in [coins]: KuCoin's loop appends it again, and
    the universe is replaced by a list with a duplicate; and when KuCoin
    then lists nothing, the universe is replaced by what Binance's failed
    loop left behind.  Within one exchange a base is listed once and an
    excluded one not at all, and with no exchange reachable the universe
    stays the built-in list. *)
Theorem refresh_keeps_failed_exchange_coins :
  MONITOR_COINS
    (fetch_monitor_coins
       (listings [binance_instrument "BTC"; binance_broken]
                 [kucoin_instrument "BTC"; kucoin_instrument "ETH"])
       (startup "" "")).2
  = ["BTC"; "BTC"; "ETH"]
  /\ (fetch_monitor_coins
        (listings [binance_instrument "BTC"; binance_broken]
                  [kucoin_instrument "BTC"; kucoin_instrument "ETH"])
        (startup "" "")).1.1
     = [Requested (Listing BinanceList);
        Printed (MsgFetchFailed BinanceList KeyError);
        Requested (Listing KuCoinList); Printed (MsgLoaded KuCoinList 3)]
  /\ MONITOR_COINS
       (fetch_monitor_coins
          (listings [binance_instrument "BTC"; binance_broken] [])
          (startup "" "")).2
     = ["BTC"]
  /\ MONITOR_COINS
       (fetch_monitor_coins
          (listings [binance_instrument "BTC"; binance_instrument "USDT";
                     binance_instrument "BTC"; binance_instrument "ETH"] [])
          (startup "" "")).2
     = ["BTC"; "ETH"]
  /\ MONITOR_COINS
       (fetch_monitor_coins {| net := fun _ => ConnError |} (startup "" "")).2
     = MONITOR_COINS_BUILTIN.
Proof. repeat split; reflexivity. Qed.

(** ** The detector at its thresholds *)

(** X1 at two canonical series: with a current volume of 180 against a
    mean of 100 the signal is (1.8, 30.0); with a current volume of 179
    the ratio test rejects the series. *)
Example detect_at_threshold :
  detect_volume_spike plain_float naive_sum "BTC"
    (map canonical (series (nearest (104 # 10)) (float_of_Z 180)))
  = Returns (Some {| ratio := nearest (18 # 10); pct_from_low := float_of_Z 30 |})
  /\ detect_volume_spike plain_float naive_sum "BTC"
       (map canonical (series (nearest (104 # 10)) (float_of_Z 179)))
     = Returns None.
Proof. split; vm_compute; reflexivity. Qed.

(** A calm series in which one bar of the window reports a volume that is
    not a number. *)
Definition nan_series : list candle :=
  replicate 18 calm_bar ++ [volume_bar S754_nan; calm_bar; calm_bar]
    ++ [last_bar (float_of_Z 10) (float_of_Z 250)].

(** X2 at [nan_series], with [sum] adding from left to right. *)
Lemma detect_nan_mean_signal_witness :
  exists s : signal,
    detect_volume_spike plain_float naive_sum "BTC" (map canonical nan_series)
    = Returns (Some s)
    /\ is_nan (ratio s) = true
    /\ pct_from_low s
       = py_round (pct_of (map c_close nan_series) (map c_low nan_series)) 1.
Proof.
  apply (detect_nan_mean_signal plain_float naive_sum "BTC" nan_series).
  - vm_compute. lia.
  - vm_compute. reflexivity.
  - vm_compute. reflexivity.
  - vm_compute. reflexivity.
  - vm_compute. reflexivity.
  - vm_compute. reflexivity.
Defined.

(** The signal of [nan_series] is (nan, 11.1), whichever way [sum] adds. *)
Example detect_nan_series_signal :
  detect_volume_spike plain_float naive_sum "BTC" (map canonical nan_series)
  = Returns (Some {| ratio := S754_nan; pct_from_low := nearest (111 # 10) |})
  /\ detect_volume_spike plain_float neumaier_sum "BTC" (map canonical nan_series)
     = Returns (Some {| ratio := S754_nan; pct_from_low := nearest (111 # 10) |}).
Proof. split; vm_compute; reflexivity. Qed.

(** X3 at a series that fires, behind a first row which is [None]: the
    row lies outside every window the rules read, and silences the
    detector all the same. *)
Lemma detect_unreadable_row_absent_witness :
  detect_volume_spike plain_float naive_sum "BTC"
    (VNone :: map canonical (series (nearest (104 # 10)) (float_of_Z 200)))
  = Returns None.
Proof.
  apply (detect_unreadable_row_absent plain_float naive_sum "BTC"
           (VNone :: map canonical (series (nearest (104 # 10)) (float_of_Z 200)))
           VNone 5 TypeError).
  - apply list_elem_of_here.
  - right. right. reflexivity.
  - reflexivity.
Defined.

(** ** Telegram, and scans that follow each other *)

(** X4 with both credentials and a Telegram that accepts the posting. *)
Lemma send_telegram_delivery_witness :
  exists l,
    send_telegram five_symbols [] (fresh five "token" "chat")
    = (Handed [] :: l, Returns true, fresh five "token" "chat")
    /\ requests l = [TelegramSend].
Proof.
  destruct (send_telegram_delivery five_symbols [] (fresh five "token" "chat"))
    as (l & delivered & Heq & Hd & Hreq & _).
  exists l. split.
  - assert (Ht : delivered = true).
    { apply Hd. split; [discriminate|]. split; [discriminate|].
      now exists None. }
    rewrite Ht in Heq. exact Heq.
  - apply Hreq. split; discriminate.
Defined.

(** The alert of "AAA" in the scan of five symbols. *)
Definition aaa_alert : alert :=
  {| a_sym := "AAA"; a_spike := nearest (19 # 10);
     a_pct_from_low := nearest (111 # 10);
     a_price := VFloat (float_of_Z 10); a_source := "KuCoin" |}.

(** X5 at the scan of five symbols and a second scan 300 seconds later,
    in which every exchange would answer with a firing series. *)
Definition all_fire : world :=
  {| net := fun e =>
       match e with
       | ScanCandles KuCoin _ => Resp true (payload (rows_with kucoin_raw 22 "250"))
       | _ => ConnError
       end |}.

Lemma no_second_alert_within_window_witness :
  (forall ad,
      ScanCandles ad "AAA"
      ∉ requests
          (run_monitor_scan plain_float plain_int naive_sum stable_desc all_fire (scan_time + 300)
             five_scan.2).1.1)
  /\ (forall al',
        al' ∈ positives
                (scan_results plain_float plain_int naive_sum all_fire (scan_time + 300)
                   five_scan.2) ->
        a_sym al' <> "AAA")
  /\ _last_alert_time
       (run_monitor_scan plain_float plain_int naive_sum stable_desc all_fire (scan_time + 300)
          five_scan.2).2 !! "AAA"
     = Some scan_time.
Proof.
  apply (no_second_alert_within_window plain_float plain_int naive_sum stable_desc five_symbols
           all_fire scan_time (scan_time + 300) (fresh five "token" "chat")
           aaa_alert).
  - reflexivity.
  - vm_compute. elem_of_list.
Defined.


(** X7 where KuCoin cannot be reached: its leg ends in an exception, and
    OKX, which holds a firing series, is not asked. *)
Lemma check_coin_asks_witness :
  requests (check_log plain_float plain_int naive_sum kucoin_down scan_time
              (fresh ["BTC"] "" "") "BTC")
  = [ScanCandles KuCoin "BTC"].
Proof.
  destruct (proj2 (check_coin_asks plain_float plain_int naive_sum kucoin_down scan_time
                     (fresh ["BTC"] "" "") "BTC") eq_refl)
    as (rest & Heq & _ & Hrest).
  rewrite Heq. f_equal. apply Hrest. discriminate.
Defined.

(** X8 at the scan of five symbols, and at a universe of one symbol no
    exchange knows. *)
Lemma scan_requests_bounded_witness :
  (length (requests five_scan.1.1) <= 11)%nat
  /\ (run_monitor_scan plain_float plain_int naive_sum stable_desc kucoin_down scan_time
        (fresh ["XYZ"] "token" "chat")).2
     = fresh ["XYZ"] "token" "chat".
Proof.
  split.
  - apply (proj1 (proj2 (scan_requests_bounded plain_float plain_int naive_sum stable_desc
                           five_symbols scan_time (fresh five "token" "chat")))).
  - apply (proj2 (proj2 (scan_requests_bounded plain_float plain_int naive_sum stable_desc
                           kucoin_down scan_time (fresh ["XYZ"] "token" "chat")))).
    reflexivity.
Defined.

(** ** The refresh and the pair list *)

(** Binance cannot be reached; KuCoin lists "BTC" twice, a stablecoin and
    "ETH". *)
Definition kucoin_listing : list pyval :=
  [kucoin_instrument "BTC"; kucoin_instrument "USDT"; kucoin_instrument "BTC";
   kucoin_instrument "ETH"].

Definition kucoin_only : world :=
  {| net := fun e =>
       match e with
       | Listing KuCoinList => Resp true (Some (VDict [("data", VList kucoin_listing)]))
       | _ => ConnError
       end |}.

(** X10 at [kucoin_only]. *)
Lemma refresh_takes_first_listing_witness :
  exists coins,
    fetch_monitor_coins kucoin_only (startup "" "")
    = (concat (map (down_log kucoin_only) [BinanceList])
         ++ [Requested (Listing KuCoinList);
             Printed (MsgLoaded KuCoinList (length coins))],
       Returns tt, with_coins (startup "" "") coins)
    /\ NoDup coins
    /\ forall c, c ∈ coins <->
                 (c ∉ EXCLUDE)
                 /\ exists s, s ∈ kucoin_listing
                              /\ listed_base KuCoinList s = Returns (Some c).
Proof.
  apply (refresh_takes_first_listing kucoin_only (startup "" "")
           [BinanceList] [OKXList] KuCoinList
           (VDict [("data", VList kucoin_listing)]) (VList kucoin_listing)
           kucoin_listing).
  - reflexivity.
  - intros y Hy. apply list_elem_of_singleton in Hy. subst y. now left.
  - reflexivity.
  - reflexivity.
  - reflexivity.
  - intros s Hs. unfold kucoin_listing in Hs.
    repeat (apply elem_of_cons in Hs as [->|Hs]; [eexists; reflexivity|]).
    now apply elem_of_nil in Hs.
  - exists (kucoin_instrument "BTC"), "BTC".
    split; [apply list_elem_of_here|]. split; [reflexivity|].
    apply (proj1 (bool_decide_eq_false ("BTC" ∈ EXCLUDE))). reflexivity.
Defined.

(** X11 with no exchange reachable. *)
Lemma refresh_without_listing_witness :
  fetch_monitor_coins {| net := fun _ => ConnError |} (startup "" "")
  = (concat (map (down_log {| net := fun _ => ConnError |}) exchanges)
       ++ [Printed (MsgAllExchangesFailed (length MONITOR_COINS_BUILTIN))],
     Returns tt, startup "" "")
  /\ requests (fetch_monitor_coins {| net := fun _ => ConnError |}
                 (startup "" "")).1.1
     = map Listing exchanges.
Proof.
  apply (refresh_without_listing {| net := fun _ => ConnError |} (startup "" "")).
  intros x. now left.
Defined.

(** X13 where Binance's listing breaks off after "BTC" and KuCoin lists
    "BTC" and "ETH": the list holds "BTC" once. *)
Lemma binance_pairs_sound_witness :
  p_symbols
    (binance_pairs (listings [binance_instrument "BTC"; binance_broken]
                      [kucoin_instrument "BTC"; kucoin_instrument "ETH"])).2
  = ["BTC"; "ETH"]
  /\ NoDup
       (p_symbols
          (binance_pairs (listings [binance_instrument "BTC"; binance_broken]
                            [kucoin_instrument "BTC"; kucoin_instrument "ETH"])).2).
Proof.
  split; [reflexivity|].
  apply (proj1 (binance_pairs_sound
                  (listings [binance_instrument "BTC"; binance_broken]
                     [kucoin_instrument "BTC"; kucoin_instrument "ETH"]))).
Defined.

(** ** The routes *)

(** X15 at a parameter with blanks, lower case and empty pieces, and at a
    parameter without a symbol. *)
Lemma request_symbols_well_formed_witness :
  request_symbols " btc, Eth ,,sol " = ["BTC"; "ETH"; "SOL"]
  /\ request_symbols " , ," = [].
Proof.
  split; [reflexivity|].
  apply (proj2 (proj2 (request_symbols_well_formed " , ,"))).
  intros c Hc. cbn in Hc.
  repeat (apply elem_of_cons in Hc as [->|Hc]; [auto|]).
  now apply elem_of_nil in Hc.
Defined.

(** X17 after the scan of five symbols, 300 seconds later: the three
    symbols alerted are counted. *)
Lemma status_counts_cooldowns_witness :
  (exists syms,
      NoDup syms
      /\ recent_alerts (monitor_status true (scan_time + 300) five_scan.2)
         = length syms
      /\ forall sym, sym ∈ syms
                     <-> should_skip (_last_alert_time five_scan.2) sym
                           (scan_time + 300) = true)
  /\ telegram_configured (monitor_status true (scan_time + 300) five_scan.2)
     = configured five_scan.2
  /\ coins_monitored (monitor_status true (scan_time + 300) five_scan.2)
     = length (MONITOR_COINS five_scan.2).
Proof.
  apply (status_counts_cooldowns true (scan_time + 300) five_scan.2).
  vm_compute. discriminate.
Defined.

(** X19 at the module's first state, with iShares unreachable: the answer
    is 503 and the cache stays empty. *)
Lemma russell2000_sound_witness :
  cache_sound
    (russell2000 NoAnswer scan_time scan_time
       {| _russell_cache := None; _russell_cache_time := 0 |}).2
  /\ (russell2000 NoAnswer scan_time scan_time
        {| _russell_cache := None; _russell_cache_time := 0 |}).2
     = {| _russell_cache := None; _russell_cache_time := 0 |}.
Proof.
  destruct (russell2000_sound NoAnswer scan_time scan_time
              {| _russell_cache := None; _russell_cache_time := 0 |} I)
    as (Hsound & _ & _ & Hfail).
  split; [exact Hsound|]. apply Hfail. reflexivity.
Defined.
